(** * twister: the HTTP/1.x connection engine and the pattern router

    A shallow embedding of [server] (request parsing, response framing,
    body writers, the per-connection loop) and of [web/router.go]
    (pattern compiler, path router), with the properties of the
    specification stated and proved over it.

    Conventions.
    - A Go [string] is a [string]; a Go [[]byte] is a [list ascii].
      [string(p)] is [string_of_list_ascii], [[]byte(s)] is
      [list_ascii_of_string].
    - A Go [int] that holds a length or a count is a [nat]; the two
      signed counters [requestAvail] and [responseAvail] are [Z].
    - [map[string][]string] and [map[string]Handler] are [gmap]s.
    - A function that can fail returns a [result]: a value, an
      [os.Error], or a run-time panic.  Loops run on fuel; each is
      shown to return before the fuel it is given runs out. *)

From Stdlib Require Import ZArith Lia Ascii String List Bool.
From Stdlib Require DecimalString HexadecimalString.
From stdpp Require Import base option list gmap strings.

Local Open Scope Z_scope.
Local Open Scope nat_scope.

(** ** Errors and results *)

Inductive error : Type :=
| EOF
| ErrBufferFull
| ErrNetwork
| ErrShortWrite
| ErrorString (msg : string)
| ErrResponseBodyClosed
| ErrResponseStarted.

Global Instance error_eq_dec : EqDecision error.
Proof. solve_decision. Defined.

Inductive result (A : Type) : Type :=
| Ok (a : A)
| Err (e : error)
| Panic (msg : string)
| NoFuel.
Arguments Ok {A} a.
Arguments Err {A} e.
Arguments Panic {A} msg.
Arguments NoFuel {A}.

Definition indexOutOfRange : string := "index out of range".
Definition nilDereference : string := "invalid memory address or nil pointer dereference".

(** ** Bytes *)

Definition CR : ascii := "013"%char.
Definition LF : ascii := "010"%char.
Definition HT : ascii := "009"%char.
Definition SP : ascii := " "%char.
Definition CRLF : list ascii := [CR; LF].

(** [[]byte(s)] for a literal. *)
Abbreviation bytes := list_ascii_of_string.
Abbreviation str := string_of_list_ascii.

(** What the sources use of package [web] and of the Go library without
    defining it.  The byte classes, the header-name canonicaliser and the
    status-text table belong to package [web]; the case mappings, the URL
    parser, the URL unescaper and the regular-expression compiler to the Go
    library.  A compiled expression is used through [FindStringSubmatch]
    only, so it is the function from a string to its submatches (none when
    it does not match); [MustCompile] has no value when it panics. *)
Record URL : Type := mkURL {
  Scheme : string;
  Host : string;
  Path : string;
  RawQuery : string
}.

Class Externals : Type := {
  IsSpaceByte : ascii -> bool;
  IsTokenByte : ascii -> bool;
  HeaderNameBytes : list ascii -> string;
  StatusText : Z -> option string;
  ToLower : string -> string;
  ToUpper : list ascii -> list ascii;
  ParseURL : string -> option URL;
  URLUnescape : string -> option string;
  QuoteMeta : string -> string;
  MustCompile : string -> option (string -> list string)
}.

(** ** StringsMap *)

(** Modelled from the spec: [web.StringsMap] and its methods [Get], [Set]
    and [Append] are not among the sources.  The header collection maps a
    name to an ordered sequence of values; [Get] yields the first value of a
    name that has one, [Set] replaces the sequence by one value, [Append]
    adds a value at the end. *)
Abbreviation StringsMap := (gmap string (list string)).

Definition Get (m : StringsMap) (key : string) : option string :=
  match m !! key with
  | Some (v :: _) => Some v
  | _ => None
  end.

Definition Set_ (m : StringsMap) (key value : string) : StringsMap :=
  <[key := [value]]> m.

Definition Append (m : StringsMap) (key value : string) : StringsMap :=
  <[key := default [] (m !! key) ++ [value]]> m.

(** [NewStringsMap(kvs...)]: the pairs of [kvs], appended in order. *)
Fixpoint appendPairs (m : StringsMap) (kvs : list string) : StringsMap :=
  match kvs with
  | k :: v :: rest => appendPairs (Append m k v) rest
  | _ => m
  end.

Definition NewStringsMap (kvs : list string) : StringsMap := appendPairs ∅ kvs.

(** [_, found := m[key]] *)
Definition found (m : StringsMap) (key : string) : bool :=
  bool_decide (is_Some (m !! key)).

Definition HeaderConnection : string := "Connection".
Definition HeaderContentLength : string := "Content-Length".
Definition HeaderContentType : string := "Content-Type".
Definition HeaderExpect : string := "Expect".
Definition HeaderLocation : string := "Location".
Definition HeaderTransferEncoding : string := "Transfer-Encoding".

Definition StatusOK : Z := 200%Z.
Definition StatusMovedPermanently : Z := 301%Z.
Definition StatusFound : Z := 302%Z.
Definition StatusNotModified : Z := 304%Z.
Definition StatusNotFound : Z := 404%Z.
Definition StatusMethodNotAllowed : Z := 405%Z.

(** ** bufio.Reader *)

(** The buffered reader over the connection: the bytes the peer sends
    that have not been consumed yet, and the size of the buffer. *)
Record Reader : Type := mkReader {
  rsize : nat;
  rdata : list ascii
}.

Definition defaultBufSize : nat := 4096.
Definition NewReader (input : list ascii) : Reader :=
  {| rsize := defaultBufSize; rdata := input |}.

(** The bytes up to and including the first [delim], and what follows. *)
Fixpoint splitAt (delim : ascii) (l : list ascii) : option (list ascii * list ascii) :=
  match l with
  | [] => None
  | c :: l' =>
      if Ascii.eqb c delim then Some ([c], l')
      else match splitAt delim l' with
           | Some (line, rest) => Some (c :: line, rest)
           | None => None
           end
  end.

(** [b.ReadSlice(delim)]: the line with its delimiter when it fits the
    buffer; [ErrBufferFull] when the buffer fills first; the read error
    (end of input) when the input ends first. *)
Definition ReadSlice (b : Reader) (delim : ascii) : Reader * result (list ascii) :=
  match splitAt delim (rdata b) with
  | Some (line, rest) =>
      if length line <=? rsize b
      then ({| rsize := rsize b; rdata := rest |}, Ok line)
      else ({| rsize := rsize b; rdata := drop (rsize b) (rdata b) |}, Err ErrBufferFull)
  | None =>
      if rsize b <=? length (rdata b)
      then ({| rsize := rsize b; rdata := drop (rsize b) (rdata b) |}, Err ErrBufferFull)
      else ({| rsize := rsize b; rdata := [] |}, Err EOF)
  end.

(** [b.Read(p)] with [len(p) = n > 0]: some bytes, at most [n], or the
    read error at the end of the input. *)
Definition ReaderRead (b : Reader) (n : nat) : Reader * (list ascii * option error) :=
  match rdata b with
  | [] => (b, ([], Some EOF))
  | _ => ({| rsize := rsize b; rdata := drop (min n (rsize b)) (rdata b) |},
          (take (min n (rsize b)) (rdata b), None))
  end.

Section Server.
Context {X : Externals}.

(** ** Byte helpers *)

Fixpoint skipBytes (p : list ascii) (f : ascii -> bool) : nat :=
  match p with
  | [] => 0
  | c :: p' => if f c then S (skipBytes p' f) else 0
  end.

Definition trimWSLeft (p : list ascii) : list ascii :=
  drop (skipBytes p IsSpaceByte) p.

(** The loop of [trimWSRight] walks down from [len(p)]; here on the
    reversed slice. *)
Definition trimWSRight (p : list ascii) : list ascii :=
  take (length p - skipBytes (rev p) IsSpaceByte) p.

(** ** readHeaders *)

Definition maxLineSize : nat := 4096.
Definition maxValueSize : nat := 4096.
Definition maxHeaderCount : nat := 256.

(** The variables of the loop of [readHeaders]. *)
Record hstate : Type := mkHstate {
  hdr : StringsMap;
  lastKey : string;
  headerCount : nat
}.

Inductive lineStep : Type :=
| LNext (s : hstate)
| LBreak
| LErr (e : error)
| LPanic (msg : string).

(** remove line terminator *)
Definition stripTerminator (p : list ascii) : list ascii :=
  if (2 <=? length p) && bool_decide (p !! (length p - 2) = Some CR)
  then take (length p - 2) p
  else take (length p - 1) p.

(** [values[len(values)-1] = value] *)
Definition setLast (values : list string) (value : string) : list string :=
  <[length values - 1 := value]> values.

(** The body of the loop, from the line [ReadSlice] returned. *)
Definition headerLine (s : hstate) (p0 : list ascii) : lineStep :=
  let p := stripTerminator p0 in
  match p with
  | [] => LBreak
  | c :: _ =>
      if maxLineSize <? length p then LErr (ErrorString "header line too long")
      else if IsSpaceByte c then
        if bool_decide (lastKey s = "") then
          LErr (ErrorString "header continuation before first header")
        else
          let p := trimWSLeft (trimWSRight p) in
          if 0 <? length p then
            let values := default [] (hdr s !! lastKey s) in
            match last values with
            | None => LPanic indexOutOfRange
            | Some value =>
                let value := value +:+ " " +:+ str p in
                if maxValueSize <? String.length value
                then LErr (ErrorString "header value too long")
                else LNext {| hdr := <[lastKey s := setLast values value]> (hdr s);
                              lastKey := lastKey s;
                              headerCount := headerCount s |}
            end
          else LNext s
      else
        let headerCount := headerCount s + 1 in
        if maxHeaderCount <? headerCount then LErr (ErrorString "too many headers")
        else
          let i := skipBytes p IsTokenByte in
          if i <? 1 then LErr (ErrorString "missing header key")
          else
            let key := HeaderNameBytes (take i p) in
            let p := drop i p in
            let p := trimWSLeft p in
            match p with
            | [] => LPanic indexOutOfRange
            | colon :: p =>
                if negb (Ascii.eqb colon ":") then LErr (ErrorString "header missing :")
                else
                  let p := trimWSLeft p in
                  let value := str (trimWSRight p) in
                  LNext {| hdr := Append (hdr s) key value;
                           lastKey := key;
                           headerCount := headerCount |}
            end
  end.

(** The loop.  The header map is updated in place, so the caller sees
    what was stored before a failure too. *)
Fixpoint readHeadersLoop (fuel : nat) (b : Reader) (s : hstate)
  : Reader * StringsMap * result unit :=
  match fuel with
  | 0 => (b, hdr s, NoFuel)
  | S fuel =>
      match ReadSlice b LF with
      | (b', Ok p) =>
          match headerLine s p with
          | LNext s' => readHeadersLoop fuel b' s'
          | LBreak => (b', hdr s, Ok tt)
          | LErr e => (b', hdr s, Err e)
          | LPanic msg => (b', hdr s, Panic msg)
          end
      | (b', Err e) => (b', hdr s, Err e)
      | (b', Panic msg) => (b', hdr s, Panic msg)
      | (b', NoFuel) => (b', hdr s, NoFuel)
      end
  end.

Definition readHeaders (b : Reader) (h : StringsMap) : Reader * StringsMap * result unit :=
  readHeadersLoop (S (length (rdata b))) b
    {| hdr := h; lastKey := ""; headerCount := 0 |}.


(** ** strconv *)

(** Go's [int] is 32 bits wide on every platform of the toolchain this
    code was written for. *)
Definition IntSize : nat := 32.
Definition maxInt : Z := (2 ^ (Z.of_nat IntSize - 1) - 1)%Z.
Definition minInt : Z := (- 2 ^ (Z.of_nat IntSize - 1))%Z.

(** [x - y] on [int], with its wrap-around. *)
Definition wrapInt (z : Z) : Z :=
  ((z - minInt) mod 2 ^ Z.of_nat IntSize + minInt)%Z.

Definition digitValue (c : ascii) : option Z :=
  let n := nat_of_ascii c in
  if (48 <=? n) && (n <=? 57) then Some (Z.of_nat (n - 48)) else None.

Fixpoint digitsValue (acc : Z) (l : list ascii) : option Z :=
  match l with
  | [] => Some acc
  | c :: l' =>
      match digitValue c with
      | Some d => digitsValue (10 * acc + d)%Z l'
      | None => None
      end
  end.

(** [strconv.Atoi]: the value and whether an error is returned with it.
    A syntax error comes with 0, a range error with the nearest [int]. *)
Definition Atoi (s : string) : Z * bool :=
  let parse (neg : bool) (digits : list ascii) : Z * bool :=
    match digits with
    | [] => (0%Z, true)
    | _ =>
        match digitsValue 0 digits with
        | None => (0%Z, true)
        | Some v =>
            let v := if neg then (- v)%Z else v in
            if (maxInt <? v)%Z then (maxInt, true)
            else if (v <? minInt)%Z then (minInt, true)
            else (v, false)
        end
    end in
  match bytes s with
  | "+"%char :: digits => parse false digits
  | "-"%char :: digits => parse true digits
  | digits => parse false digits
  end.

Definition Itoa (i : Z) : string :=
  DecimalString.NilZero.string_of_int (Z.to_int i).

(** [strconv.Itob(n, 16)] for a length. *)
Definition Itob16 (n : nat) : string :=
  HexadecimalString.NilZero.string_of_uint (Nat.to_hex_uint n).

(** ** The request line *)

Record Request : Type := mkRequest {
  Method : string;
  URL_ : option URL;
  ProtocolMajor : Z;
  ProtocolMinor : Z;
  Header : StringsMap;
  ContentLength : Z
}.

(** [web.NewRequest()] of the server's version of package [web]: the zero
    request with an empty header map. *)
Definition NewRequest : Request :=
  {| Method := ""; URL_ := None; ProtocolMajor := 0; ProtocolMinor := 0;
     Header := ∅; ContentLength := 0 |}.

Definition isMethodByte (c : ascii) : bool :=
  let n := nat_of_ascii c in
  (n =? 95) || ((65 <=? n) && (n <=? 90)) || ((97 <=? n) && (n <=? 122))
  || ((48 <=? n) && (n <=? 57)).

Definition isDigitByte (c : ascii) : bool :=
  let n := nat_of_ascii c in (48 <=? n) && (n <=? 57).

Definition notByte (d : ascii) (c : ascii) : bool := negb (Ascii.eqb c d).

(** [requestLineRegexp.FindSubmatch(p)] for
    [^([_A-Za-z0-9]+) ([^ ]+) HTTP/([0-9]+)\.([0-9]+)$]: the expression
    leaves no choice, so it is matched left to right.  The result holds
    the groups 1 to 4. *)
Definition matchRequestLine (p : list ascii)
  : option (list ascii * list ascii * list ascii * list ascii) :=
  let i := skipBytes p isMethodByte in
  if i <? 1 then None else
  match drop i p with
  | " "%char :: p1 =>
      let j := skipBytes p1 (notByte " ") in
      if j <? 1 then None else
      match drop j p1 with
      | " "%char :: "H"%char :: "T"%char :: "T"%char :: "P"%char :: "/"%char :: p2 =>
          let k := skipBytes p2 isDigitByte in
          if k <? 1 then None else
          match drop k p2 with
          | "."%char :: p3 =>
              let l := skipBytes p3 isDigitByte in
              if (l <? 1) || negb (l =? length p3) then None
              else Some (take i p, take j p1, take k p2, p3)
          | _ => None
          end
      | _ => None
      end
  | _ => None
  end.

Definition readStatusLine (b : Reader) (req : Request) : Reader * Request * option error :=
  match ReadSlice b LF with
  | (b', Ok p) =>
      let p := trimWSRight p in
      match matchRequestLine p with
      | None => (b', req, Some (ErrorString "malformed request line"))
      | Some (m1, m2, m3, m4) =>
          let req := {| Method := str (ToUpper m1); URL_ := URL_ req;
                        ProtocolMajor := ProtocolMajor req; ProtocolMinor := ProtocolMinor req;
                        Header := Header req; ContentLength := ContentLength req |} in
          let '(major, e) := Atoi (str m3) in
          let req := {| Method := Method req; URL_ := URL_ req;
                        ProtocolMajor := major; ProtocolMinor := ProtocolMinor req;
                        Header := Header req; ContentLength := ContentLength req |} in
          if e then (b', req, Some (ErrorString "bad major version")) else
          let '(minor, e) := Atoi (str m4) in
          let req := {| Method := Method req; URL_ := URL_ req;
                        ProtocolMajor := major; ProtocolMinor := minor;
                        Header := Header req; ContentLength := ContentLength req |} in
          if e then (b', req, Some (ErrorString "bad minor version")) else
          match ParseURL (str m2) with
          | None => (b', req, Some (ErrorString "bad url"))
          | Some u =>
              (b', {| Method := Method req; URL_ := Some u;
                      ProtocolMajor := major; ProtocolMinor := minor;
                      Header := Header req; ContentLength := ContentLength req |}, None)
          end
      end
  | (b', Err e) => (b', req, Some e)
  | (b', _) => (b', req, Some EOF)
  end.

(** ** The connection *)

(** The network connection: what has been written to the peer, how many
    more bytes it takes before a write fails (if ever), and whether it has
    been closed. *)
Record Net : Type := mkNet {
  sent : list ascii;
  budget : option nat;
  closed : bool
}.

(** [netConn.Write(p)] *)
Definition netWrite (n : Net) (p : list ascii) : Net * (nat * option error) :=
  if closed n then (n, (0, Some ErrNetwork)) else
  match budget n with
  | None => ({| sent := sent n ++ p; budget := None; closed := false |}, (length p, None))
  | Some k =>
      if length p <=? k
      then ({| sent := sent n ++ p; budget := Some (k - length p); closed := false |},
            (length p, None))
      else ({| sent := sent n ++ take k p; budget := Some 0; closed := false |},
            (k, Some ErrNetwork))
  end.

Definition netClose (n : Net) : Net :=
  {| sent := sent n; budget := budget n; closed := true |}.

Inductive writerKind : Type := identityKind | chunkedKind.

(** A [bufio.Writer] over [identityWriter{c}] or [chunkedWriter{c}]. *)
Record Writer : Type := mkWriter {
  wkind : writerKind;
  wbuf : list ascii;
  werr : option error
}.

Definition NewWriter (k : writerKind) : Writer :=
  {| wkind := k; wbuf := []; werr := None |}.

(** [conn].  [br] and [netConn] point to objects the loop of
    [serveConnection] owns, so here they only say whether the field is
    set; the objects are in [world]. *)
Record conn : Type := mkConn {
  atLeastHttp11 : bool;
  br : bool;
  bw : option Writer;
  chunked : bool;
  closeAfterResponse : bool;
  hijacked : bool;
  netConn : bool;
  req : option Request;
  requestAvail : Z;
  requestErr : option error;
  respondCalled : bool;
  responseAvail : Z;
  responseErr : option error;
  write100Continue : bool
}.

Record world : Type := mkWorld {
  net : Net;
  reader : Reader
}.

Definition set_net (w : world) (n : Net) : world := {| net := n; reader := reader w |}.
Definition set_reader (w : world) (b : Reader) : world := {| net := net w; reader := b |}.

Definition set_atLeastHttp11 (v : bool) (c : conn) : conn :=
  mkConn v (br c) (bw c) (chunked c) (closeAfterResponse c) (hijacked c) (netConn c)
    (req c) (requestAvail c) (requestErr c) (respondCalled c) (responseAvail c)
    (responseErr c) (write100Continue c).
Definition set_br (v : bool) (c : conn) : conn :=
  mkConn (atLeastHttp11 c) v (bw c) (chunked c) (closeAfterResponse c) (hijacked c) (netConn c)
    (req c) (requestAvail c) (requestErr c) (respondCalled c) (responseAvail c)
    (responseErr c) (write100Continue c).
Definition set_bw (v : option Writer) (c : conn) : conn :=
  mkConn (atLeastHttp11 c) (br c) v (chunked c) (closeAfterResponse c) (hijacked c) (netConn c)
    (req c) (requestAvail c) (requestErr c) (respondCalled c) (responseAvail c)
    (responseErr c) (write100Continue c).
Definition set_chunked (v : bool) (c : conn) : conn :=
  mkConn (atLeastHttp11 c) (br c) (bw c) v (closeAfterResponse c) (hijacked c) (netConn c)
    (req c) (requestAvail c) (requestErr c) (respondCalled c) (responseAvail c)
    (responseErr c) (write100Continue c).
Definition set_closeAfterResponse (v : bool) (c : conn) : conn :=
  mkConn (atLeastHttp11 c) (br c) (bw c) (chunked c) v (hijacked c) (netConn c)
    (req c) (requestAvail c) (requestErr c) (respondCalled c) (responseAvail c)
    (responseErr c) (write100Continue c).
Definition set_netConn (v : bool) (c : conn) : conn :=
  mkConn (atLeastHttp11 c) (br c) (bw c) (chunked c) (closeAfterResponse c) (hijacked c) v
    (req c) (requestAvail c) (requestErr c) (respondCalled c) (responseAvail c)
    (responseErr c) (write100Continue c).
Definition set_req (v : option Request) (c : conn) : conn :=
  mkConn (atLeastHttp11 c) (br c) (bw c) (chunked c) (closeAfterResponse c) (hijacked c)
    (netConn c) v (requestAvail c) (requestErr c) (respondCalled c) (responseAvail c)
    (responseErr c) (write100Continue c).
Definition set_requestAvail (v : Z) (c : conn) : conn :=
  mkConn (atLeastHttp11 c) (br c) (bw c) (chunked c) (closeAfterResponse c) (hijacked c)
    (netConn c) (req c) v (requestErr c) (respondCalled c) (responseAvail c)
    (responseErr c) (write100Continue c).
Definition set_requestErr (v : option error) (c : conn) : conn :=
  mkConn (atLeastHttp11 c) (br c) (bw c) (chunked c) (closeAfterResponse c) (hijacked c)
    (netConn c) (req c) (requestAvail c) v (respondCalled c) (responseAvail c)
    (responseErr c) (write100Continue c).
Definition set_respondCalled (v : bool) (c : conn) : conn :=
  mkConn (atLeastHttp11 c) (br c) (bw c) (chunked c) (closeAfterResponse c) (hijacked c)
    (netConn c) (req c) (requestAvail c) (requestErr c) v (responseAvail c)
    (responseErr c) (write100Continue c).
Definition set_responseAvail (v : Z) (c : conn) : conn :=
  mkConn (atLeastHttp11 c) (br c) (bw c) (chunked c) (closeAfterResponse c) (hijacked c)
    (netConn c) (req c) (requestAvail c) (requestErr c) (respondCalled c) v
    (responseErr c) (write100Continue c).
Definition set_responseErr (v : option error) (c : conn) : conn :=
  mkConn (atLeastHttp11 c) (br c) (bw c) (chunked c) (closeAfterResponse c) (hijacked c)
    (netConn c) (req c) (requestAvail c) (requestErr c) (respondCalled c) (responseAvail c)
    v (write100Continue c).
Definition set_write100Continue (v : bool) (c : conn) : conn :=
  mkConn (atLeastHttp11 c) (br c) (bw c) (chunked c) (closeAfterResponse c) (hijacked c)
    (netConn c) (req c) (requestAvail c) (requestErr c) (respondCalled c) (responseAvail c)
    (responseErr c) v.

(** [conn{netConn: netConn, br: br}] *)
Definition newConn : conn :=
  mkConn false true None false false false true None 0 None false 0 None false.

(** *** Steps on the connection

    A method of [conn] runs on the connection and the world and returns a
    value with both, or panics. *)
Definition state : Type := conn * world.
Definition M (A : Type) : Type := state -> result (A * state).

Definition ret {A} (a : A) : M A := fun s => Ok (a, s).
Definition bind {A B} (m : M A) (k : A -> M B) : M B :=
  fun s =>
    match m s with
    | Ok (a, s') => k a s'
    | Err e => Err e
    | Panic msg => Panic msg
    | NoFuel => NoFuel
    end.
Definition getConn : M conn := fun s => Ok (fst s, s).
Definition modify (f : conn -> conn) : M unit := fun s => Ok (tt, (f (fst s), snd s)).
Definition panic {A} (msg : string) : M A := fun _ => Panic msg.

Notation "'do' x <- m ; k" := (bind m (fun x => k))
  (at level 10, x name, m at level 100, k at level 200).
Notation "'do' ( x , y ) <- m ; k" := (bind m (fun '(x, y) => k))
  (at level 10, x name, y name, m at level 100, k at level 200).
Notation "m ;; k" := (bind m (fun _ => k))
  (at level 100, k at level 200, right associativity).

(** [c.netConn.Write(p)] *)
Definition netConnWrite (p : list ascii) : M (nat * option error) :=
  fun s =>
    let '(c, w) := s in
    if netConn c then
      let '(n', r) := netWrite (net w) p in Ok (r, (c, set_net w n'))
    else Panic nilDereference.

(** [io.WriteString(c.netConn, s)] *)
Definition WriteString (s : string) : M (nat * option error) := netConnWrite (bytes s).

(** ** The body writers *)

Definition identityWriter_Write (p : list ascii) : M (nat * option error) :=
  do c <- getConn;
  match responseErr c with
  | Some e => ret (0, Some e)
  | None =>
      do (n, e) <- netConnWrite p;
      modify (set_responseErr e);;
      modify (fun c => set_responseAvail (wrapInt (responseAvail c - Z.of_nat n)) c);;
      ret (n, e)
  end.

Definition chunkedWriter_Write (p : list ascii) : M (nat * option error) :=
  do c <- getConn;
  match responseErr c with
  | Some e => ret (0, Some e)
  | None =>
      if length p =? 0 then ret (0, None) else
      do (n0, e) <- WriteString (Itob16 (length p) +:+ str CRLF);
      modify (set_responseErr e);;
      match e with
      | Some e => ret (0, Some e)
      | None =>
          do (n, e) <- netConnWrite p;
          modify (set_responseErr e);;
          match e with
          | Some e => ret (n, Some e)
          | None =>
              do (n0, e) <- WriteString (str CRLF);
              modify (set_responseErr e);;
              ret (0, e)
          end
      end
  end.

(** *** bufio.Writer *)

Definition writerWrite (k : writerKind) (p : list ascii) : M (nat * option error) :=
  match k with
  | identityKind => identityWriter_Write p
  | chunkedKind => chunkedWriter_Write p
  end.

(** [c.bw.Flush()]: what is buffered goes to the writer underneath in one
    call; a call that takes less than it was given without an error is a
    short write; the first error stays. *)
Definition Flush : M (option error) :=
  do c <- getConn;
  match bw c with
  | None => panic nilDereference
  | Some b =>
      match werr b with
      | Some e => ret (Some e)
      | None =>
          if length (wbuf b) =? 0 then ret None else
          do (m, e) <- writerWrite (wkind b) (wbuf b);
          let e := match e with
                   | None => if m <? length (wbuf b) then Some ErrShortWrite else None
                   | Some e => Some e
                   end in
          match e with
          | Some e =>
              modify (set_bw (Some {| wkind := wkind b; wbuf := drop m (wbuf b);
                                      werr := Some e |}));;
              ret (Some e)
          | None =>
              modify (set_bw (Some {| wkind := wkind b; wbuf := []; werr := None |}));;
              ret None
          end
      end
  end.

(** [c.bw.Write(p)]: [p] is copied into the buffer, which is flushed each
    time it is full and more is to come. *)
Fixpoint bwWriteLoop (fuel : nat) (p : list ascii) (nn : nat) : M (nat * option error) :=
  match fuel with
  | 0 => fun _ => NoFuel
  | S fuel =>
      if length p =? 0 then ret (nn, None) else
      do c <- getConn;
      match bw c with
      | None => panic nilDereference
      | Some b =>
          let avail := defaultBufSize - length (wbuf b) in
          if avail =? 0 then
            do e <- Flush;
            match e with
            | Some e => ret (nn, Some e)
            | None => bwWriteLoop fuel p nn
            end
          else
            let n := min avail (length p) in
            modify (set_bw (Some {| wkind := wkind b; wbuf := wbuf b ++ take n p;
                                    werr := werr b |}));;
            bwWriteLoop fuel (drop n p) (nn + n)
      end
  end.

Definition Write (p : list ascii) : M (nat * option error) :=
  do c <- getConn;
  match bw c with
  | None => panic nilDereference
  | Some b =>
      match werr b with
      | Some e => ret (0, Some e)
      | None => bwWriteLoop (2 * length p + 2) p 0
      end
  end.


(** ** prepare *)

Definition prepare : M (option error) :=
  fun s =>
    let '(c, w) := s in
    let req := NewRequest in
    let c := set_req (Some req) c in
    if negb (br c) then Panic nilDereference else
    match readStatusLine (reader w) req with
    | (b, req, Some err) => Ok (Some err, (set_req (Some req) c, set_reader w b))
    | (b, req, None) =>
        match readHeaders b (Header req) with
        | (b, h, Panic msg) => Panic msg
        | (b, h, NoFuel) => NoFuel
        | (b, h, Err err) =>
            let req := mkRequest (Method req) (URL_ req) (ProtocolMajor req)
                         (ProtocolMinor req) h (ContentLength req) in
            Ok (Some err, (set_req (Some req) c, set_reader w b))
        | (b, h, Ok _) =>
            let w := set_reader w b in
            let req := mkRequest (Method req) (URL_ req) (ProtocolMajor req)
                         (ProtocolMinor req) h (ContentLength req) in
            let withLength (k : Request -> conn -> result (option error * state)) :=
              match Get (Header req) HeaderContentLength with
              | Some s =>
                  let '(n, e) := Atoi s in
                  let req := mkRequest (Method req) (URL_ req) (ProtocolMajor req)
                               (ProtocolMinor req) h n in
                  if e then Ok (Some (ErrorString "bad content length"),
                                (set_req (Some req) c, w))
                  else k req (set_requestAvail n c)
              | None =>
                  k (mkRequest (Method req) (URL_ req) (ProtocolMajor req)
                       (ProtocolMinor req) h (-1)) c
              end in
            withLength (fun req c =>
              let c := match Get (Header req) HeaderExpect with
                       | Some s => set_write100Continue
                                     (bool_decide (ToLower s = "100-continue")) c
                       | None => c
                       end in
              let c := set_atLeastHttp11
                         ((1 <? ProtocolMajor req)%Z
                          || ((ProtocolMajor req =? 1)%Z && (1 <=? ProtocolMinor req)%Z)) c in
              let c := if atLeastHttp11 c then
                         match Get (Header req) HeaderConnection with
                         | Some s => if bool_decide (ToLower s = "close")
                                     then set_closeAfterResponse true c else c
                         | None => c
                         end
                       else set_closeAfterResponse true c in
              Ok (None, (set_req (Some req) c, w)))
        end
    end.

(** ** requestReader.Read *)

(** [c.br.Read(p)] *)
Definition brRead (n : nat) : M (list ascii * option error) :=
  fun s =>
    let '(c, w) := s in
    if br c then
      let '(b, r) := ReaderRead (reader w) n in Ok (r, (c, set_reader w b))
    else Panic nilDereference.

(** [Read(p)] with [len(p) = n]; the bytes read stand for [p[0:n]]. *)
Definition requestReader_Read (n : nat) : M (list ascii * option error) :=
  do c <- getConn;
  match requestErr c with
  | Some e => ret ([], Some e)
  | None =>
      (if write100Continue c then
         modify (set_write100Continue false);;
         do r <- WriteString ("HTTP/1.1 100 Continue" +:+ str CRLF +:+ str CRLF);
         ret tt
       else ret tt);;
      do c <- getConn;
      if (requestAvail c <=? 0)%Z then
        modify (set_requestErr (Some EOF));;
        ret ([], Some EOF)
      else
        let n := if (requestAvail c <? Z.of_nat n)%Z then Z.to_nat (requestAvail c) else n in
        do (q, e) <- brRead n;
        modify (set_requestErr e);;
        modify (fun c => set_requestAvail (wrapInt (requestAvail c - Z.of_nat (length q))) c);;
        ret (q, e)
  end.

(** ** Respond *)

(** The header block: status line, one line per value, blank line.  The
    order in which Go ranges over the map is not fixed; the lines come
    here in the order of [map_to_list]. *)
Definition headerLines (header : StringsMap) : string :=
  foldr (fun kv acc =>
           foldr (fun value acc =>
                    fst kv +:+ ": " +:+ value +:+ str CRLF +:+ acc) acc (snd kv))
        "" (map_to_list header).

Definition headerBlock (proto : string) (status : Z) (header : StringsMap) : string :=
  let statusString := Itoa status in
  let text := match StatusText status with
              | Some text => text
              | None => "status code " +:+ statusString
              end in
  proto +:+ " " +:+ statusString +:+ " " +:+ text +:+ str CRLF
  +:+ headerLines header +:+ str CRLF.

(** [Respond(status, header)]: whether a body was returned (it is [c.bw]
    then), and the header map as the call leaves it. *)
Definition Respond (status : Z) (header : StringsMap) : M (bool * StringsMap) :=
  do c <- getConn;
  if hijacked c then ret (false, header)
  else if respondCalled c then ret (false, header)
  else
    modify (set_respondCalled true);;
    modify (set_chunked true);;
    modify (set_requestErr (Some ErrResponseStarted));;
    modify (fun c => if (0 <? requestAvail c)%Z then set_closeAfterResponse true c else c);;
    let header :=
      if (status =? StatusNotModified)%Z
      then delete HeaderTransferEncoding (delete HeaderContentType header)
      else header in
    modify (fun c => if (status =? StatusNotModified)%Z then set_chunked false c else c);;
    do c <- getConn;
    let header := if closeAfterResponse c then Set_ header HeaderConnection "close"
                  else header in
    modify (fun c => if closeAfterResponse c then set_chunked false c else c);;
    modify (set_responseAvail 0);;
    modify (fun c => match Get header HeaderContentLength with
                     | Some s => set_chunked false (set_responseAvail (fst (Atoi s)) c)
                     | None => c
                     end);;
    modify (fun c => if found header HeaderTransferEncoding then set_chunked false c else c);;
    do c <- getConn;
    let header := if chunked c then Set_ header HeaderTransferEncoding "chunked"
                  else header in
    let proto := if atLeastHttp11 c then "HTTP/1.1" else "HTTP/1.0" in
    let b := bytes (headerBlock proto status header) in
    (if chunked c then
       modify (set_bw (Some (NewWriter chunkedKind)));;
       do (n, e) <- netConnWrite b;
       modify (set_responseErr e)
     else
       modify (set_bw (Some (NewWriter identityKind)));;
       do r <- Write b;
       ret tt);;
    ret (true, header).

(** [req.Respond(status, kvs...)] of package [web]. *)
Definition Request_Respond (status : Z) (kvs : list string) : M (bool * StringsMap) :=
  Respond status (NewStringsMap kvs).

(** ** Hijack *)

(** [Hijack] returns its zero results; it assigns nothing. *)
Definition Hijack : M (option Net * option (list ascii) * option error) :=
  ret (None, None, None).

(** ** finish *)

Definition finish : M (option error) :=
  do c <- getConn;
  (if negb (respondCalled c) then
     do r <- Request_Respond StatusOK [HeaderContentType; "text/html charset=utf-8"];
     ret tt
   else ret tt);;
  modify (fun c => if negb (responseAvail c =? 0)%Z then set_closeAfterResponse true c else c);;
  do e <- Flush;
  do c <- getConn;
  (if chunked c then
     do (n, e) <- WriteString ("0" +:+ str CRLF +:+ str CRLF);
     modify (set_responseErr e)
   else ret tt);;
  modify (fun c => match responseErr c with
                   | None => set_responseErr (Some ErrResponseBodyClosed) c
                   | Some _ => c
                   end);;
  modify (set_netConn false);;
  modify (set_br false);;
  modify (set_bw None);;
  ret None.

(** ** The application *)

(** What a handler does with the request it is given, as far as the
    connection sees it: the calls it makes, in order.  A handler that
    decides its next call from the results of the earlier ones still makes
    one sequence of calls in each run. *)
Inductive op : Type :=
| OpRead (n : nat)
| OpRespond (status : Z) (header : StringsMap)
| OpWrite (p : list ascii)
| OpFlush
| OpHijack.

Definition runOp (o : op) : M unit :=
  match o with
  | OpRead n => do r <- requestReader_Read n; ret tt
  | OpRespond status header => do r <- Respond status header; ret tt
  | OpWrite p => do r <- Write p; ret tt
  | OpFlush => do r <- Flush; ret tt
  | OpHijack => do r <- Hijack; ret tt
  end.

Fixpoint runOps (ops : list op) : M unit :=
  match ops with
  | [] => ret tt
  | o :: ops => runOp o;; runOps ops
  end.

Definition Handler : Type := Request -> list op.

(** [handler.ServeWeb(c.req)] *)
Definition ServeWeb (handler : Handler) : M unit :=
  do c <- getConn;
  match req c with
  | Some r => runOps (handler r)
  | None => panic nilDereference
  end.

(** ** serveConnection *)

(** How the worker ended: it closed the connection, or it returned
    without closing it. *)
Inductive served : Type :=
| Closed (w : world)
| Returned (w : world).

Definition closeWorld (w : world) : world := set_net w (netClose (net w)).

Fixpoint serveLoop (fuel : nat) (handler : Handler) (w : world) : result served :=
  match fuel with
  | 0 => NoFuel
  | S fuel =>
      match prepare (newConn, w) with
      | Ok (Some err, (c, w)) => Ok (Closed (closeWorld w))
      | Ok (None, s) =>
          match ServeWeb handler s with
          | Ok (_, (c, w)) =>
              if hijacked c then Ok (Returned w) else
              match finish (c, w) with
              | Ok (Some err, (c, w)) => Ok (Closed (closeWorld w))
              | Ok (None, (c, w)) =>
                  if closeAfterResponse c then Ok (Closed (closeWorld w))
                  else serveLoop fuel handler w
              | Err e => Err e
              | Panic msg => Panic msg
              | NoFuel => NoFuel
              end
          | Err e => Err e
          | Panic msg => Panic msg
          | NoFuel => NoFuel
          end
      | Err e => Err e
      | Panic msg => Panic msg
      | NoFuel => NoFuel
      end
  end.

(** Each turn of the loop reads at least the request line, so the turns
    are fewer than the bytes of the input. *)
Definition serveConnection (n : Net) (input : list ascii) (handler : Handler) : result served :=
  serveLoop (S (length input)) handler {| net := n; reader := NewReader input |}.

End Server.

(** * The router *)

Module Func.
(** The functions that are wrapped in [HandlerFunc]: [addSlash] of the
    router, or a function of the application. *)
Inductive t : Type :=
| addSlash
| app (name : string).
End Func.

(** A value of the interface [Handler]. *)
Inductive WebHandler : Type :=
| AppHandler (name : string)
| HandlerFunc (f : Func.t)
| routerError (status : Z).

Global Instance Func_eq_dec : EqDecision Func.t.
Proof. solve_decision. Defined.
Global Instance WebHandler_eq_dec : EqDecision WebHandler.
Proof. solve_decision. Defined.

Record route : Type := mkRoute {
  addSlash : bool;
  regexp : string -> list string;
  names : list string;
  handlers : gmap string WebHandler
}.

Record Router : Type := mkRouter {
  routes : list route
}.

Definition NewRouter : Router := {| routes := [] |}.

(** An argument of [Register] after the pattern: a value of type
    [interface{}]. *)
Inductive arg : Type :=
| ArgString (s : string)
| ArgHandler (name : string)
| ArgFunc (name : string)
| ArgOther.

Section Routing.
Context {X : Externals}.

(** ** compilePattern *)

(** The indexes [FindStringSubmatchIndex] returns: [a[0]], [a[1]] for the
    match, [a[2]], [a[3]] for the name; [a[4]], [a[5]] for the second
    group, which are -1 when it took no part. *)
Record submatchIndex : Type := mkIndex {
  a0 : nat; a1 : nat; a2 : nat; a3 : nat;
  a45 : option (nat * nat)
}.

(** A match of [parameterRegexp] at the head of [l]: a [<], a name of
    letters, digits and underscores that may be empty, then maybe a colon
    with bytes other than [>], and a [>].  The result is the length of the
    name and, when the second group takes part, its length (with the
    colon).  The name stops at the first byte outside its
    class, the second group at the first [>]; nothing is left to
    choose. *)
Definition matchParameterHere (l : list ascii) : option (nat * option nat) :=
  match l with
  | "<"%char :: l1 =>
      let n := skipBytes l1 isMethodByte in
      match drop n l1 with
      | ">"%char :: _ => Some (n, None)
      | ":"%char :: l2 =>
          let m := skipBytes l2 (notByte ">") in
          match drop m l2 with
          | ">"%char :: _ => Some (n, Some (S m))
          | _ => None
          end
      | _ => None
      end
  | _ => None
  end.

(** [parameterRegexp.FindStringSubmatchIndex(pattern)]: the leftmost
    match, [off] bytes having been passed. *)
Fixpoint findParameter (off : nat) (l : list ascii) : option submatchIndex :=
  match l with
  | [] => None
  | _ :: l' =>
      match matchParameterHere l with
      | Some (n, None) =>
          Some {| a0 := off; a1 := off + n + 2; a2 := off + 1; a3 := off + 1 + n;
                  a45 := None |}
      | Some (n, Some m) =>
          Some {| a0 := off; a1 := off + n + m + 2; a2 := off + 1; a3 := off + 1 + n;
                  a45 := Some (off + 1 + n, off + 1 + n + m) |}
      | None => findParameter (S off) l'
      end
  end.

(** [pattern[i:j]] *)
Definition slice (i j : nat) (l : list ascii) : list ascii := take (j - i) (drop i l).

(** The variables of the loop of [compilePattern]. *)
Record cstate : Type := mkCstate {
  buf : string;
  cnames : list string;
  ci : nat
}.

Fixpoint compileLoop (fuel : nat) (sep : string) (pattern : list ascii) (s : cstate)
  : result cstate :=
  match fuel with
  | 0 => NoFuel
  | S fuel =>
      match findParameter 0 pattern with
      | None =>
          Ok {| buf := buf s +:+ QuoteMeta (str pattern); cnames := cnames s; ci := ci s |}
      | Some a =>
          let buf := buf s +:+ QuoteMeta (str (slice 0 (a0 a) pattern)) in
          let name := str (slice (a2 a) (a3 a) pattern) in
          let named := negb (bool_decide (name = "")) in
          if named && (length (cnames s) <=? ci s) then Panic indexOutOfRange else
          let names := if named then <[ci s := name]> (cnames s) else cnames s in
          let i := if named then ci s + 1 else ci s in
          let buf := if named then buf +:+ "(" else buf in
          let buf := match a45 a with
                     | Some (a4, a5) => buf +:+ str (slice (a4 + 1) a5 pattern)
                     | None => buf +:+ "[^" +:+ sep +:+ "]+"
                     end in
          let buf := if named then buf +:+ ")" else buf in
          compileLoop fuel sep (drop (a1 a) pattern) {| buf := buf; cnames := names; ci := i |}
      end
  end.

(** The source of the expression and the names, before [MustCompile]. *)
Definition compileSource (pattern : string) (addSlash : bool) (sep : string)
  : result (string * list string) :=
  match compileLoop (S (String.length pattern)) sep (bytes pattern)
          {| buf := "^"; cnames := replicate 8 ""; ci := 0 |} with
  | Ok s =>
      let buf := if addSlash then buf s +:+ "?" else buf s in
      Ok (buf +:+ "$", take (ci s) (cnames s))
  | Err e => Err e
  | Panic msg => Panic msg
  | NoFuel => NoFuel
  end.

Definition compilePattern (pattern : string) (addSlash : bool) (sep : string)
  : result ((string -> list string) * list string) :=
  match compileSource pattern addSlash sep with
  | Ok (source, names) =>
      match MustCompile source with
      | Some re => Ok (re, names)
      | None => Panic ("regexp: " +:+ source)
      end
  | Err e => Err e
  | Panic msg => Panic msg
  | NoFuel => NoFuel
  end.

(** ** Register *)

Fixpoint registerHandlers (pattern : string) (handlers : list arg)
  (m : gmap string WebHandler) : result (gmap string WebHandler) :=
  match handlers with
  | ArgString method :: h :: rest =>
      match h with
      | ArgHandler name => registerHandlers pattern rest (<[method := AppHandler name]> m)
      | ArgFunc name =>
          registerHandlers pattern rest (<[method := HandlerFunc (Func.app name)]> m)
      | _ => Panic ("twister: Bad handler for pattern " +:+ pattern +:+ " and method "
                    +:+ method)
      end
  | [] => Ok m
  | _ => Panic ("twister: Bad method for pattern " +:+ pattern)
  end.

Definition Register (router : Router) (pattern : string) (handlers : list arg)
  : result Router :=
  match bytes pattern with
  | "/"%char :: _ =>
      if negb (length handlers mod 2 =? 0) || (length handlers =? 0) then
        Panic ("twister: Invalid handlers for pattern " +:+ pattern +:+
               ". Structure of handlers is [method handler]+.")
      else
        let addSlash := bool_decide (last (bytes pattern) = Some "/"%char) in
        match compilePattern pattern addSlash "/" with
        | Ok (re, names) =>
            match registerHandlers pattern handlers ∅ with
            | Ok m =>
                Ok {| routes := routes router ++
                                [{| addSlash := addSlash; regexp := re; names := names;
                                    handlers := m |}] |}
            | Err e => Err e
            | Panic msg => Panic msg
            | NoFuel => NoFuel
            end
        | Err e => Err e
        | Panic msg => Panic msg
        | NoFuel => NoFuel
        end
  | _ => Panic ("twister: Invalid route pattern " +:+ pattern)
  end.

(** [HostRouter.Register] as far as the pattern goes. *)
Definition HostRouter_compile (hostPattern : string)
  : result ((string -> list string) * list string) :=
  compilePattern hostPattern false ".".

(** ** find *)

(** The loop over the submatches: each is unescaped in place; the first
    that cannot be ends the search. *)
Fixpoint unescapeValues (values : list string) : option (list string) :=
  match values with
  | [] => Some []
  | v :: values =>
      match URLUnescape v with
      | None => None
      | Some v' =>
          match unescapeValues values with
          | Some values' => Some (v' :: values')
          | None => None
          end
      end
  end.

Fixpoint find (routes : list route) (path method : string)
  : result (WebHandler * list string * list string) :=
  match routes with
  | [] => Ok (routerError StatusNotFound, [], [])
  | r :: routes =>
      let values := regexp r path in
      if length values =? 0 then find routes path method else
      let lacksSlash : result bool :=
        if addSlash r then
          match last (bytes path) with
          | None => Panic indexOutOfRange
          | Some c => Ok (negb (Ascii.eqb c "/"))
          end
        else Ok false in
      match lacksSlash with
      | Ok true => Ok (HandlerFunc Func.addSlash, [], [])
      | Ok false =>
          match unescapeValues (drop 1 values) with
          | None => Ok (routerError StatusNotFound, [], [])
          | Some values =>
              match handlers r !! method with
              | Some handler => Ok (handler, names r, values)
              | None =>
                  match (if bool_decide (method = "HEAD") then handlers r !! "GET"
                         else None) with
                  | Some handler => Ok (handler, names r, values)
                  | None =>
                      match handlers r !! "*" with
                      | Some handler => Ok (handler, names r, values)
                      | None => Ok (routerError StatusMethodNotAllowed, [], [])
                      end
                  end
              end
          end
      | Err e => Err e
      | Panic msg => Panic msg
      | NoFuel => NoFuel
      end
  end.

(** ** ServeWeb *)

(** [req.Redirect(url, perm)] of package [web]: the status and the header
    [Respond] is called with.  [ParseURL] returns no URL with an error,
    and the test of the relative path reads [u.Scheme] exactly then. *)
Definition Redirect (url : string) (perm : bool) (kvs : list string)
  : result (Z * StringsMap) :=
  let status := if perm then StatusMovedPermanently else StatusFound in
  match ParseURL url with
  | None => Panic nilDereference
  | Some u => Ok (status, Set_ (NewStringsMap kvs) HeaderLocation url)
  end.

(** The target [addSlash] redirects to. *)
Definition addSlashTarget (u : URL) : string :=
  let path := Path u +:+ "/" in
  if 0 <? String.length (RawQuery u) then path +:+ "?" +:+ RawQuery u else path.

(** What serving a request comes to: a handler of the application is
    called with the parameters of the route, or [req.Error] with a
    status, or [Respond] with a status and a header. *)
Inductive served_by : Type :=
| CallHandler (h : WebHandler) (URLParam : gmap string string)
| CallError (status : Z)
| CallRespond (status : Z) (header : StringsMap).

(** [req.URLParam[names[i]] = values[i]] for each name. *)
Fixpoint setParams (names values : list string) (m : gmap string string)
  : result (gmap string string) :=
  match names, values with
  | [], _ => Ok m
  | n :: names, v :: values => setParams names values (<[n := v]> m)
  | _ :: _, [] => Panic indexOutOfRange
  end.

Definition handler_ServeWeb (h : WebHandler) (u : URL) (params : gmap string string)
  : result served_by :=
  match h with
  | HandlerFunc Func.addSlash =>
      match Redirect (addSlashTarget u) true [] with
      | Ok (status, header) => Ok (CallRespond status header)
      | Err e => Err e
      | Panic msg => Panic msg
      | NoFuel => NoFuel
      end
  | routerError status => Ok (CallError status)
  | h => Ok (CallHandler h params)
  end.


End Routing.

(** * The host router *)

Record hostRoute : Type := mkHostRoute {
  hregexp : string -> list string;
  hnames : list string;
  hhandler : WebHandler
}.

Record HostRouter : Type := mkHostRouter {
  defaultHandler : WebHandler;
  hroutes : list hostRoute
}.

(** Modelled from the spec: [web.NotFoundHandler] is not among the
    sources.  It is the handler that responds 404 Not Found. *)
Definition NotFoundHandler : WebHandler := routerError StatusNotFound.

(** [NewHostRouter(defaultHandler)], [None] standing for [nil]. *)
Definition NewHostRouter (defaultHandler : option WebHandler) : HostRouter :=
  {| defaultHandler := match defaultHandler with
                       | Some h => h
                       | None => NotFoundHandler
                       end;
     hroutes := [] |}.

Section HostRouting.
Context {X : Externals}.

Definition HostRouter_Register (router : HostRouter) (hostPattern : string)
  (handler : WebHandler) : result HostRouter :=
  match HostRouter_compile hostPattern with
  | Ok (regex, names) =>
      Ok {| defaultHandler := defaultHandler router;
            hroutes := hroutes router
                       ++ [{| hregexp := regex; hnames := names; hhandler := handler |}] |}
  | Err e => Err e
  | Panic msg => Panic msg
  | NoFuel => NoFuel
  end.

(** The loop of [HostRouter.find] over the routes. *)
Fixpoint hostFind (routes : list hostRoute) (dflt : WebHandler) (host : string)
  : WebHandler * list string * list string :=
  match routes with
  | [] => (dflt, [], [])
  | r :: routes =>
      let values := hregexp r host in
      if length values =? 0 then hostFind routes dflt host
      else (hhandler r, hnames r, drop 1 values)
  end.

Definition HostRouter_find (router : HostRouter) (host : string)
  : WebHandler * list string * list string :=
  hostFind (hroutes router) (defaultHandler router) host.

Definition HostRouter_ServeWeb (router : HostRouter) (u : URL)
  (URLParam : gmap string string) : result served_by :=
  let host := ToLower (Host u) in
  let '(handler, names, values) := HostRouter_find router host in
  match setParams names values URLParam with
  | Ok params => handler_ServeWeb handler u params
  | Err e => Err e
  | Panic msg => Panic msg
  | NoFuel => NoFuel
  end.

End HostRouting.

(** * The error response of package [web] *)

Section ErrorResponse.
Context {X : Externals}.

(** [web.StatusText(status)] as [web.go] calls it, a function from the
    status to its reason phrase; it is not among the sources. *)
Variable StatusTextOf : Z -> string.

(** [defaultErrorHandler(req, status, reason, header)]: the content type
    is set, the response committed and the reason phrase written to the
    body [Respond] returned; a body that is [nil] is dereferenced.  The
    line the handler logs does not touch the connection. *)
Definition defaultErrorHandler (status : Z) (header : StringsMap) : M unit :=
  bind (Respond status (Set_ header HeaderContentType "text/plain; charset=utf-8"))
    (fun '(body, header') =>
       if (body : bool)
       then bind (Write (bytes (StatusTextOf status))) (fun _ => ret tt)
       else panic nilDereference).

(** [req.Error(status, reason, kvs...)] with the error handler
    [NewRequest] installs. *)
Definition Request_Error (status : Z) (kvs : list string) : M unit :=
  defaultErrorHandler status (NewStringsMap kvs).

(** [routerError(status).ServeWeb(req)] *)
Definition routerError_ServeWeb (status : Z) : M unit := Request_Error status [].

End ErrorResponse.

(** * An instance of the externals

    Used to run the code on concrete inputs. *)

Module Std.

(** Modelled from the spec: [web.IsSpaceByte] is not among the sources.
    Whitespace is space, tab, carriage return and line feed: the
    request line is trimmed of its terminator by [trimWSRight]. *)
Definition IsSpaceByte (c : ascii) : bool :=
  Ascii.eqb c SP || Ascii.eqb c HT || Ascii.eqb c CR || Ascii.eqb c LF.

Definition isSeparator (c : ascii) : bool :=
  bool_decide (c ∈ [SP; HT; "034"; "("; ")"; ","; "/"; ":"; ";"; "<"; "="; ">"; "?";
                    "@"; "["; "]"; "\"; "{"; "}"]%char).

(** Modelled from the spec: [web.IsTokenByte] is not among the sources.
    The characters valid per HTTP token syntax: US-ASCII, no control
    character, no separator. *)
Definition IsTokenByte (c : ascii) : bool :=
  let n := nat_of_ascii c in
  (32 <=? n) && (n <? 127) && negb (isSeparator c).

Definition lowerByte (c : ascii) : ascii :=
  let n := nat_of_ascii c in
  if (65 <=? n) && (n <=? 90) then ascii_of_nat (n + 32) else c.

Definition upperByte (c : ascii) : ascii :=
  let n := nat_of_ascii c in
  if (97 <=? n) && (n <=? 122) then ascii_of_nat (n - 32) else c.

Fixpoint canonical (upper : bool) (p : list ascii) : list ascii :=
  match p with
  | [] => []
  | c :: p' =>
      (if upper then upperByte c else lowerByte c) :: canonical (Ascii.eqb c "-") p'
  end.

(** Modelled from the spec: [web.HeaderNameBytes] is not among the
    sources.  The canonical name: the first letter and each letter after
    a hyphen in upper case, the others in lower case. *)
Definition HeaderNameBytes (p : list ascii) : string := str (canonical true p).

(** Modelled from the spec: [web.StatusText] is not among the sources.
    The reason phrases of the statuses this development meets. *)
Definition StatusText (status : Z) : option string :=
  if (status =? 100)%Z then Some "Continue"
  else if (status =? 200)%Z then Some "OK"
  else if (status =? 301)%Z then Some "Moved Permanently"
  else if (status =? 302)%Z then Some "Found"
  else if (status =? 304)%Z then Some "Not Modified"
  else if (status =? 400)%Z then Some "Bad Request"
  else if (status =? 404)%Z then Some "Not Found"
  else if (status =? 405)%Z then Some "Method Not Allowed"
  else if (status =? 500)%Z then Some "Internal Server Error"
  else None.

(** [strings.ToLower] and [bytes.ToUpper] on US-ASCII. *)
Definition ToLower (s : string) : string := str (map lowerByte (bytes s)).
Definition ToUpper (p : list ascii) : list ascii := map upperByte p.

Definition hexValue (c : ascii) : option nat :=
  let n := nat_of_ascii c in
  if (48 <=? n) && (n <=? 57) then Some (n - 48)
  else if (97 <=? n) && (n <=? 102) then Some (n - 87)
  else if (65 <=? n) && (n <=? 70) then Some (n - 55)
  else None.

(** [http.URLUnescape]: [%XX] is the byte XX, [+] a space; a [%] that
    two hexadecimal digits do not follow is an error. *)
Fixpoint unescape (fuel : nat) (l : list ascii) : option (list ascii) :=
  match fuel with
  | 0 => Some []
  | S fuel =>
      match l with
      | [] => Some []
      | "%"%char :: h :: k :: l' =>
          match hexValue h, hexValue k with
          | Some x, Some y => cons (ascii_of_nat (16 * x + y)) <$> unescape fuel l'
          | _, _ => None
          end
      | "%"%char :: _ => None
      | "+"%char :: l' => cons SP <$> unescape fuel l'
      | c :: l' => cons c <$> unescape fuel l'
      end
  end.
Definition URLUnescape (s : string) : option string :=
  str <$> unescape (String.length s) (bytes s).

(** [http.ParseURL] for a request target that is a path with maybe a
    query: the path is unescaped, the query kept raw. *)
Definition ParseURL (rawurl : string) : option URL :=
  match bytes rawurl with
  | [] => None
  | l =>
      let i := skipBytes l (notByte "?") in
      match URLUnescape (str (take i l)) with
      | Some path =>
          Some {| Scheme := ""; Host := ""; Path := path; RawQuery := str (drop (S i) l) |}
      | None => None
      end
  end.

(** [regexp.QuoteMeta]: a backslash before each byte that is special
    in an expression. *)
Definition isMeta (c : ascii) : bool :=
  bool_decide (c ∈ ["\"; "."; "+"; "*"; "?"; "("; ")"; "|"; "["; "]"; "{"; "}"; "^";
                    "$"]%char).
Definition QuoteMeta (s : string) : string :=
  str (flat_map (fun c => if isMeta c then ["\"%char; c] else [c]) (bytes s)).

(** No expression is compiled in the examples: those of the pattern
    compiler look at the source of the expression, those of the router
    give each route its matcher. *)
Definition MustCompile (source : string) : option (string -> list string) := None.

Definition externals : Externals :=
  Build_Externals IsSpaceByte IsTokenByte HeaderNameBytes StatusText ToLower ToUpper
    ParseURL URLUnescape QuoteMeta MustCompile.

(** The expression [^lit/?$] for a literal [lit]: what [compilePattern]
    makes of the pattern [lit/]. *)
Definition literalSlash (lit : string) (path : string) : list string :=
  if bool_decide (path = lit) || bool_decide (path = lit +:+ "/") then [path] else [].

(** The expression [^lit$] for a literal [lit]. *)
Definition literal (lit : string) (path : string) : list string :=
  if bool_decide (path = lit) then [path] else [].

(** The expression [^prefix([^/]+)$]: what [compilePattern] makes of
    the pattern [prefix<name>]. *)
Definition oneSegment (prefix : string) (path : string) : list string :=
  let p := bytes path in
  let n := String.length prefix in
  if bool_decide (take n p = bytes prefix)
     && (0 <? length (drop n p))
     && (skipBytes (drop n p) (notByte "/") =? length (drop n p))
  then [path; str (drop n p)] else [].

End Std.

(** * Specification-side definitions *)


Section SpecSide.
Context {X : Externals}.


End SpecSide.

(** One chunk on the wire: the length in hexadecimal, CRLF, the bytes,
    CRLF. *)
Definition chunkFrame (p : list ascii) : list ascii :=
  bytes (Itob16 (length p)) ++ CRLF ++ p ++ CRLF.

(** The network takes [n] more bytes without an error. *)
Definition accepts (net : Net) (n : nat) : Prop :=
  closed net = false /\ forall k, budget net = Some k -> n <= k.

(** The connection without what the body writers work on. *)
Definition frameResponse (c : conn) : conn :=
  set_bw None (set_responseAvail 0 (set_responseErr None c)).
(** What a call of a body writer leaves as it was, and that it returns. *)
Definition writes {A} (m : M A) (c : conn) (w : world) (P : A -> conn -> world -> Prop) : Prop :=
  exists a c' w',
    m (c, w) = Ok (a, (c', w'))
    /\ frameResponse c' = frameResponse c
    /\ reader w' = reader w
    /\ P a c' w'.

(** What an accepted [Respond] decides, as functions of the status, the
    header and the connection it is called on; [Respond_accepted] shows
    that [Respond] computes them. *)
Definition closeDecided (c : conn) : bool :=
  closeAfterResponse c || (0 <? requestAvail c)%Z.

Definition headerChecked (status : Z) (header : StringsMap) (c : conn) : StringsMap :=
  let header := if (status =? StatusNotModified)%Z
                then delete HeaderTransferEncoding (delete HeaderContentType header)
                else header in
  if closeDecided c then Set_ header HeaderConnection "close" else header.

Definition chunkedDecided (status : Z) (header : StringsMap) (c : conn) : bool :=
  negb (status =? StatusNotModified)%Z
  && negb (closeDecided c)
  && match Get (headerChecked status header c) HeaderContentLength with
     | Some _ => false
     | None => true
     end
  && negb (found (headerChecked status header c) HeaderTransferEncoding).

Definition headerCommitted (status : Z) (header : StringsMap) (c : conn) : StringsMap :=
  if chunkedDecided status header c
  then Set_ (headerChecked status header c) HeaderTransferEncoding "chunked"
  else headerChecked status header c.

Definition responseAvailDecided (status : Z) (header : StringsMap) (c : conn) : Z :=
  match Get (headerChecked status header c) HeaderContentLength with
  | Some s => fst (Atoi s)
  | None => 0%Z
  end.

(** The connection when the header block is about to be written. *)
Definition committed (status : Z) (header : StringsMap) (c : conn) : conn :=
  mkConn (atLeastHttp11 c) (br c)
    (Some (NewWriter (if chunkedDecided status header c then chunkedKind else identityKind)))
    (chunkedDecided status header c) (closeDecided c) (hijacked c) (netConn c) (req c)
    (requestAvail c) (Some ErrResponseStarted) true (responseAvailDecided status header c)
    (responseErr c) (write100Continue c).

(** The interim response. *)
Definition continuePreface : list ascii :=
  bytes "HTTP/1.1 100 Continue" ++ CRLF ++ CRLF.

(** The connection without what reading the request body works on. *)
Definition frameRequest (c : conn) : conn :=
  set_requestAvail 0 (set_requestErr None (set_write100Continue false c)).

(** The interim response is owed and the next read will send it. *)
Definition owesContinue (c : conn) : bool :=
  write100Continue c && match requestErr c with None => true | Some _ => false end.

(** The connection is in use: its reader and its network connection are
    set, the buffer of its writer holds no more than its size, and it has
    a writer once [Respond] has been accepted. *)
Definition attached (c : conn) : Prop :=
  netConn c = true /\ br c = true
  /\ match bw c with
     | Some b => length (wbuf b) <= defaultBufSize
     | None => respondCalled c = false
     end.

(** What no call of the application changes. *)
Definition kept (c c' : conn) : Prop :=
  hijacked c' = hijacked c
  /\ req c' = req c
  /\ atLeastHttp11 c' = atLeastHttp11 c
  /\ (write100Continue c = false -> write100Continue c' = false)
  /\ (closeAfterResponse c = true -> closeAfterResponse c' = true)
  /\ (respondCalled c = true -> respondCalled c' = true)
  /\ (is_Some (requestErr c) -> is_Some (requestErr c')).

(** A connection on which nothing has been written, that never fails. *)
Definition freshNet : Net := {| sent := []; budget := None; closed := false |}.

(** A request that declares [Expect: 100-continue] and a body of five
    bytes. *)
Definition expectRequest : list ascii :=
  bytes "POST /upload HTTP/1.1" ++ CRLF
  ++ bytes "Expect: 100-continue" ++ CRLF
  ++ bytes "Content-Length: 5" ++ CRLF ++ CRLF
  ++ bytes "hello".

(** The connection and the world after [prepare] and the calls [ops] of
    the handler, when both return. *)
Definition afterCalls {X : Externals} (input : list ascii) (ops : list op)
  : option (conn * world) :=
  match prepare (newConn, {| net := freshNet; reader := NewReader input |}) with
  | Ok (None, s) =>
      match runOps ops s with
      | Ok (_, s') => Some s'
      | _ => None
      end
  | _ => None
  end.

(** A request without a body that asks for nothing about the
    connection. *)
Definition getRequest : list ascii := bytes "GET / HTTP/1.1" ++ CRLF ++ CRLF.

(** The connection and the world after one turn of the loop: [prepare],
    the calls [ops] of the handler and [finish], when all return. *)
Definition afterCycle {X : Externals} (input : list ascii) (ops : list op)
  : option (conn * world) :=
  match afterCalls input ops with
  | Some s =>
      match finish s with
      | Ok (None, s') => Some s'
      | _ => None
      end
  | None => None
  end.




(** None of the routes matches the path. *)
Definition noneMatches (routes : list route) (path : string) : Prop :=
  Forall (fun r => regexp r path = []) routes.

(** The names of the named placeholders of a pattern, in order: the
    successive leftmost matches of [parameterRegexp] whose name is not
    empty, each search starting where the match before ended. *)
Fixpoint namedPlaceholdersFrom (fuel : nat) (pattern : list ascii) : list string :=
  match fuel with
  | 0 => []
  | S fuel =>
      match findParameter 0 pattern with
      | None => []
      | Some a =>
          let name := str (slice (a2 a) (a3 a) pattern) in
          (if bool_decide (name = "") then [] else [name])
          ++ namedPlaceholdersFrom fuel (drop (a1 a) pattern)
      end
  end.

Definition namedPlaceholders (pattern : string) : list string :=
  namedPlaceholdersFrom (S (String.length pattern)) (bytes pattern).

(** The pattern [/<a>/<b>/...] with one placeholder for each name. *)
Definition patternOf (names : list string) : string :=
  foldr (fun name acc => "/<" +:+ name +:+ ">" +:+ acc) "" names.

(** A name of a placeholder: letters, digits and underscores, at least
    one. *)
Definition validName (name : string) : Prop :=
  name <> "" /\ Forall (fun c => isMethodByte c = true) (bytes name).


(** A header line as the loop of [readHeaders] takes it apart: the key,
    whitespace, the colon, whitespace, the value, whitespace. *)
Definition fieldLine (key ws1 ws2 value ws3 : list ascii) : list ascii :=
  key ++ ws1 ++ ":"%char :: ws2 ++ value ++ ws3.



(** The network never fails: it is open and takes any number of bytes. *)
Definition reliable (n : Net) : Prop := budget n = None /\ closed n = false.

(** The world after [p] has gone out on a reliable network. *)
Definition put (w : world) (p : list ascii) : world :=
  set_net w {| sent := sent (net w) ++ p; budget := None; closed := false |}.

(** The response body is open on a reliable network: no error is latched,
    and the buffered writer of kind [k] holds [buf]. *)
Definition flows (k : writerKind) (buf : list ascii) (c : conn) (w : world) : Prop :=
  netConn c = true /\ responseErr c = None /\ reliable (net w)
  /\ bw c = Some {| wkind := k; wbuf := buf; werr := None |}
  /\ length buf <= defaultBufSize.

(** The calls a handler makes on the response body, and the bytes it
    writes with them. *)
Definition bodyOp (o : op) : Prop :=
  match o with
  | OpWrite _ | OpFlush => True
  | _ => False
  end.

Definition payload (ops : list op) : list ascii :=
  flat_map (fun o => match o with OpWrite p => p | _ => [] end) ops.

(** The end of a chunked body. *)
Definition lastChunk : list ascii := bytes "0" ++ CRLF ++ CRLF.

(** The protocol of the status line. *)
Definition protoOf (c : conn) : string :=
  if atLeastHttp11 c then "HTTP/1.1" else "HTTP/1.0".

(** A connection on which a request of HTTP/1.1 has been read, and a
    world in which nothing has been sent and nothing is left to read. *)
Definition openConn : conn := set_atLeastHttp11 true newConn.
Definition quietWorld : world := {| net := freshNet; reader := NewReader [] |}.

(** A placeholder of a pattern: [<name>], [<name:expr>], [<>] or
    [<:expr>]. *)
Definition placeholder (name : list ascii) (expr : option (list ascii)) : list ascii :=
  "<"%char :: name
  ++ match expr with
     | Some re => ":"%char :: re
     | None => []
     end
  ++ [">"%char].

(** An expression engine for the sources of literal patterns, [^lit$] and
    [^lit/?$] where [lit] holds no byte that is special in an expression;
    no other source compiles in it.  It stands for the library where an
    expression has to be compiled to run the code. *)
Definition compileLiteral (source : string) : option (string -> list string) :=
  match bytes source with
  | "^"%char :: l =>
      match rev l with
      | "$"%char :: "?"%char :: "/"%char :: tl =>
          if forallb (fun c => negb (Std.isMeta c)) (rev tl)
          then Some (Std.literalSlash (str (rev tl))) else None
      | "$"%char :: tl =>
          if forallb (fun c => negb (Std.isMeta c)) (rev tl)
          then Some (Std.literal (str (rev tl))) else None
      | _ => None
      end
  | _ => None
  end.

Definition literalExternals : Externals :=
  Build_Externals Std.IsSpaceByte Std.IsTokenByte Std.HeaderNameBytes Std.StatusText
    Std.ToLower Std.ToUpper Std.ParseURL Std.URLUnescape Std.QuoteMeta compileLiteral.

(** A router with the route of the pattern [/files/], and the same with
    a route of the pattern [/about] registered after it. *)
Definition filesRoute : route :=
  {| addSlash := true; regexp := Std.literalSlash "/files"; names := [];
     handlers := {["GET" := AppHandler "files"]} |}.
Definition aboutRoute : route :=
  {| addSlash := false; regexp := Std.literal "/about"; names := [];
     handlers := {["GET" := HandlerFunc (Func.app "about")]} |}.

(** None of the host routes matches the host. *)
Definition noHostMatches (routes : list hostRoute) (host : string) : Prop :=
  Forall (fun r => hregexp r host = []) routes.

(** * Properties *)

Section HeaderFacts.
Context {X : Externals}.

Lemma splitAt_line (line rest : list ascii) :
  LF ∉ line -> splitAt LF (line ++ LF :: rest) = Some (line ++ [LF], rest).
Proof.
  induction line as [|c line IH]; intros Hnot; simpl.
  - reflexivity.
  - apply not_elem_of_cons in Hnot as [Hc Hline].
    destruct (Ascii.eqb c LF) eqn:E.
    + apply Ascii.eqb_eq in E. congruence.
    + rewrite (IH Hline). reflexivity.
Qed.

Lemma ReadSlice_line (b : Reader) (line rest : list ascii) :
  rdata b = line ++ LF :: rest -> LF ∉ line ->
  ReadSlice b LF =
    if length (line ++ [LF]) <=? rsize b
    then ({| rsize := rsize b; rdata := rest |}, Ok (line ++ [LF]))
    else ({| rsize := rsize b; rdata := drop (rsize b) (rdata b) |}, Err ErrBufferFull).
Proof.
  intros Hdata Hnot. unfold ReadSlice. rewrite Hdata at 1.
  rewrite (splitAt_line _ _ Hnot). reflexivity.
Qed.

End HeaderFacts.

Section ContinuationFacts.
Context {X : Externals}.

End ContinuationFacts.




Section ReaderFacts.
Context {X : Externals}.

Lemma splitAt_length (d : ascii) (l line rest : list ascii) :
  splitAt d l = Some (line, rest) ->
  length l = length line + length rest /\ 0 < length line.
Proof.
  revert line rest. induction l as [|c l IH]; intros line rest; simpl; [discriminate|].
  destruct (Ascii.eqb c d).
  - intros [= <- <-]. simpl. lia.
  - destruct (splitAt d l) as [[line' rest']|]; [|discriminate].
    intros [= <- <-]. destruct (IH _ _ eq_refl). simpl. lia.
Qed.

Lemma ReadSlice_Ok (b b' : Reader) (d : ascii) (p : list ascii) :
  ReadSlice b d = (b', Ok p) ->
  length (rdata b') < length (rdata b) /\ rsize b' = rsize b.
Proof.
  unfold ReadSlice.
  destruct (splitAt d (rdata b)) as [[line rest]|] eqn:E.
  - destruct (length line <=? rsize b); intros [= <- <-]; simpl.
    destruct (splitAt_length _ _ _ _ E). lia.
  - destruct (rsize b <=? length (rdata b)); discriminate.
Qed.

Lemma ReadSlice_le (b : Reader) (d : ascii) :
  length (rdata (fst (ReadSlice b d))) <= length (rdata b).
Proof.
  unfold ReadSlice.
  destruct (splitAt d (rdata b)) as [[line rest]|] eqn:E.
  - destruct (splitAt_length _ _ _ _ E).
    destruct (length line <=? rsize b); simpl; rewrite ?length_drop; lia.
  - destruct (rsize b <=? length (rdata b)); simpl; rewrite ?length_drop; lia.
Qed.

Lemma ReadSlice_result (b : Reader) (d : ascii) :
  (exists p, snd (ReadSlice b d) = Ok p) \/ (exists e, snd (ReadSlice b d) = Err e).
Proof.
  unfold ReadSlice.
  destruct (splitAt d (rdata b)) as [[line rest]|].
  - destruct (length line <=? rsize b); simpl; eauto.
  - destruct (rsize b <=? length (rdata b)); simpl; eauto.
Qed.

(** The loop of [readHeaders] returns: a turn consumes a line. *)
Lemma readHeadersLoop_returns (fuel : nat) (b : Reader) (s : hstate) :
  length (rdata b) < fuel ->
  snd (readHeadersLoop fuel b s) <> NoFuel
  /\ length (rdata (fst (fst (readHeadersLoop fuel b s)))) <= length (rdata b).
Proof.
  revert b s. induction fuel as [|fuel IH]; intros b s Hlt; [lia|].
  simpl. pose proof (ReadSlice_le b LF) as Hle.
  destruct (ReadSlice b LF) as [b' [p|e|msg|]] eqn:E; simpl in *.
  - apply ReadSlice_Ok in E as [Hshrink _].
    destruct (headerLine s p); simpl; try (split; [discriminate|lia]).
    destruct (IH b' s0 ltac:(lia)). split; [assumption|lia].
  - split; [discriminate|lia].
  - split; [discriminate|lia].
  - destruct (ReadSlice_result b LF) as [[p Hp]|[e He]]; rewrite E in *; discriminate.
Qed.

Lemma readHeaders_returns (b : Reader) (h : StringsMap) :
  snd (readHeaders b h) <> NoFuel
  /\ length (rdata (fst (fst (readHeaders b h)))) <= length (rdata b).
Proof. apply readHeadersLoop_returns. lia. Qed.

End ReaderFacts.

(** The header block of the specification's example, with the blank line
    that ends it. *)
Example readHeaders_cookie :
  readHeaders (X := Std.externals)
    (NewReader (bytes "Cookie: a," ++ CRLF ++ bytes " b" ++ CRLF ++ CRLF)) ∅
  = ({| rsize := defaultBufSize; rdata := [] |}, {["Cookie" := ["a, b"]]}, Ok tt).
Proof. vm_compute. reflexivity. Qed.

(** Without the blank line the block is not ended: the read error is
    returned, as the test [TestNoBody] expects; the map holds the folded
    value all the same. *)
Example readHeaders_cookie_unfinished :
  readHeaders (X := Std.externals)
    (NewReader (bytes "Cookie: a," ++ CRLF ++ bytes " b" ++ CRLF)) ∅
  = ({| rsize := defaultBufSize; rdata := [] |}, {["Cookie" := ["a, b"]]}, Err EOF).
Proof. vm_compute. reflexivity. Qed.

(** The tests [TestHeaders] and [TestContinuationLine] of the
    repository. *)
Example TestHeaders :
  snd (fst (readHeaders (X := Std.externals)
    (NewReader (bytes "Content-Type: text/html" ++ [LF] ++ bytes "Cookie: hello=world" ++ [LF]
                ++ bytes "Cookie: foo=bar" ++ [LF] ++ [LF])) ∅))
  = Append (Set_ (Set_ ∅ HeaderContentType "text/html") "Cookie" "hello=world")
      "Cookie" "foo=bar".
Proof. vm_compute. reflexivity. Qed.

Example TestContinuationLine :
  snd (fst (readHeaders (X := Std.externals)
    (NewReader (bytes "Cookie: hello=world," ++ [LF] ++ bytes " foo=bar" ++ [LF]
                ++ bytes "Content-Type: text/html" ++ [LF] ++ [LF])) ∅))
  = Set_ (Set_ ∅ HeaderContentType "text/html") "Cookie" "hello=world, foo=bar".
Proof. vm_compute. reflexivity. Qed.

(** 257 header lines from the start: the last one is refused. *)
Example readHeaders_257_lines :
  snd (readHeaders (X := Std.externals)
         (NewReader (concat (replicate 257 (bytes "A: b" ++ CRLF)) ++ CRLF)) ∅)
  = Err (ErrorString "too many headers").
Proof. vm_compute. reflexivity. Qed.

Example readHeaders_256_lines :
  snd (readHeaders (X := Std.externals)
         (NewReader (concat (replicate 256 (bytes "A: b" ++ CRLF)) ++ CRLF)) ∅)
  = Ok tt.
Proof. vm_compute. reflexivity. Qed.

Section NetFacts.

Lemma bytes_app (a b : string) : bytes (a +:+ b) = bytes a ++ bytes b.
Proof. induction a as [|c a IH]; simpl; [reflexivity|]. rewrite <- IH. reflexivity. Qed.

Lemma bytes_str (l : list ascii) : bytes (str l) = l.
Proof. apply list_ascii_of_string_of_list_ascii. Qed.

Lemma str_bytes (s : string) : str (bytes s) = s.
Proof. apply string_of_list_ascii_of_string. Qed.

Lemma length_bytes (s : string) : length (bytes s) = String.length s.
Proof. induction s; simpl; congruence. Qed.

Lemma netWrite_accepts (n : Net) (p : list ascii) :
  accepts n (length p) ->
  netWrite n p =
    ({| sent := sent n ++ p; budget := (fun k => k - length p) <$> budget n;
        closed := false |}, (length p, None)).
Proof.
  intros [Hopen Hroom]. unfold netWrite. rewrite Hopen.
  destruct (budget n) as [k|]; simpl; [|reflexivity].
  specialize (Hroom k eq_refl).
  apply Nat.leb_le in Hroom. rewrite Hroom. reflexivity.
Qed.

Lemma accepts_after (n : Net) (p : list ascii) (m : nat) :
  accepts n (length p + m) ->
  accepts {| sent := sent n ++ p; budget := (fun k => k - length p) <$> budget n;
             closed := false |} m.
Proof.
  intros [Hopen Hroom]. split; [reflexivity|]. simpl.
  intros k Hk. destruct (budget n) as [k0|]; simpl in Hk; [|discriminate].
  injection Hk as <-. specialize (Hroom k0 eq_refl). lia.
Qed.

Lemma accepts_le (n : Net) (a b : nat) : a <= b -> accepts n b -> accepts n a.
Proof.
  intros Hle [Hopen Hroom]. split; [assumption|].
  intros k Hk. specialize (Hroom k Hk). lia.
Qed.

End NetFacts.

Section MonadFacts.

Lemma bind_ret {A B} (a : A) (k : A -> M B) (s : state) : bind (ret a) k s = k a s.
Proof. reflexivity. Qed.

Lemma bind_getConn {B} (k : conn -> M B) (s : state) : bind getConn k s = k (fst s) s.
Proof. reflexivity. Qed.

Lemma bind_modify {B} (f : conn -> conn) (k : unit -> M B) (s : state) :
  bind (modify f) k s = k tt (f (fst s), snd s).
Proof. reflexivity. Qed.

Lemma bind_panic {A B} (msg : string) (k : A -> M B) (s : state) :
  bind (panic msg) k s = Panic msg.
Proof. reflexivity. Qed.

Lemma bind_Ok {A B} (m : M A) (k : A -> M B) (s s' : state) (a : A) :
  m s = Ok (a, s') -> bind m k s = k a s'.
Proof. intros H. unfold bind. rewrite H. reflexivity. Qed.

Lemma bind_assoc {A B C} (m : M A) (k : A -> M B) (k' : B -> M C) (s : state) :
  bind (bind m k) k' s = bind m (fun a => bind (k a) k') s.
Proof. unfold bind. destruct (m s) as [[a s']| | |]; reflexivity. Qed.

Lemma netConnWrite_accepts (p : list ascii) (c : conn) (w : world) :
  netConn c = true ->
  accepts (net w) (length p) ->
  netConnWrite p (c, w) =
    Ok ((length p, None),
        (c, set_net w {| sent := sent (net w) ++ p;
                         budget := (fun k => k - length p) <$> budget (net w);
                         closed := false |})).
Proof.
  intros Hconn Hacc. unfold netConnWrite. rewrite Hconn.
  rewrite (netWrite_accepts _ _ Hacc). reflexivity.
Qed.

End MonadFacts.

(** One step of a computation: the binds of [ret], [getConn] and [modify]
    are run, pairs are taken apart. *)
Ltac mstep :=
  repeat progress
    (rewrite ?bind_ret, ?bind_getConn, ?bind_modify, ?bind_panic, ?bind_assoc;
     cbv beta iota; cbn [fst snd]).

Section WriterFacts.
Context {X : Externals}.

(** C9.  A write of a non-empty slice to the chunked writer that meets no
    error puts the whole chunk on the wire and returns 0 for the number of
    bytes written. *)
Theorem chunkedWriter_Write_returns_zero (p : list ascii) (c : conn) (w : world) :
  p <> [] ->
  responseErr c = None ->
  netConn c = true ->
  accepts (net w) (length (chunkFrame p)) ->
  exists c' w',
    chunkedWriter_Write p (c, w) = Ok ((0, None), (c', w'))
    /\ sent (net w') = sent (net w) ++ chunkFrame p
    /\ responseErr c' = None.
Proof.
  intros Hp Herr Hconn Hacc.
  unfold chunkFrame in Hacc. rewrite !length_app in Hacc.
  unfold chunkedWriter_Write. mstep. rewrite Herr.
  destruct (length p =? 0) eqn:Hlen.
  { apply Nat.eqb_eq in Hlen. destruct p; [congruence|discriminate]. }
  unfold WriteString. rewrite bytes_app, bytes_str.
  erewrite bind_Ok; cycle 1.
  { apply netConnWrite_accepts; [exact Hconn|].
    rewrite length_app. eapply accepts_le; [|exact Hacc]. lia. }
  mstep.
  set (n1 := {| sent := _; budget := _; closed := _ |}).
  assert (accepts n1 (length p + length CRLF)) as Hacc1.
  { unfold n1. apply accepts_after. eapply accepts_le; [|exact Hacc].
    rewrite length_app. lia. }
  erewrite bind_Ok; cycle 1.
  { apply netConnWrite_accepts; [exact Hconn|].
    eapply accepts_le; [|exact Hacc1]. simpl. lia. }
  mstep.
  erewrite bind_Ok; cycle 1.
  { apply netConnWrite_accepts; [exact Hconn|].
    cbn [net set_net]. exact (accepts_after n1 p _ Hacc1). }
  mstep. unfold ret.
  eexists _, _. split; [reflexivity|]. simpl. split; [|reflexivity].
  unfold chunkFrame. rewrite <- !app_assoc. reflexivity.
Qed.

End WriterFacts.

Lemma chunkedWriter_Write_returns_zero_witness :
  exists c' w',
    chunkedWriter_Write (bytes "hello")
      (set_bw (Some (NewWriter chunkedKind)) newConn,
       {| net := mkNet [] None false; reader := NewReader [] |})
    = Ok ((0, None), (c', w'))
    /\ sent (net w') = [] ++ bytes "5" ++ CRLF ++ bytes "hello" ++ CRLF
    /\ responseErr c' = None.
Proof.
  apply (chunkedWriter_Write_returns_zero (bytes "hello")
           (set_bw (Some (NewWriter chunkedKind)) newConn)
           {| net := mkNet [] None false; reader := NewReader [] |}).
  - discriminate.
  - reflexivity.
  - reflexivity.
  - split; [reflexivity|]. intros k Hk. discriminate.
Defined.

Section WriteFacts.
Context {X : Externals}.

Lemma netWrite_le (n : Net) (p : list ascii) : fst (snd (netWrite n p)) <= length p.
Proof.
  unfold netWrite. destruct (closed n); simpl; [lia|].
  destruct (budget n) as [k|]; simpl; [|lia].
  destruct (length p <=? k) eqn:E; simpl; [lia|]. apply Nat.leb_gt in E. lia.
Qed.

Lemma netWrite_short (n : Net) (p : list ascii) :
  snd (snd (netWrite n p)) = None -> fst (snd (netWrite n p)) = length p.
Proof.
  unfold netWrite. destruct (closed n); simpl; [discriminate|].
  destruct (budget n) as [k|]; simpl; [|reflexivity].
  destruct (length p <=? k); simpl; [reflexivity|discriminate].
Qed.

Lemma netConnWrite_writes (p : list ascii) (c : conn) (w : world) :
  netConn c = true ->
  writes (netConnWrite p) c w
    (fun r c' w' => c' = c /\ fst r <= length p /\ (snd r = None -> fst r = length p)).
Proof.
  intros Hconn. unfold writes, netConnWrite. rewrite Hconn.
  pose proof (netWrite_le (net w) p) as Hle.
  pose proof (netWrite_short (net w) p) as Hshort.
  destruct (netWrite (net w) p) as [n' [k e]]. simpl in *.
  eexists _, _, _. split; [reflexivity|]. auto.
Qed.

Lemma identityWriter_Write_writes (p : list ascii) (c : conn) (w : world) :
  netConn c = true ->
  writes (identityWriter_Write p) c w
    (fun r c' w' => bw c' = bw c /\ fst r <= length p
                    /\ (snd r = None -> fst r = length p)).
Proof.
  intros Hconn. unfold identityWriter_Write. unfold writes. mstep.
  destruct (responseErr c) as [e|] eqn:Herr.
  - unfold ret. eexists _, _, _. split; [reflexivity|]. simpl.
    repeat split; try lia. discriminate.
  - destruct (netConnWrite_writes p c w Hconn) as ([n e] & c1 & w1 & Hrun & Hf & Hr & -> & Hle & Hs).
    rewrite (bind_Ok _ _ _ _ _ Hrun). mstep. unfold ret.
    eexists _, _, _. split; [reflexivity|]. simpl in *. repeat split; auto.
Qed.

Lemma chunkedWriter_Write_writes (p : list ascii) (c : conn) (w : world) :
  netConn c = true ->
  writes (chunkedWriter_Write p) c w (fun r c' w' => bw c' = bw c /\ fst r <= length p).
Proof.
  intros Hconn. unfold chunkedWriter_Write, writes. mstep.
  destruct (responseErr c) as [e|] eqn:Herr.
  { unfold ret. eexists _, _, _. split; [reflexivity|]. simpl. repeat split; lia. }
  destruct (length p =? 0).
  { unfold ret. eexists _, _, _. split; [reflexivity|]. simpl. repeat split; lia. }
  unfold WriteString.
  destruct (netConnWrite_writes (bytes (Itob16 (length p) +:+ str CRLF)) c w Hconn)
    as ([n e] & c1 & w1 & Hrun & Hf & Hr & -> & Hle & Hs).
  rewrite (bind_Ok _ _ _ _ _ Hrun). mstep.
  destruct e as [e|].
  { unfold ret. eexists _, _, _. split; [reflexivity|]. simpl. repeat split; auto; lia. }
  destruct (netConnWrite_writes p (set_responseErr None c) w1 Hconn)
    as ([n2 e2] & c2 & w2 & Hrun2 & Hf2 & Hr2 & -> & Hle2 & Hs2).
  rewrite (bind_Ok _ _ _ _ _ Hrun2). mstep.
  destruct e2 as [e2|].
  { unfold ret. eexists _, _, _. split; [reflexivity|]. simpl in *.
    repeat split; auto; congruence. }
  destruct (netConnWrite_writes (bytes (str CRLF))
              (set_responseErr None (set_responseErr None c)) w2 Hconn)
    as ([n3 e3] & c3 & w3 & Hrun3 & Hf3 & Hr3 & -> & Hle3 & Hs3).
  rewrite (bind_Ok _ _ _ _ _ Hrun3). mstep. unfold ret.
  eexists _, _, _. split; [reflexivity|]. simpl in *.
  repeat split; auto; try congruence; lia.
Qed.

Lemma writerWrite_writes (k : writerKind) (p : list ascii) (c : conn) (w : world) :
  netConn c = true ->
  writes (writerWrite k p) c w (fun r c' w' => bw c' = bw c /\ fst r <= length p).
Proof.
  intros Hconn. destruct k; simpl.
  - destruct (identityWriter_Write_writes p c w Hconn) as (a & c' & w' & H1 & H2 & H3 & H4 & H5 & H6).
    exists a, c', w'. repeat split; auto.
  - apply chunkedWriter_Write_writes; assumption.
Qed.

(** [Flush] returns; without an error the buffer is empty afterwards. *)
Lemma Flush_writes (c : conn) (w : world) (b : Writer) :
  netConn c = true ->
  bw c = Some b ->
  writes Flush c w
    (fun e c' w' =>
       netConn c' = true
       /\ exists b', bw c' = Some b' /\ wkind b' = wkind b
            /\ length (wbuf b') <= length (wbuf b)
            /\ (e = None -> wbuf b' = [] /\ werr b' = None)).
Proof.
  intros Hconn Hbw. unfold Flush, writes. mstep. rewrite Hbw.
  destruct (werr b) as [e|] eqn:Hwerr.
  { unfold ret. eexists _, _, _. split; [reflexivity|]. repeat split; auto.
    exists b. repeat split; auto; discriminate. }
  destruct (length (wbuf b) =? 0) eqn:Hempty.
  { unfold ret. eexists _, _, _. split; [reflexivity|]. repeat split; auto.
    exists b. repeat split; auto. apply Nat.eqb_eq in Hempty.
    destruct (wbuf b); [reflexivity|discriminate]. }
  destruct (writerWrite_writes (wkind b) (wbuf b) c w Hconn)
    as ([m e] & c1 & w1 & Hrun & Hf & Hr & Hbw1 & Hle).
  rewrite (bind_Ok _ _ _ _ _ Hrun). mstep.
  assert (netConn c1 = true) as Hconn1.
  { apply (f_equal netConn) in Hf. simpl in Hf. congruence. }
  destruct e as [e|]; [|destruct (m <? length (wbuf b))]; mstep; unfold ret;
    (eexists _, _, _; split; [reflexivity|]); simpl;
    (repeat split; auto;
     [eexists; repeat split; simpl; try reflexivity;
      rewrite ?length_drop; try lia; try discriminate]).
Qed.

(** The loop of [Write] returns before [2 * len(p) + 2] turns: a turn
    copies at least one byte, or flushes a full buffer and the next one
    copies. *)
Lemma bwWriteLoop_writes (fuel : nat) (p : list ascii) (nn : nat) (c : conn) (w : world)
    (b : Writer) :
  netConn c = true ->
  bw c = Some b ->
  length (wbuf b) <= defaultBufSize ->
  2 * length p + (if length (wbuf b) <? defaultBufSize then 0 else 1) < fuel ->
  writes (bwWriteLoop fuel p nn) c w
    (fun r c' w' => netConn c' = true
                    /\ exists b', bw c' = Some b' /\ wkind b' = wkind b
                                  /\ length (wbuf b') <= defaultBufSize).
Proof.
  revert p nn c w b. induction fuel as [|fuel IH]; intros p nn c w b Hconn Hbw Hsize Hfuel;
    [lia|].
  simpl. destruct (length p =? 0) eqn:Hp.
  { unfold ret, writes. eexists _, _, _. split; [reflexivity|]. repeat split; auto.
    exists b. auto. }
  apply Nat.eqb_neq in Hp. unfold writes. mstep. rewrite Hbw.
  destruct (defaultBufSize - length (wbuf b) =? 0) eqn:Hfull.
  - apply Nat.eqb_eq in Hfull.
    assert ((length (wbuf b) <? defaultBufSize) = false) as Hltb by (apply Nat.ltb_ge; lia).
    rewrite Hltb in Hfuel.
    destruct (Flush_writes c w b Hconn Hbw)
      as (e & c1 & w1 & Hrun & Hf & Hr & Hconn1 & b1 & Hbw1 & Hk1 & Hlen1 & Hnone).
    rewrite (bind_Ok _ _ _ _ _ Hrun).
    destruct e as [e|].
    + unfold ret. eexists _, _, _. split; [reflexivity|]. repeat split; auto.
      exists b1. repeat split; auto. lia.
    + destruct (Hnone eq_refl) as [Hbuf1 Hwerr1].
      destruct (IH p nn c1 w1 b1 Hconn1 Hbw1) as (r & c2 & w2 & Hrun2 & Hf2 & Hr2 & Hc2 & b2 & Hb2 & Hk2 & Hl2).
      { rewrite Hbuf1. simpl. unfold defaultBufSize. lia. }
      { rewrite Hbuf1. simpl. lia. }
      exists r, c2, w2. split; [exact Hrun2|]. repeat split; try congruence.
      exists b2. repeat split; auto. congruence.
  - apply Nat.eqb_neq in Hfull.
    set (n := min (defaultBufSize - length (wbuf b)) (length p)).
    assert (1 <= n) by (unfold n; lia).
    set (b1 := {| wkind := wkind b; wbuf := wbuf b ++ take n p; werr := werr b |}).
    destruct (IH (drop n p) (nn + n) (set_bw (Some b1) c) w b1)
      as (r & c2 & w2 & Hrun2 & Hf2 & Hr2 & Hc2 & b2 & Hb2 & Hk2 & Hl2); auto.
    { simpl. rewrite length_app, length_take. unfold n. lia. }
    { rewrite length_drop. simpl. rewrite length_app, length_take.
      destruct (length (wbuf b) + _ <? defaultBufSize); lia. }
    exists r, c2, w2. split; [exact Hrun2|]. repeat split; auto.
    exists b2. auto.
Qed.

Lemma Write_writes (p : list ascii) (c : conn) (w : world) (b : Writer) :
  netConn c = true ->
  bw c = Some b ->
  length (wbuf b) <= defaultBufSize ->
  writes (Write p) c w
    (fun r c' w' => netConn c' = true
                    /\ exists b', bw c' = Some b' /\ wkind b' = wkind b
                                  /\ length (wbuf b') <= defaultBufSize).
Proof.
  intros Hconn Hbw Hsize. unfold Write, writes. mstep. rewrite Hbw.
  destruct (werr b).
  - unfold ret. eexists _, _, _. split; [reflexivity|]. repeat split; auto.
    exists b. auto.
  - apply bwWriteLoop_writes with (b := b); auto.
    destruct (length (wbuf b) <? defaultBufSize); lia.
Qed.

End WriteFacts.

(** Running a computation on a connection that is a record of its
    fields: binds, projections and setters are evaluated. *)
Ltac mrun :=
  lazy beta iota zeta delta
    [bind ret getConn modify panic fst snd
     atLeastHttp11 br bw chunked closeAfterResponse hijacked netConn req requestAvail
     requestErr respondCalled responseAvail responseErr write100Continue
     set_atLeastHttp11 set_br set_bw set_chunked set_closeAfterResponse set_netConn
     set_req set_requestAvail set_requestErr set_respondCalled set_responseAvail
     set_responseErr set_write100Continue negb andb orb].

Ltac mrun_in H :=
  cbv beta iota zeta delta
    [bind ret getConn modify panic fst snd
     atLeastHttp11 br bw chunked closeAfterResponse hijacked netConn req requestAvail
     requestErr respondCalled responseAvail responseErr write100Continue
     set_atLeastHttp11 set_br set_bw set_chunked set_closeAfterResponse set_netConn
     set_req set_requestAvail set_requestErr set_respondCalled set_responseAvail
     set_responseErr set_write100Continue negb andb orb] in H.

Section RespondFacts.
Context {X : Externals}.

Lemma frame_field {A} (f : conn -> A) (c c' : conn) :
  (forall c0, f c0 = f (frameResponse c0)) ->
  frameResponse c' = frameResponse c -> f c' = f c.
Proof. intros Hf Heq. rewrite (Hf c'), (Hf c), Heq. reflexivity. Qed.

(** An accepted [Respond] is the write of the header block on the
    connection as [committed] describes it. *)
Lemma Respond_accepted (status : Z) (header : StringsMap) (c : conn) (w : world) :
  hijacked c = false ->
  respondCalled c = false ->
  Respond status header (c, w) =
    bind (if chunkedDecided status header c
          then bind (netConnWrite
                       (bytes (headerBlock (if atLeastHttp11 c then "HTTP/1.1" else "HTTP/1.0")
                                 status (headerCommitted status header c))))
                 (fun '(n, e) => modify (set_responseErr e))
          else bind (Write
                       (bytes (headerBlock (if atLeastHttp11 c then "HTTP/1.1" else "HTTP/1.0")
                                 status (headerCommitted status header c))))
                 (fun _ => ret tt))
      (fun _ => ret (true, headerCommitted status header c))
      (committed status header c, w).
Proof.
  intros Hhij Hcalled.
  destruct c as [http11 rd wr ch close hij nc rq ravail rerr called savail serr cont].
  mrun_in Hhij. mrun_in Hcalled. subst hij called.
  unfold Respond, headerCommitted, committed, chunkedDecided, responseAvailDecided,
    headerChecked, closeDecided.
  destruct (status =? StatusNotModified)%Z; destruct ravail; destruct close;
    lazy beta iota zeta delta
      [bind ret getConn modify panic fst snd Z.ltb Z.compare
       atLeastHttp11 br bw chunked closeAfterResponse hijacked netConn req requestAvail
       requestErr respondCalled responseAvail responseErr write100Continue
       set_atLeastHttp11 set_br set_bw set_chunked set_closeAfterResponse set_netConn
       set_req set_requestAvail set_requestErr set_respondCalled set_responseAvail
       set_responseErr set_write100Continue negb andb orb];
    match goal with
    | |- context [Get ?h HeaderContentLength] =>
        destruct (Get h HeaderContentLength) as [s|]
    end;
    match goal with
    | |- context [found ?h HeaderTransferEncoding] =>
        destruct (found h HeaderTransferEncoding)
    end; reflexivity.
Qed.

Lemma chunkedDecided_iff (status : Z) (header : StringsMap) (c : conn) :
  chunkedDecided status header c = true
  <-> Get header HeaderContentLength = None
      /\ header !! HeaderTransferEncoding = None
      /\ status <> StatusNotModified
      /\ closeDecided c = false.
Proof.
  unfold chunkedDecided, headerChecked.
  destruct (status =? StatusNotModified)%Z eqn:Hstatus; simpl.
  { apply Z.eqb_eq in Hstatus. split; [discriminate|]. intros (_ & _ & H & _). congruence. }
  apply Z.eqb_neq in Hstatus.
  destruct (closeDecided c); simpl.
  { split; [discriminate|]. intros (_ & _ & _ & H). discriminate. }
  unfold found.
  destruct (Get header HeaderContentLength) as [s|]; simpl.
  { split; [discriminate|]. intros (H & _). discriminate. }
  destruct (header !! HeaderTransferEncoding) as [v|] eqn:Hte.
  - rewrite bool_decide_eq_true_2 by eauto. simpl.
    split; [discriminate|]. intros (_ & H & _). discriminate.
  - rewrite bool_decide_eq_false_2 by (intros [v Hv]; discriminate). simpl.
    split; auto.
Qed.

Lemma Get_None_not_Some (header : StringsMap) (key : string) :
  is_Some (Get header key) -> Get header key <> None.
Proof. intros [v Hv]. congruence. Qed.

(** An accepted [Respond] returns. *)
Lemma Respond_returns (status : Z) (header : StringsMap) (c : conn) (w : world) :
  hijacked c = false ->
  respondCalled c = false ->
  netConn c = true ->
  exists c' w',
    Respond status header (c, w) = Ok ((true, headerCommitted status header c), (c', w'))
    /\ frameResponse c' = frameResponse (committed status header c)
    /\ reader w' = reader w
    /\ netConn c' = true
    /\ exists b', bw c' = Some b'
         /\ wkind b' = (if chunkedDecided status header c then chunkedKind else identityKind)
         /\ length (wbuf b') <= defaultBufSize.
Proof.
  intros Hhij Hcalled Hconn.
  rewrite (Respond_accepted status header c w Hhij Hcalled).
  destruct (chunkedDecided status header c) eqn:Hch.
  - destruct (netConnWrite_writes
                (bytes (headerBlock (if atLeastHttp11 c then "HTTP/1.1" else "HTTP/1.0")
                          status (headerCommitted status header c)))
                (committed status header c) w Hconn)
      as ([n e] & c2 & w2 & Hrun & Hf & Hr & -> & _).
    rewrite bind_assoc. rewrite (bind_Ok _ _ _ _ _ Hrun).
    eexists _, _. split; [reflexivity|]. simpl.
    repeat split; auto. rewrite Hch. eexists. repeat split. simpl. lia.
  - destruct (Write_writes
                (bytes (headerBlock (if atLeastHttp11 c then "HTTP/1.1" else "HTTP/1.0")
                          status (headerCommitted status header c)))
                (committed status header c) w (NewWriter identityKind) Hconn)
      as (r & c2 & w2 & Hrun & Hf & Hr & Hc2 & b2 & Hb2 & Hk2 & Hl2).
    { simpl. rewrite Hch. reflexivity. }
    { simpl. lia. }
    rewrite bind_assoc. rewrite (bind_Ok _ _ _ _ _ Hrun).
    eexists _, _. split; [reflexivity|]. simpl.
    repeat split; auto. exists b2. auto.
Qed.

(** C3.  An accepted [Respond] returns, and it leaves chunked framing
    selected, with the header [Transfer-Encoding: chunked] set, exactly
    when the caller gave no [Content-Length] and no [Transfer-Encoding],
    the status is not 304 and close-after-response is not set; with a
    [Content-Length] the framing is never chunked. *)
Theorem Respond_chunked_iff (status : Z) (header : StringsMap) (c : conn) (w : world) :
  hijacked c = false ->
  respondCalled c = false ->
  netConn c = true ->
  exists header' c' w',
    Respond status header (c, w) = Ok ((true, header'), (c', w'))
    /\ (chunked c' = true /\ header' !! HeaderTransferEncoding = Some ["chunked"]
        <-> Get header HeaderContentLength = None
            /\ header !! HeaderTransferEncoding = None
            /\ status <> StatusNotModified
            /\ closeAfterResponse c' = false)
    /\ (is_Some (Get header HeaderContentLength) -> chunked c' = false).
Proof.
  intros Hhij Hcalled Hconn.
  destruct (Respond_returns status header c w Hhij Hcalled Hconn)
    as (c' & w' & Hrun & Hf & _).
  exists (headerCommitted status header c), c', w'. split; [exact Hrun|].
  assert (chunked c' = chunkedDecided status header c) as Hch
    by (apply (frame_field chunked) in Hf; [exact Hf|reflexivity]).
  assert (closeAfterResponse c' = closeDecided c) as Hcl
    by (apply (frame_field closeAfterResponse) in Hf; [exact Hf|reflexivity]).
  rewrite Hch, Hcl.
  pose proof (chunkedDecided_iff status header c) as Hiff.
  split.
  - split.
    + intros [H _]. apply Hiff. exact H.
    + intros H. apply Hiff in H. split; [exact H|].
      unfold headerCommitted. rewrite H. apply lookup_insert_eq.
  - intros Hsome. destruct (chunkedDecided status header c) eqn:E; [|reflexivity].
    apply chunkedDecided_iff in E as (Hnone & _). destruct Hsome as [v Hv]. congruence.
Qed.

End RespondFacts.

(** A chunked response and a length-declared one, on a connection as
    [prepare] leaves it for an HTTP/1.1 request. *)
Lemma Respond_chunked_iff_witness :
  exists header' c' w',
    Respond (X := Std.externals) StatusOK {[HeaderContentLength := ["5"]]}
      (set_atLeastHttp11 true newConn, {| net := mkNet [] None false; reader := NewReader [] |})
    = Ok ((true, header'), (c', w'))
    /\ (chunked c' = true /\ header' !! HeaderTransferEncoding = Some ["chunked"]
        <-> Get ({[HeaderContentLength := ["5"]]} : StringsMap) HeaderContentLength = None
            /\ ({[HeaderContentLength := ["5"]]} : StringsMap) !! HeaderTransferEncoding = None
            /\ StatusOK <> StatusNotModified
            /\ closeAfterResponse c' = false)
    /\ (is_Some (Get ({[HeaderContentLength := ["5"]]} : StringsMap) HeaderContentLength)
        -> chunked c' = false).
Proof.
  apply (Respond_chunked_iff (X := Std.externals) StatusOK {[HeaderContentLength := ["5"]]}
           (set_atLeastHttp11 true newConn)
           {| net := mkNet [] None false; reader := NewReader [] |});
    reflexivity.
Defined.

Section OpFacts.
Context {X : Externals}.

Lemma kept_refl (c : conn) : kept c c.
Proof. unfold kept. tauto. Qed.

Lemma kept_trans (c1 c2 c3 : conn) : kept c1 c2 -> kept c2 c3 -> kept c1 c3.
Proof.
  unfold kept. intros (H1 & H2 & H3 & H4 & H5 & H6 & H7) (G1 & G2 & G3 & G4 & G5 & G6 & G7).
  repeat split; try congruence; auto.
Qed.

Lemma kept_frameResponse (c c' : conn) : frameResponse c' = frameResponse c -> kept c c'.
Proof.
  intros Hf. unfold kept.
  rewrite (frame_field hijacked _ _ (fun _ => eq_refl) Hf).
  rewrite (frame_field req _ _ (fun _ => eq_refl) Hf).
  rewrite (frame_field atLeastHttp11 _ _ (fun _ => eq_refl) Hf).
  rewrite (frame_field write100Continue _ _ (fun _ => eq_refl) Hf).
  rewrite (frame_field closeAfterResponse _ _ (fun _ => eq_refl) Hf).
  rewrite (frame_field respondCalled _ _ (fun _ => eq_refl) Hf).
  rewrite (frame_field requestErr _ _ (fun _ => eq_refl) Hf).
  tauto.
Qed.

Lemma ReaderRead_le (b : Reader) (n : nat) :
  length (rdata (fst (ReaderRead b n))) <= length (rdata b).
Proof.
  unfold ReaderRead. destruct (rdata b) eqn:E; simpl; [rewrite E; simpl; lia|].
  rewrite length_drop. simpl. lia.
Qed.

(** A read of the request body returns.  It writes the interim response
    when that is owed, and nothing otherwise; it owes none afterwards, or
    it has found the error of an earlier call and changed nothing. *)
Lemma requestReader_Read_runs (n : nat) (c : conn) (w : world) :
  netConn c = true ->
  br c = true ->
  exists q e c' w',
    requestReader_Read n (c, w) = Ok ((q, e), (c', w'))
    /\ net w' = (if owesContinue c then fst (netWrite (net w) continuePreface) else net w)
    /\ write100Continue c' =
         (write100Continue c && match requestErr c with None => false | Some _ => true end)
    /\ frameRequest c' = frameRequest c
    /\ (is_Some (requestErr c) -> c' = c)
    /\ length (rdata (reader w')) <= length (rdata (reader w)).
Proof.
  intros Hconn Hbr.
  destruct c as [http11 rd wr ch close hij nc rq ravail rerr called savail serr cont].
  mrun_in Hconn. mrun_in Hbr. subst nc rd.
  unfold requestReader_Read, owesContinue, frameRequest, WriteString, netConnWrite, brRead.
  change (bytes ("HTTP/1.1 100 Continue" +:+ str CRLF +:+ str CRLF)) with continuePreface.
  destruct rerr as [e|]; destruct cont; mrun.
  - eexists _, _, _, _. split; [reflexivity|].
      repeat split; auto; intros [? ?]; discriminate.
  - eexists _, _, _, _. split; [reflexivity|].
      repeat split; auto; intros [? ?]; discriminate.
  - destruct (netWrite (net w) continuePreface) as [n' [k e]]. mrun.
    destruct (ravail <=? 0)%Z; mrun.
    + eexists _, _, _, _. split; [reflexivity|].
      repeat split; auto; intros [? ?]; discriminate.
    + change (reader (set_net w n')) with (reader w).
      pose proof (ReaderRead_le (reader w)
                    (if (ravail <? Z.of_nat n)%Z then Z.to_nat ravail else n)) as Hle.
      destruct (ReaderRead (reader w) _) as [b [q e']]. mrun.
      eexists _, _, _, _. split; [reflexivity|].
      repeat split; auto; intros [? ?]; discriminate.
  - destruct (ravail <=? 0)%Z; mrun.
    + eexists _, _, _, _. split; [reflexivity|].
      repeat split; auto; intros [? ?]; discriminate.
    + pose proof (ReaderRead_le (reader w)
                    (if (ravail <? Z.of_nat n)%Z then Z.to_nat ravail else n)) as Hle.
      destruct (ReaderRead (reader w) _) as [b [q e']]. mrun.
      eexists _, _, _, _. split; [reflexivity|].
      repeat split; auto; intros [? ?]; discriminate.
Qed.

Lemma kept_frameRequest (c c' : conn) :
  frameRequest c' = frameRequest c ->
  (write100Continue c = false -> write100Continue c' = false) ->
  (is_Some (requestErr c) -> is_Some (requestErr c')) ->
  kept c c'.
Proof.
  intros Hf Hcont Herr. unfold kept.
  assert (forall {A} (f : conn -> A), (forall c0, f c0 = f (frameRequest c0)) -> f c' = f c)
    as Hfield by (intros A f Hx; rewrite (Hx c'), (Hx c), Hf; reflexivity).
  rewrite (Hfield _ hijacked (fun _ => eq_refl)).
  rewrite (Hfield _ req (fun _ => eq_refl)).
  rewrite (Hfield _ atLeastHttp11 (fun _ => eq_refl)).
  rewrite (Hfield _ closeAfterResponse (fun _ => eq_refl)).
  rewrite (Hfield _ respondCalled (fun _ => eq_refl)).
  tauto.
Qed.

Lemma attached_frameRequest (c c' : conn) :
  frameRequest c' = frameRequest c -> attached c -> attached c'.
Proof.
  intros Hf. unfold attached.
  assert (forall {A} (f : conn -> A), (forall c0, f c0 = f (frameRequest c0)) -> f c' = f c)
    as Hfield by (intros A f Hx; rewrite (Hx c'), (Hx c), Hf; reflexivity).
  rewrite (Hfield _ netConn (fun _ => eq_refl)).
  rewrite (Hfield _ br (fun _ => eq_refl)).
  rewrite (Hfield _ bw (fun _ => eq_refl)).
  rewrite (Hfield _ respondCalled (fun _ => eq_refl)).
  tauto.
Qed.

(** A rejected [Respond] changes nothing. *)
Lemma Respond_rejected (status : Z) (header : StringsMap) (c : conn) (w : world) :
  hijacked c = true \/ respondCalled c = true ->
  Respond status header (c, w) = Ok ((false, header), (c, w)).
Proof.
  intros H.
  destruct c as [http11 rd wr ch close hij nc rq ravail rerr called savail serr cont].
  mrun_in H. unfold Respond.
  destruct hij; [mrun; reflexivity|].
  destruct called; [mrun; reflexivity|]. destruct H; discriminate.
Qed.

Lemma kept_committed (status : Z) (header : StringsMap) (c : conn) :
  kept c (committed status header c).
Proof.
  unfold kept, committed, closeDecided. simpl. repeat split; eauto.
  intros ->. reflexivity.
Qed.

Lemma Write_no_writer (p : list ascii) (c : conn) (w : world) :
  bw c = None -> Write p (c, w) = Panic nilDereference.
Proof.
  intros H. unfold Write, bind, getConn. cbv beta iota delta [fst]. rewrite H. reflexivity.
Qed.

Lemma Flush_no_writer (c : conn) (w : world) :
  bw c = None -> Flush (c, w) = Panic nilDereference.
Proof.
  intros H. unfold Flush, bind, getConn. cbv beta iota delta [fst]. rewrite H. reflexivity.
Qed.

Lemma bind_Panic {A B} (m : M A) (k : A -> M B) (s : state) (msg : string) :
  m s = Panic msg -> bind m k s = Panic msg.
Proof. intros H. unfold bind. rewrite H. reflexivity. Qed.

Lemma runOps_cons (o : op) (ops : list op) :
  runOps (o :: ops) = bind (runOp o) (fun _ => runOps ops).
Proof. reflexivity. Qed.

(** What a call of the application does to the connection, when it
    returns. *)
Lemma runOp_kept (o : op) (c c' : conn) (w w' : world) :
  attached c ->
  runOp o (c, w) = Ok (tt, (c', w')) ->
  attached c' /\ kept c c'
  /\ length (rdata (reader w')) <= length (rdata (reader w)).
Proof.
  intros Hatt Hrun. pose proof Hatt as (Hconn & Hbr & Hbuf). destruct o as [n|status header|p| |];
    cbv beta iota delta [runOp] in Hrun.
  - destruct (requestReader_Read_runs n c w Hconn Hbr)
      as (q & e & c1 & w1 & Hread & Hnet & Hcont & Hf & Hsame & Hle).
    rewrite (bind_Ok _ _ _ _ _ Hread) in Hrun. injection Hrun as <- <-.
    split; [|split]; [|apply kept_frameRequest|]; auto.
    + apply (attached_frameRequest c); auto.
    + intros H. rewrite Hcont, H. reflexivity.
    + intros H. rewrite (Hsame H). exact H.
  - destruct (hijacked c) eqn:Hhij; [|destruct (respondCalled c) eqn:Hcalled].
    + rewrite (bind_Ok _ _ _ _ _ (Respond_rejected status header c w (or_introl Hhij))) in Hrun.
      injection Hrun as <- <-. split; [exact Hatt|]. auto using kept_refl.
    + rewrite (bind_Ok _ _ _ _ _ (Respond_rejected status header c w (or_intror Hcalled)))
        in Hrun.
      injection Hrun as <- <-. split; [exact Hatt|]. auto using kept_refl.
    + destruct (Respond_returns status header c w Hhij Hcalled Hconn)
        as (c1 & w1 & Hresp & Hf & Hr & Hc1 & b1 & Hb1 & Hk1 & Hl1).
      rewrite (bind_Ok _ _ _ _ _ Hresp) in Hrun. injection Hrun as <- <-.
      split; [|split].
      * unfold attached. rewrite Hb1. repeat split; auto.
        rewrite (frame_field br _ _ (fun _ => eq_refl) Hf). exact Hbr.
      * eapply kept_trans; [apply (kept_committed status header)|].
        apply kept_frameResponse. exact Hf.
      * rewrite Hr. lia.
  - destruct (bw c) as [b|] eqn:Hbw.
    2: { rewrite (bind_Panic _ _ _ _ (Write_no_writer p c w Hbw)) in Hrun. discriminate. }
    destruct (Write_writes p c w b Hconn Hbw Hbuf)
      as (r & c1 & w1 & Hw & Hf & Hr & Hc1 & b1 & Hb1 & Hk1 & Hl1).
    rewrite (bind_Ok _ _ _ _ _ Hw) in Hrun. injection Hrun as <- <-.
    split; [|split].
    + unfold attached. rewrite Hb1. repeat split; auto.
      rewrite (frame_field br _ _ (fun _ => eq_refl) Hf). exact Hbr.
    + apply kept_frameResponse. exact Hf.
    + rewrite Hr. lia.
  - destruct (bw c) as [b|] eqn:Hbw.
    2: { rewrite (bind_Panic _ _ _ _ (Flush_no_writer c w Hbw)) in Hrun. discriminate. }
    destruct (Flush_writes c w b Hconn Hbw)
      as (r & c1 & w1 & Hw & Hf & Hr & Hc1 & b1 & Hb1 & Hk1 & Hl1 & _).
    rewrite (bind_Ok _ _ _ _ _ Hw) in Hrun. injection Hrun as <- <-.
    split; [|split].
    + unfold attached. rewrite Hb1. repeat split; auto; [|lia].
      rewrite (frame_field br _ _ (fun _ => eq_refl) Hf). exact Hbr.
    + apply kept_frameResponse. exact Hf.
    + rewrite Hr. lia.
  - unfold Hijack in Hrun. rewrite bind_ret in Hrun. injection Hrun as <- <-.
    split; [exact Hatt|]. auto using kept_refl.
Qed.

Lemma runOps_kept (ops : list op) (c c' : conn) (w w' : world) :
  attached c ->
  runOps ops (c, w) = Ok (tt, (c', w')) ->
  attached c' /\ kept c c'
  /\ length (rdata (reader w')) <= length (rdata (reader w)).
Proof.
  revert c w. induction ops as [|o ops IH]; intros c w Hatt Hrun.
  - injection Hrun as <- <-. auto using kept_refl.
  - rewrite runOps_cons in Hrun. unfold bind in Hrun at 1.
    destruct (runOp o (c, w)) as [[[] [c1 w1]]| | |] eqn:Hop; try discriminate.
    destruct (runOp_kept o c c1 w w1 Hatt Hop) as (Hatt1 & Hk1 & Hl1).
    destruct (IH c1 w1 Hatt1 Hrun) as (Hatt2 & Hk2 & Hl2).
    split; [assumption|]. split; [eapply kept_trans; eassumption|lia].
Qed.

End OpFacts.

Section LoopFacts.
Context {X : Externals}.

Lemma readStatusLine_None (b b' : Reader) (r r' : Request) :
  readStatusLine b r = (b', r', None) ->
  length (rdata b') < length (rdata b) /\ Header r' = Header r.
Proof.
  unfold readStatusLine.
  destruct (ReadSlice b LF) as [b1 [p|e|msg|]] eqn:Hread; try discriminate.
  apply ReadSlice_Ok in Hread as [Hlt _].
  destruct (matchRequestLine (trimWSRight p)) as [[[[m1 m2] m3] m4]|]; [|discriminate].
  destruct (Atoi (str m3)) as [major [|]]; [discriminate|].
  destruct (Atoi (str m4)) as [minor [|]]; [discriminate|].
  destruct (ParseURL (str m2)); [|discriminate].
  intros [= <- <-]. simpl. auto.
Qed.

(** What [prepare] leaves when it has read a request. *)
Lemma prepare_Ok (w w' : world) (c' : conn) :
  prepare (newConn, w) = Ok (None, (c', w')) ->
  net w' = net w
  /\ length (rdata (reader w')) < length (rdata (reader w))
  /\ netConn c' = true /\ br c' = true /\ bw c' = None
  /\ hijacked c' = false /\ respondCalled c' = false
  /\ requestErr c' = None /\ responseErr c' = None /\ responseAvail c' = 0%Z
  /\ exists r,
       req c' = Some r
       /\ write100Continue c' =
            match Get (Header r) HeaderExpect with
            | Some s => bool_decide (ToLower s = "100-continue")
            | None => false
            end.
Proof.
  unfold prepare.
  destruct (readStatusLine (reader w) NewRequest) as [[b r] [e|]] eqn:Hline.
  { cbv beta iota zeta delta [newConn br set_req negb]. discriminate. }
  apply readStatusLine_None in Hline as [Hlt Hheader].
  destruct r as [method url major minor header0 clen].
  pose proof (readHeaders_returns b header0) as [_ Hle].
  cbv beta iota zeta delta
    [newConn br set_req negb Method URL_ ProtocolMajor ProtocolMinor Header ContentLength].
  destruct (readHeaders b header0) as [[b2 h] [[]|e|msg|]]; try discriminate.
  simpl in Hle.
  destruct (Get h HeaderContentLength) as [s|];
    [destruct (Atoi s) as [n [|]]; cbv beta iota; [discriminate|]|];
    destruct (Get h HeaderExpect) as [s'|] eqn:Hexpect;
    destruct ((1 <? major)%Z || (major =? 1)%Z && (1 <=? minor)%Z);
    destruct (Get h HeaderConnection) as [s''|];
    try destruct (bool_decide (ToLower s'' = "close"));
    lazy beta iota zeta delta
      [atLeastHttp11 br bw chunked closeAfterResponse hijacked netConn req
       requestAvail requestErr respondCalled responseAvail responseErr write100Continue
       set_atLeastHttp11 set_br set_bw set_chunked set_closeAfterResponse set_netConn
       set_req set_requestAvail set_requestErr set_respondCalled set_responseAvail
       set_responseErr set_write100Continue
       Method URL_ ProtocolMajor ProtocolMinor Header ContentLength];
    intros [= <- <-]; simpl;
    (repeat split; try lia; eexists; split; [reflexivity|]; simpl; rewrite Hexpect;
     reflexivity).
Qed.

End LoopFacts.

Section FinishFacts.
Context {X : Externals}.

(** [finish] after an accepted [Respond]: it returns, and
    close-after-response is then set if it was, or if the counter of the
    declared length is not zero. *)
Lemma finish_after_Respond (c : conn) (w : world) (b : Writer) :
  netConn c = true ->
  respondCalled c = true ->
  bw c = Some b ->
  exists c' w',
    finish (c, w) = Ok (None, (c', w'))
    /\ reader w' = reader w
    /\ closeAfterResponse c' = closeAfterResponse c || negb (responseAvail c =? 0)%Z.
Proof.
  intros Hconn Hcalled Hbw.
  destruct c as [http11 rd wr ch close hij nc rq ravail rerr called savail serr cont].
  mrun_in Hconn. mrun_in Hcalled. mrun_in Hbw. subst nc called wr.
  set (c1 := mkConn http11 rd (Some b) ch (close || negb (savail =? 0)%Z) hij true rq ravail
               rerr true savail serr cont).
  destruct (Flush_writes c1 w b eq_refl eq_refl)
    as (e & c2 & w2 & Hflush & Hf & Hr & Hc2 & _).
  destruct c2 as [http11' rd' wr' ch' close' hij' nc' rq' ravail' rerr' called' savail' serr'
                    cont'].
  unfold frameResponse, c1 in Hf. mrun_in Hf. injection Hf as -> -> -> -> -> -> -> -> -> -> ->.
  clear Hc2.
  assert (finish
            (mkConn http11 rd (Some b) ch close hij true rq ravail rerr true savail serr cont, w)
          = bind Flush
              (fun _ => bind getConn (fun c =>
                 bind (if chunked c
                       then bind (WriteString ("0" +:+ str CRLF +:+ str CRLF))
                              (fun '(n, e) => modify (set_responseErr e))
                       else ret tt)
                   (fun _ => bind (modify (fun c => match responseErr c with
                                          | None => set_responseErr (Some ErrResponseBodyClosed) c
                                          | Some _ => c
                                          end))
                     (fun _ => bind (modify (set_netConn false))
                       (fun _ => bind (modify (set_br false))
                         (fun _ => bind (modify (set_bw None)) (fun _ => ret None)))))))
              (c1, w)) as ->.
  { unfold finish, c1. destruct savail; destruct close; reflexivity. }
  rewrite (bind_Ok _ _ _ _ _ Hflush).
  unfold WriteString, netConnWrite.
  destruct ch.
  - mrun. destruct (netWrite (net w2) (bytes ("0" +:+ str CRLF +:+ str CRLF))) as [n' [k e']].
    mrun. destruct e'; mrun; eexists _, _; (split; [reflexivity|]); split; auto.
  - mrun. destruct serr'; mrun; eexists _, _; (split; [reflexivity|]); split; auto.
Qed.

(** [finish] returns on every connection in use that has not been taken
    over, whether [Respond] was called or not. *)
Lemma finish_returns (c : conn) (w : world) :
  attached c ->
  hijacked c = false ->
  exists c' w',
    finish (c, w) = Ok (None, (c', w'))
    /\ reader w' = reader w
    /\ (closeAfterResponse c = true -> closeAfterResponse c' = true).
Proof.
  intros (Hconn & Hbr & Hbuf) Hhij.
  destruct (respondCalled c) eqn:Hcalled.
  - destruct (bw c) as [b|] eqn:Hbw; [|congruence].
    destruct (finish_after_Respond c w b Hconn Hcalled Hbw) as (c' & w' & Hrun & Hr & Hclose).
    exists c', w'. repeat split; auto. intros H. rewrite Hclose, H. reflexivity.
  - destruct (Respond_returns StatusOK
                (NewStringsMap [HeaderContentType; "text/html charset=utf-8"]) c w
                Hhij Hcalled Hconn)
      as (c1 & w1 & Hresp & Hf & Hr & Hc1 & b1 & Hb1 & _).
    assert (respondCalled c1 = true) as Hcalled1
      by (rewrite (frame_field respondCalled _ _ (fun _ => eq_refl) Hf); reflexivity).
    destruct (finish_after_Respond c1 w1 b1 Hc1 Hcalled1 Hb1) as (c' & w' & Hrun & Hr' & Hclose).
    exists c', w'.
    assert (finish (c, w) = finish (c1, w1)) as ->.
    { unfold finish. rewrite !bind_getConn. cbv beta iota delta [fst].
      rewrite Hcalled, Hcalled1. cbv beta iota delta [negb].
      rewrite !bind_assoc. unfold Request_Respond.
      rewrite (bind_Ok _ _ _ _ _ Hresp). rewrite !bind_ret. reflexivity. }
    split; [exact Hrun|]. split; [congruence|].
    intros H. rewrite Hclose.
    rewrite (frame_field closeAfterResponse _ _ (fun _ => eq_refl) Hf).
    unfold committed, closeDecided. simpl. rewrite H. reflexivity.
Qed.

End FinishFacts.

Section ServeFacts.
Context {X : Externals}.

Lemma attached_prepared (w w' : world) (c : conn) :
  prepare (newConn, w) = Ok (None, (c, w')) -> attached c /\ hijacked c = false.
Proof.
  intros H. apply prepare_Ok in H
    as (_ & _ & Hconn & Hbr & Hbw & Hhij & Hcalled & _).
  unfold attached. rewrite Hbw. auto.
Qed.

(** [prepare] returns. *)
Lemma prepare_returns (w : world) :
  match prepare (newConn, w) with
  | Ok _ | Panic _ => True
  | Err _ | NoFuel => False
  end.
Proof.
  unfold prepare.
  cbv beta iota zeta delta [newConn br set_req negb].
  destruct (readStatusLine (reader w) NewRequest) as [[b r] [e|]]; [exact I|].
  pose proof (readHeaders_returns b (Header r)) as [Hfuel _].
  destruct (readHeaders b (Header r)) as [[b2 h] [[]|e|msg|]];
    [|exact I|exact I|simpl in Hfuel; congruence].
  cbv beta iota zeta delta [Header].
  destruct (Get h HeaderContentLength) as [s|];
    [destruct (Atoi s) as [n [|]]|]; exact I.
Qed.

(** A call of the application returns or panics on a connection in
    use. *)
Lemma runOp_returns (o : op) (c : conn) (w : world) :
  attached c ->
  (exists c' w', runOp o (c, w) = Ok (tt, (c', w')))
  \/ (exists msg, runOp o (c, w) = Panic msg).
Proof.
  intros (Hconn & Hbr & Hbuf). destruct o as [n|status header|p| |];
    cbv beta iota delta [runOp].
  - destruct (requestReader_Read_runs n c w Hconn Hbr) as (q & e & c1 & w1 & Hread & _).
    left. rewrite (bind_Ok _ _ _ _ _ Hread). eauto.
  - destruct (hijacked c) eqn:Hhij; [|destruct (respondCalled c) eqn:Hcalled].
    + left. rewrite (bind_Ok _ _ _ _ _ (Respond_rejected status header c w (or_introl Hhij))).
      eauto.
    + left. rewrite (bind_Ok _ _ _ _ _ (Respond_rejected status header c w (or_intror Hcalled))).
      eauto.
    + destruct (Respond_returns status header c w Hhij Hcalled Hconn)
        as (c1 & w1 & Hresp & _).
      left. rewrite (bind_Ok _ _ _ _ _ Hresp). eauto.
  - destruct (bw c) as [b|] eqn:Hbw.
    + destruct (Write_writes p c w b Hconn Hbw Hbuf) as (r & c1 & w1 & Hw & _).
      left. rewrite (bind_Ok _ _ _ _ _ Hw). eauto.
    + right. rewrite (bind_Panic _ _ _ _ (Write_no_writer p c w Hbw)). eauto.
  - destruct (bw c) as [b|] eqn:Hbw.
    + destruct (Flush_writes c w b Hconn Hbw) as (r & c1 & w1 & Hw & _).
      left. rewrite (bind_Ok _ _ _ _ _ Hw). eauto.
    + right. rewrite (bind_Panic _ _ _ _ (Flush_no_writer c w Hbw)). eauto.
  - left. unfold Hijack. rewrite bind_ret. eauto.
Qed.

Lemma runOps_returns (ops : list op) (c : conn) (w : world) :
  attached c ->
  (exists c' w', runOps ops (c, w) = Ok (tt, (c', w')))
  \/ (exists msg, runOps ops (c, w) = Panic msg).
Proof.
  revert c w. induction ops as [|o ops IH]; intros c w Hatt.
  - left. eexists _, _. reflexivity.
  - rewrite runOps_cons.
    destruct (runOp_returns o c w Hatt) as [(c1 & w1 & Hop)|(msg & Hop)].
    + rewrite (bind_Ok _ _ _ _ _ Hop).
      apply IH. eapply runOp_kept; eassumption.
    + right. rewrite (bind_Panic _ _ _ _ Hop). eauto.
Qed.

Lemma ServeWeb_prepared (handler : Handler) (c : conn) (w : world) (r : Request) :
  req c = Some r -> ServeWeb handler (c, w) = runOps (handler r) (c, w).
Proof.
  intros H. unfold ServeWeb. rewrite bind_getConn. cbv beta iota delta [fst].
  rewrite H. reflexivity.
Qed.

(** One turn of the loop of [serveConnection] on a request that
    [prepare] has read. *)
Lemma serveLoop_turn (fuel : nat) (handler : Handler) (w0 w w1 w2 : world)
    (c c1 c2 : conn) :
  prepare (newConn, w0) = Ok (None, (c, w)) ->
  ServeWeb handler (c, w) = Ok (tt, (c1, w1)) ->
  hijacked c1 = false ->
  finish (c1, w1) = Ok (None, (c2, w2)) ->
  serveLoop (S fuel) handler w0 =
    if closeAfterResponse c2 then Ok (Closed (closeWorld w2)) else serveLoop fuel handler w2.
Proof.
  intros Hprep Hserve Hhij Hfin. unfold serveLoop. cbv beta iota.
  rewrite Hprep, Hserve, Hhij, Hfin. reflexivity.
Qed.

(** The worker never returns without closing the connection, and it does
    not run out of turns. *)
Lemma serveLoop_closes (fuel : nat) (handler : Handler) (w : world) :
  length (rdata (reader w)) < fuel ->
  (exists w', serveLoop fuel handler w = Ok (Closed w'))
  \/ (exists msg, serveLoop fuel handler w = Panic msg).
Proof.
  revert w. induction fuel as [|fuel IH]; intros w Hfuel; [lia|].
  pose proof (prepare_returns w) as Hret.
  destruct (prepare (newConn, w)) as [[[e|] [c w1]]|e|msg|] eqn:Hprep; try contradiction.
  - left. unfold serveLoop. cbv beta iota. rewrite Hprep. eauto.
  - destruct (attached_prepared _ _ _ Hprep) as [Hatt Hhij].
    destruct (prepare_Ok _ _ _ Hprep) as (_ & Hlt & _ & _ & _ & _ & _ & _ & _ & _ & r & Hreq & _).
    pose proof (ServeWeb_prepared handler c w1 r Hreq) as Hserve.
    destruct (runOps_returns (handler r) c w1 Hatt) as [(c2 & w2 & Hops)|(msg & Hops)].
    + rewrite Hops in Hserve.
      destruct (runOps_kept _ _ _ _ _ Hatt Hops) as (Hatt2 & Hkept & Hle).
      assert (hijacked c2 = false) as Hhij2 by (destruct Hkept as [-> _]; exact Hhij).
      destruct (finish_returns c2 w2 Hatt2 Hhij2) as (c3 & w3 & Hfin & Hr & _).
      rewrite (serveLoop_turn fuel handler w w1 w2 w3 c c2 c3 Hprep Hserve Hhij2 Hfin).
      destruct (closeAfterResponse c3); [eauto|].
      apply IH. rewrite Hr. lia.
    + right. unfold serveLoop. cbv beta iota. rewrite Hprep, Hserve, Hops. eauto.
  - right. unfold serveLoop. cbv beta iota. rewrite Hprep. eauto.
Qed.

Lemma serveConnection_closes (n : Net) (input : list ascii) (handler : Handler) :
  (exists w', serveConnection n input handler = Ok (Closed w'))
  \/ (exists msg, serveConnection n input handler = Panic msg).
Proof. apply serveLoop_closes. simpl. lia. Qed.

End ServeFacts.

(** C2, at a request whose handler calls [Hijack] and nothing else.
    [Hijack] returns no connection and no buffered bytes, and leaves the
    connection as it was; the worker then finishes the response itself (it
    writes the default response on the stream) and closes the stream. *)
Theorem Hijack_not_granted :
  (forall s : state, Hijack s = Ok ((None, None, None), s))
  /\ serveConnection (X := Std.externals) freshNet
       (bytes "GET / HTTP/1.1" ++ CRLF ++ CRLF) (fun _ => [OpHijack])
     = Ok (Closed
             {| net := {| sent := bytes "HTTP/1.1 200 OK" ++ CRLF
                                  ++ bytes "Content-Type: text/html charset=utf-8" ++ CRLF
                                  ++ bytes "Transfer-Encoding: chunked" ++ CRLF ++ CRLF
                                  ++ bytes "0" ++ CRLF ++ CRLF;
                          budget := None; closed := true |};
                reader := {| rsize := defaultBufSize; rdata := [] |} |}).
Proof.
  split.
  - intros s. reflexivity.
  - vm_compute. reflexivity.
Qed.

Section HijackFacts.
Context {X : Externals}.

(** No call of the application marks the connection as taken over, so the
    worker never leaves the loop without closing the connection. *)
Lemma runOps_not_hijacked (ops : list op) (c c' : conn) (w w' : world) :
  attached c ->
  runOps ops (c, w) = Ok (tt, (c', w')) ->
  hijacked c' = hijacked c.
Proof.
  intros Hatt Hrun. destruct (runOps_kept ops c c' w w' Hatt Hrun) as (_ & Hkept & _).
  destruct Hkept as [H _]. exact H.
Qed.

End HijackFacts.

(** C6, as stated, fails: the request declares [Expect: 100-continue],
    the handler commits its response and then reads the body for the first
    time; the read returns the error [Respond] has latched and the interim
    response is not written: nothing at all has reached the stream, and the
    interim response is still owed in the flag.  When the handler reads
    first, and twice, the interim response is on the stream once. *)
Lemma continue_counterexample :
  (exists c w,
     afterCalls (X := Std.externals) expectRequest [] = Some (c, w)
     /\ write100Continue c = true /\ sent (net w) = [])
  /\ (exists c w,
     afterCalls (X := Std.externals) expectRequest [OpRespond StatusOK ∅; OpRead 5]
     = Some (c, w)
     /\ write100Continue c = true /\ sent (net w) = [])
  /\ (exists c w,
     afterCalls (X := Std.externals) expectRequest [OpRead 3; OpRead 3]
     = Some (c, w)
     /\ write100Continue c = false /\ sent (net w) = continuePreface).
Proof.
  split; [|split]; vm_compute; eexists _, _; (split; [reflexivity|]); split; reflexivity.
Qed.

Section ContinueFacts.
Context {X : Externals}.

Lemma owesContinue_kept (c c' : conn) :
  kept c c' -> owesContinue c = false -> owesContinue c' = false.
Proof.
  unfold kept, owesContinue. intros (_ & _ & _ & Hcont & _ & _ & Herr) Howes.
  destruct (write100Continue c) eqn:Hflag; simpl in Howes.
  - destruct (requestErr c) as [e|]; [|discriminate].
    destruct (Herr ltac:(eauto)) as [e' ->]. apply andb_false_r.
  - rewrite (Hcont eq_refl). reflexivity.
Qed.

(** C6, as amended.  [prepare] writes nothing and records that the
    interim response is owed exactly when the request has an [Expect]
    header whose value, in lower case, is [100-continue].  A read of the
    body writes the interim response, in one write and before anything
    else, exactly when it is owed and no response has been committed and
    no earlier read has failed; after a read it is not owed any more.
    Once it is not owed, no call of the application makes it owed again:
    it is written at most once, and never for a request without the
    header. *)
Theorem continue_on_first_read :
  (forall (w w' : world) (c : conn),
     prepare (newConn, w) = Ok (None, (c, w')) ->
     net w' = net w
     /\ requestErr c = None
     /\ exists r, req c = Some r
          /\ (write100Continue c = true
              <-> exists s, Get (Header r) HeaderExpect = Some s
                    /\ ToLower s = "100-continue"))
  /\ (forall (n : nat) (c : conn) (w : world),
        netConn c = true -> br c = true ->
        exists q e c' w',
          requestReader_Read n (c, w) = Ok ((q, e), (c', w'))
          /\ net w' = (if write100Continue c
                          && bool_decide (requestErr c = None)
                       then fst (netWrite (net w) continuePreface)
                       else net w)
          /\ owesContinue c' = false)
  /\ (forall (ops : list op) (c c' : conn) (w w' : world),
        attached c -> owesContinue c = false ->
        runOps ops (c, w) = Ok (tt, (c', w')) ->
        owesContinue c' = false).
Proof.
  split; [|split].
  - intros w w' c Hprep.
    apply prepare_Ok in Hprep
      as (Hnet & _ & _ & _ & _ & _ & _ & Herr & _ & _ & r & Hreq & Hflag).
    split; [exact Hnet|]. split; [exact Herr|].
    exists r. split; [exact Hreq|]. rewrite Hflag.
    destruct (Get (Header r) HeaderExpect) as [s|].
    + split.
      * intros H. apply bool_decide_eq_true_1 in H. eauto.
      * intros (s' & [= <-] & H). apply bool_decide_eq_true_2. exact H.
    + split; [discriminate|]. intros (s' & H & _). discriminate.
  - intros n c w Hconn Hbr.
    destruct (requestReader_Read_runs n c w Hconn Hbr)
      as (q & e & c' & w' & Hread & Hnet & Hflag & Hf & Hsame & _).
    exists q, e, c', w'. split; [exact Hread|]. split.
    + rewrite Hnet. unfold owesContinue.
      destruct (requestErr c); reflexivity.
    + unfold owesContinue. rewrite Hflag.
      destruct (write100Continue c); [|reflexivity].
      destruct (requestErr c) as [e0|] eqn:Herr; [|reflexivity].
      rewrite (Hsame ltac:(eauto)), Herr. reflexivity.
  - intros ops c c' w w' Hatt Howes Hrun.
    destruct (runOps_kept ops c c' w w' Hatt Hrun) as (_ & Hkept & _).
    exact (owesContinue_kept c c' Hkept Howes).
Qed.

End ContinueFacts.

(** The first read of the body of [expectRequest], straight after
    [prepare]: the interim response is written, and it is not owed
    afterwards. *)
Lemma continue_on_first_read_witness :
  exists q e c' w',
    requestReader_Read 5
      (set_write100Continue true (set_requestAvail 5 newConn),
       {| net := freshNet; reader := NewReader (bytes "hello") |})
    = Ok ((q, e), (c', w'))
    /\ net w' = fst (netWrite freshNet continuePreface)
    /\ owesContinue c' = false.
Proof.
  exact (proj1 (proj2 (@continue_on_first_read Std.externals)) 5
           (set_write100Continue true (set_requestAvail 5 newConn))
           {| net := freshNet; reader := NewReader (bytes "hello") |}
           eq_refl eq_refl).
Defined.


Section LengthDeclared.
Context {X : Externals}.

(** A write that fits the buffer is kept there. *)
Lemma Write_fits (p : list ascii) (c : conn) (w : world) (k : writerKind) (buf : list ascii) :
  bw c = Some {| wkind := k; wbuf := buf; werr := None |} ->
  length buf + length p <= defaultBufSize ->
  Write p (c, w) =
    Ok ((length p, None),
        (set_bw (Some {| wkind := k; wbuf := buf ++ p; werr := None |}) c, w)).
Proof.
  intros Hbw Hfits.
  destruct c as [http11 rd wr ch close hij nc rq ravail rerr called savail serr cont].
  mrun_in Hbw. subst wr. unfold Write. mrun.
  destruct p as [|a p].
  - simpl. rewrite app_nil_r. reflexivity.
  - assert (2 * length (a :: p) + 2 = S (S (2 * length p + 2))) as -> by (simpl; lia).
    cbn [bwWriteLoop]. cbn [length Nat.eqb]. mrun. cbn [wbuf wkind werr].
    assert (defaultBufSize - length buf = S (defaultBufSize - length buf - 1)) as Havail
      by (simpl in Hfits; lia).
    rewrite Havail. cbn [Nat.eqb]. rewrite <- Havail.
    assert (min (defaultBufSize - length buf) (S (length p)) = S (length p)) as ->
      by (simpl in Hfits; lia).
    rewrite firstn_all2 by (simpl; lia).
    rewrite skipn_all2 by (simpl; lia).
    reflexivity.
Qed.

Lemma Get_headerChecked (status : Z) (header : StringsMap) (c : conn) :
  Get (headerChecked status header c) HeaderContentLength = Get header HeaderContentLength.
Proof.
  unfold headerChecked, Get, Set_.
  destruct (status =? StatusNotModified)%Z; destruct (closeDecided c);
    rewrite ?lookup_insert_ne by discriminate;
    rewrite ?lookup_delete_ne by discriminate; reflexivity.
Qed.


(** Writes that fit the buffer together are kept there. *)
Lemma runOps_writes_fit (chunks : list (list ascii)) (c : conn) (w : world)
    (k : writerKind) (buf : list ascii) :
  bw c = Some {| wkind := k; wbuf := buf; werr := None |} ->
  length buf + length (concat chunks) <= defaultBufSize ->
  runOps (map OpWrite chunks) (c, w) =
    Ok (tt, (set_bw (Some {| wkind := k; wbuf := buf ++ concat chunks; werr := None |}) c, w)).
Proof.
  revert c buf. induction chunks as [|p chunks IH]; intros c buf Hbw Hfits.
  - simpl. rewrite app_nil_r.
    destruct c as [http11 rd wr ch close hij nc rq ravail rerr called savail serr cont].
    mrun_in Hbw. subst wr. reflexivity.
  - simpl concat in *. rewrite length_app in Hfits.
    change (map OpWrite (p :: chunks)) with (OpWrite p :: map OpWrite chunks).
    rewrite runOps_cons. cbv beta iota delta [runOp].
    rewrite bind_assoc.
    rewrite (bind_Ok _ _ _ _ _ (Write_fits p c w k buf Hbw ltac:(lia))).
    rewrite bind_ret.
    rewrite (IH _ (buf ++ p)); [|reflexivity|rewrite length_app; lia].
    rewrite <- app_assoc.
    destruct c as [http11 rd wr ch close hij nc rq ravail rerr called savail serr cont].
    reflexivity.
Qed.


End LengthDeclared.


Section RouterFacts.
Context {X : Externals}.

(** Routes that do not match are passed over. *)
Lemma find_skip (pre rest : list route) (path method : string) :
  noneMatches pre path ->
  find (pre ++ rest) path method = find rest path method.
Proof.
  induction 1 as [|r pre Hr Hpre IH]; [reflexivity|].
  simpl. rewrite Hr. simpl. exact IH.
Qed.

Lemma find_none (routes : list route) (path method : string) :
  noneMatches routes path ->
  find routes path method = Ok (routerError StatusNotFound, [], []).
Proof.
  intros H. rewrite <- (app_nil_r routes). rewrite (find_skip _ _ _ _ H). reflexivity.
Qed.

Lemma length_nonzero {A} (l : list A) : l <> [] -> (length l =? 0) = false.
Proof. destruct l; [congruence|reflexivity]. Qed.

(** C4.  When [r] is the first route that matches the path, no redirect
    is due and the submatches can be unescaped, the handler is the one of
    the method; else the one of [GET] for the method [HEAD]; else the one
    of [*]; else the answer is 405, whatever routes follow.  When no route
    matches, the answer is 404. *)
Theorem find_resolution (pre post : list route) (r : route) (path method : string)
    (values : list string) :
  noneMatches pre path ->
  regexp r path <> [] ->
  (addSlash r = true -> last (bytes path) = Some "/"%char) ->
  unescapeValues (drop 1 (regexp r path)) = Some values ->
  (forall h, handlers r !! method = Some h ->
     find (pre ++ r :: post) path method = Ok (h, names r, values))
  /\ (forall h, handlers r !! method = None -> method = "HEAD" ->
        handlers r !! "GET" = Some h ->
        find (pre ++ r :: post) path method = Ok (h, names r, values))
  /\ (forall h, handlers r !! method = None ->
        (method = "HEAD" -> handlers r !! "GET" = None) ->
        handlers r !! "*" = Some h ->
        find (pre ++ r :: post) path method = Ok (h, names r, values))
  /\ (handlers r !! method = None ->
      (method = "HEAD" -> handlers r !! "GET" = None) ->
      handlers r !! "*" = None ->
      find (pre ++ r :: post) path method = Ok (routerError StatusMethodNotAllowed, [], []))
  /\ find pre path method = Ok (routerError StatusNotFound, [], []).
Proof.
  intros Hpre Hmatch Hslash Hvalues.
  assert (find (pre ++ r :: post) path method =
          match handlers r !! method with
          | Some handler => Ok (handler, names r, values)
          | None =>
              match (if bool_decide (method = "HEAD") then handlers r !! "GET" else None) with
              | Some handler => Ok (handler, names r, values)
              | None =>
                  match handlers r !! "*" with
                  | Some handler => Ok (handler, names r, values)
                  | None => Ok (routerError StatusMethodNotAllowed, [], [])
                  end
              end
          end) as Hfind.
  { rewrite (find_skip _ _ _ _ Hpre). simpl.
    rewrite (length_nonzero _ Hmatch).
    destruct (addSlash r).
    - rewrite (Hslash eq_refl). simpl. rewrite Hvalues. reflexivity.
    - rewrite Hvalues. reflexivity. }
  rewrite Hfind. repeat split.
  - intros h ->. reflexivity.
  - intros h -> -> Hget. rewrite bool_decide_eq_true_2 by reflexivity.
    rewrite Hget. reflexivity.
  - intros h -> Hhead ->.
    destruct (bool_decide (method = "HEAD")) eqn:E; [|reflexivity].
    apply bool_decide_eq_true_1 in E. rewrite (Hhead E). reflexivity.
  - intros -> Hhead ->.
    destruct (bool_decide (method = "HEAD")) eqn:E; [|reflexivity].
    apply bool_decide_eq_true_1 in E. rewrite (Hhead E). reflexivity.
  - apply find_none. exact Hpre.
Qed.



Lemma append_assoc (a b c : string) : (a +:+ b) +:+ c = a +:+ b +:+ c.
Proof.
  induction a as [|x a IH]; [reflexivity|].
  change (String x ((a +:+ b) +:+ c) = String x (a +:+ b +:+ c)). rewrite IH. reflexivity.
Qed.



End RouterFacts.

(** Three routes: [/y] for [GET]; [/x] for [GET]; [/x] again for every
    method.  [POST /x] stops at the second route with 405, [HEAD /x] gets
    its [GET] handler, and [/z] matches nothing. *)
Lemma find_resolution_witness :
  let y := {| addSlash := false; regexp := Std.literal "/y"; names := [];
              handlers := {["GET" := AppHandler "y"]} |} in
  let x := {| addSlash := false; regexp := Std.literal "/x"; names := [];
              handlers := {["GET" := AppHandler "x"]} |} in
  let any := {| addSlash := false; regexp := Std.literal "/x"; names := [];
                handlers := {["*" := AppHandler "any"]} |} in
  find (X := Std.externals) [y; x; any] "/x" "POST"
    = Ok (routerError StatusMethodNotAllowed, [], [])
  /\ find (X := Std.externals) [y; x; any] "/x" "HEAD" = Ok (AppHandler "x", [], [])
  /\ find (X := Std.externals) [y] "/x" "POST" = Ok (routerError StatusNotFound, [], []).
Proof.
  intros y x any.
  assert (noneMatches [y] "/x") as Hpre by (repeat constructor).
  assert (regexp x "/x" <> []) as Hmatch by discriminate.
  assert (addSlash x = true -> last (bytes "/x") = Some "/"%char) as Hslash by discriminate.
  destruct (find_resolution (X := Std.externals) [y] [any] x "/x" "POST" []
              Hpre Hmatch Hslash eq_refl) as (_ & _ & _ & Hpost & Hnone).
  destruct (find_resolution (X := Std.externals) [y] [any] x "/x" "HEAD" []
              Hpre Hmatch Hslash eq_refl) as (_ & Hhead & _).
  split; [|split].
  - apply Hpost; [reflexivity|discriminate|reflexivity].
  - apply Hhead; reflexivity.
  - exact Hnone.
Defined.


Section CompileFacts.
Context {X : Externals}.

Lemma findParameter_end (off : nat) (l : list ascii) (a : submatchIndex) :
  findParameter off l = Some a -> 0 < a1 a /\ 0 < length l.
Proof.
  revert off. induction l as [|c l IH]; intros off; [discriminate|].
  cbn [findParameter].
  destruct (matchParameterHere (c :: l)) as [[n [m|]]|].
  - intros [= <-]. simpl. lia.
  - intros [= <-]. simpl. lia.
  - intros H. destruct (IH _ H). simpl. lia.
Qed.

(** The loop of [compilePattern] with the names it has stored so far:
    it panics as soon as a ninth name is to be stored, and returns the
    names of the pattern otherwise. *)
Lemma compileLoop_names (fuel : nat) (sep : string) (pattern : list ascii) (s : cstate) :
  length pattern < fuel ->
  length (cnames s) = 8 ->
  ci s <= 8 ->
  (8 < ci s + length (namedPlaceholdersFrom fuel pattern) ->
   compileLoop fuel sep pattern s = Panic indexOutOfRange)
  /\ (ci s + length (namedPlaceholdersFrom fuel pattern) <= 8 ->
      exists s', compileLoop fuel sep pattern s = Ok s'
        /\ take (ci s') (cnames s')
           = take (ci s) (cnames s) ++ namedPlaceholdersFrom fuel pattern).
Proof.
  revert pattern s. induction fuel as [|fuel IH]; intros pattern s Hfuel Hlen Hi; [lia|].
  cbn [compileLoop namedPlaceholdersFrom].
  destruct (findParameter 0 pattern) as [a|] eqn:Hfind.
  2: { simpl. split; [lia|]. intros _. eexists. split; [reflexivity|].
       simpl. rewrite app_nil_r. reflexivity. }
  destruct (findParameter_end _ _ _ Hfind) as [Ha1 Hnonempty].
  assert (length (drop (a1 a) pattern) < fuel) as Hfuel'
    by (rewrite length_drop; lia).
  destruct (bool_decide (str (slice (a2 a) (a3 a) pattern) = "")) eqn:Hname;
    cbn [negb andb app].
  - (* an unnamed placeholder *)
    apply (IH (drop (a1 a) pattern)
             {| buf := _; cnames := cnames s; ci := ci s |} Hfuel' Hlen Hi).
  - (* a named placeholder *)
    destruct (length (cnames s) <=? ci s) eqn:Hfull.
    + apply Nat.leb_le in Hfull. split; [reflexivity|]. simpl. lia.
    + apply Nat.leb_gt in Hfull.
      set (name := str (slice (a2 a) (a3 a) pattern)) in *.
      destruct (IH (drop (a1 a) pattern)
                  {| buf := (match a45 a with
                             | Some (a4, a5) =>
                                 ((buf s +:+ QuoteMeta (str (slice 0 (a0 a) pattern))) +:+ "(")
                                 +:+ str (slice (a4 + 1) a5 pattern)
                             | None =>
                                 ((buf s +:+ QuoteMeta (str (slice 0 (a0 a) pattern))) +:+ "(")
                                 +:+ "[^" +:+ sep +:+ "]+"
                             end) +:+ ")";
                     cnames := <[ci s := name]> (cnames s); ci := ci s + 1 |} Hfuel')
        as [Hpanic Hok].
      { simpl. rewrite length_insert. exact Hlen. }
      { simpl. lia. }
      simpl in Hpanic, Hok. split.
      * intros H. apply Hpanic. simpl in H. lia.
      * intros H. destruct Hok as (s' & Hrun & Hnames); [simpl in H; lia|].
        exists s'. split; [exact Hrun|]. rewrite Hnames.
        rewrite Nat.add_1_r.
        rewrite (take_S_r _ _ name) by (apply list_lookup_insert_eq; lia).
        rewrite take_insert_ge by lia.
        rewrite <- app_assoc. reflexivity.
Qed.

(** The names [compilePattern] returns are the named placeholders of the
    pattern, when they are at most eight. *)
Lemma compileSource_names (pattern : string) (addSlash : bool) (sep : string) :
  length (namedPlaceholders pattern) <= 8 ->
  exists source, compileSource pattern addSlash sep = Ok (source, namedPlaceholders pattern).
Proof.
  intros H. unfold compileSource.
  destruct (compileLoop_names (S (String.length pattern)) sep (bytes pattern)
              {| buf := "^"; cnames := replicate 8 ""; ci := 0 |})
    as [_ Hok]; [rewrite length_bytes; lia|reflexivity|simpl; lia|].
  destruct Hok as (s' & -> & Hnames); [exact H|].
  rewrite Hnames. eexists. reflexivity.
Qed.

(** C10.  A pattern with more than eight named placeholders makes the
    pattern compiler panic with an index out of range, and with it the
    registration of the pattern in a path router or a host router. *)
Theorem compilePattern_panics (pattern : string) (addSlash : bool) (sep : string) :
  8 < length (namedPlaceholders pattern) ->
  compilePattern pattern addSlash sep = Panic indexOutOfRange
  /\ HostRouter_compile pattern = Panic indexOutOfRange
  /\ (forall (router : Router) (handlers : list arg) (rest : list ascii),
        bytes pattern = "/"%char :: rest ->
        handlers <> [] ->
        length handlers mod 2 = 0 ->
        Register router pattern handlers = Panic indexOutOfRange).
Proof.
  intros H.
  assert (forall slash sep', compilePattern pattern slash sep' = Panic indexOutOfRange)
    as Hpanic.
  { intros slash sep'. unfold compilePattern, compileSource.
    destruct (compileLoop_names (S (String.length pattern)) sep' (bytes pattern)
                {| buf := "^"; cnames := replicate 8 ""; ci := 0 |})
      as [Hp _]; [rewrite length_bytes; lia|reflexivity|simpl; lia|].
    rewrite Hp by exact H. reflexivity. }
  split; [apply Hpanic|]. split; [apply Hpanic|].
  intros router handlers rest Hslash Hne Heven.
  unfold Register. rewrite Hslash.
  assert ((length handlers mod 2 =? 0) = true) as -> by (apply Nat.eqb_eq; exact Heven).
  rewrite (length_nonzero _ Hne). cbn [negb orb].
  rewrite Hpanic. reflexivity.
Qed.

End CompileFacts.

(** Nine placeholders panic; eight compile to an expression with eight
    groups. *)
Lemma compilePattern_panics_witness :
  compilePattern (X := Std.externals) (patternOf ["a"; "b"; "c"; "d"; "e"; "f"; "g"; "h"; "i"])
    false "/" = Panic indexOutOfRange
  /\ Register (X := Std.externals) NewRouter
       (patternOf ["a"; "b"; "c"; "d"; "e"; "f"; "g"; "h"; "i"])
       [ArgString "GET"; ArgHandler "nine"] = Panic indexOutOfRange.
Proof.
  destruct (compilePattern_panics (X := Std.externals)
              (patternOf ["a"; "b"; "c"; "d"; "e"; "f"; "g"; "h"; "i"]) false "/")
    as (Hcompile & _ & Hregister).
  - vm_compute. lia.
  - split; [exact Hcompile|].
    apply (Hregister NewRouter [ArgString "GET"; ArgHandler "nine"]
             (bytes "<a>/<b>/<c>/<d>/<e>/<f>/<g>/<h>/<i>")).
    + reflexivity.
    + discriminate.
    + reflexivity.
Defined.

Example compileSource_eight :
  compileSource (X := Std.externals) (patternOf ["a"; "b"; "c"; "d"; "e"; "f"; "g"; "h"])
    false "/"
  = Ok ("^/([^/]+)/([^/]+)/([^/]+)/([^/]+)/([^/]+)/([^/]+)/([^/]+)/([^/]+)$",
        ["a"; "b"; "c"; "d"; "e"; "f"; "g"; "h"]).
Proof. vm_compute. reflexivity. Qed.

(** The patterns of the specification. *)
Example compileSource_user :
  compileSource (X := Std.externals) "/user/<id>" false "/" = Ok ("^/user/([^/]+)$", ["id"])
  /\ compileSource (X := Std.externals) "/user/<id:[0-9]+>" false "/"
     = Ok ("^/user/([0-9]+)$", ["id"])
  /\ compileSource (X := Std.externals) "/files/" true "/" = Ok ("^/files/?$", [])
  /\ compileSource (X := Std.externals) "<sub:[a-z]+>.example.com" false "."
     = Ok ("^([a-z]+)\.example\.com$", ["sub"]).
Proof. vm_compute. repeat split; reflexivity. Qed.

Section PlaceholderFacts.
Context {X : Externals}.

Lemma skipBytes_prefix (name rest : list ascii) (f : ascii -> bool) (c : ascii) :
  Forall (fun x => f x = true) name -> f c = false ->
  skipBytes (name ++ c :: rest) f = length name.
Proof.
  intros Hname Hc. induction Hname as [|x name Hx _ IH]; simpl.
  - rewrite Hc. reflexivity.
  - rewrite Hx, IH. reflexivity.
Qed.

Lemma bytes_patternOf (name : string) (names : list string) :
  bytes (patternOf (name :: names))
  = "/"%char :: "<"%char :: bytes name ++ ">"%char :: bytes (patternOf names).
Proof.
  cbn [patternOf foldr]. rewrite !bytes_app. reflexivity.
Qed.

Lemma findParameter_patternOf (name : string) (names : list string) :
  Forall (fun c => isMethodByte c = true) (bytes name) ->
  findParameter 0 (bytes (patternOf (name :: names)))
  = Some {| a0 := 1; a1 := 1 + length (bytes name) + 2; a2 := 2;
            a3 := 2 + length (bytes name); a45 := None |}.
Proof.
  intros Hname. rewrite bytes_patternOf.
  cbn [findParameter matchParameterHere].
  rewrite (skipBytes_prefix (bytes name) _ isMethodByte ">"%char Hname eq_refl).
  rewrite drop_app_length. reflexivity.
Qed.

(** The placeholders of [/<n1>/<n2>/...] are [n1], [n2], ... *)
Lemma namedPlaceholdersFrom_patternOf (names : list string) (fuel : nat) :
  Forall validName names ->
  length names < fuel ->
  namedPlaceholdersFrom fuel (bytes (patternOf names)) = names.
Proof.
  intros Hvalid. revert fuel.
  induction Hvalid as [|name names [Hne Hname] _ IH]; intros fuel Hfuel.
  - destruct fuel; reflexivity.
  - destruct fuel as [|fuel]; [simpl in Hfuel; lia|].
    cbn [namedPlaceholdersFrom]. rewrite (findParameter_patternOf _ _ Hname).
    cbn [a1 a2 a3]. rewrite bytes_patternOf. unfold slice.
    replace (2 + length (bytes name) - 2) with (length (bytes name)) by lia.
    change (drop 2 ("/"%char :: "<"%char :: bytes name ++ ">"%char :: bytes (patternOf names)))
      with (bytes name ++ ">"%char :: bytes (patternOf names)).
    rewrite take_app_length, str_bytes.
    rewrite bool_decide_eq_false_2 by exact Hne.
    replace (1 + length (bytes name) + 2) with (S (S (length (bytes name) + 1))) by lia.
    cbn [drop]. rewrite drop_app_add'; [|reflexivity]. cbn [drop].
    rewrite IH by (simpl in Hfuel; lia). reflexivity.
Qed.

Lemma length_patternOf (names : list string) :
  length names <= String.length (patternOf names).
Proof.
  induction names as [|name names IH]; [simpl; lia|].
  rewrite <- length_bytes, bytes_patternOf. cbn [length]. rewrite length_app. cbn [length].
  rewrite !length_bytes. lia.
Qed.

Lemma namedPlaceholders_patternOf (names : list string) :
  Forall validName names -> namedPlaceholders (patternOf names) = names.
Proof.
  intros H. apply namedPlaceholdersFrom_patternOf; [exact H|].
  pose proof (length_patternOf names). lia.
Qed.

(** Every pattern [/<n1>/.../<nk>] with more than eight names makes the
    compiler panic. *)
Lemma compilePattern_patternOf_panics (names : list string) (addSlash : bool) (sep : string) :
  Forall validName names -> 8 < length names ->
  compileSource (patternOf names) addSlash sep = Panic indexOutOfRange.
Proof.
  intros Hvalid Hlen. unfold compileSource.
  destruct (compileLoop_names (S (String.length (patternOf names))) sep
              (bytes (patternOf names)) {| buf := "^"; cnames := replicate 8 ""; ci := 0 |})
    as [Hp _]; [rewrite length_bytes; lia|reflexivity|simpl; lia|].
  rewrite Hp; [reflexivity|].
  fold (namedPlaceholders (patternOf names)).
  rewrite (namedPlaceholders_patternOf names Hvalid). simpl. lia.
Qed.

End PlaceholderFacts.

(** The state of [continuation_counterexample] is met by [readHeaders]:
    a header without a value, continued twice.  A continuation of
    whitespace only adds nothing, not even the space. *)
Example readHeaders_untrimmed :
  snd (fst (readHeaders (X := Std.externals)
    (NewReader (bytes "X:" ++ CRLF ++ bytes " b" ++ CRLF ++ bytes " c" ++ CRLF ++ CRLF)) ∅))
  = {["X" := [" b c"]]}
  /\ snd (fst (readHeaders (X := Std.externals)
    (NewReader (bytes "Cookie: a," ++ CRLF ++ bytes "  " ++ CRLF ++ CRLF)) ∅))
  = {["Cookie" := ["a,"]]}.
Proof. vm_compute. split; reflexivity. Qed.

(** * The byte helpers *)

Section TrimFacts.
Context {X : Externals}.

Lemma skipBytes_all (ws q : list ascii) (f : ascii -> bool) :
  Forall (fun c => f c = true) ws -> skipBytes (ws ++ q) f = length ws + skipBytes q f.
Proof.
  intros Hws. induction Hws as [|c ws Hc _ IH]; simpl; [reflexivity|].
  rewrite Hc, IH. reflexivity.
Qed.

Lemma skipBytes_stops (q : list ascii) (f : ascii -> bool) :
  (forall c, head q = Some c -> f c = false) -> skipBytes q f = 0.
Proof.
  destruct q as [|c q]; simpl; [reflexivity|].
  intros H. rewrite (H c eq_refl). reflexivity.
Qed.

Lemma skipBytes_split (p : list ascii) (f : ascii -> bool) :
  skipBytes p f <= length p
  /\ Forall (fun c => f c = true) (take (skipBytes p f) p)
  /\ (forall c, p !! skipBytes p f = Some c -> f c = false).
Proof.
  induction p as [|a p (Hle & Hall & Hstop)]; simpl.
  - split; [lia|]. split; [constructor | intros c Hc; discriminate].
  - destruct (f a) eqn:Ha; simpl.
    + split; [lia|]. split; [constructor; assumption | assumption].
    + split; [lia|]. split; [constructor | intros c Hc; congruence].
Qed.

(** X1.  [skipBytes(p, f)] is the length of the longest prefix of [p] whose
    bytes all satisfy [f]: it is at most [len(p)], every byte before it
    satisfies [f], and the byte at it, when there is one, does not; and it
    is the only index of which these hold. *)
Theorem skipBytes_longest_prefix (p : list ascii) (f : ascii -> bool) :
  (skipBytes p f <= length p
   /\ Forall (fun c => f c = true) (take (skipBytes p f) p)
   /\ (forall c, p !! skipBytes p f = Some c -> f c = false))
  /\ (forall n,
        n <= length p ->
        Forall (fun c => f c = true) (take n p) ->
        (forall c, p !! n = Some c -> f c = false) ->
        skipBytes p f = n).
Proof.
  split; [apply skipBytes_split|].
  intros n Hn Hall Hstop.
  rewrite <- (take_drop n p) at 1.
  rewrite (skipBytes_all _ _ _ Hall), length_take, skipBytes_stops; [lia|].
  intros c Hc. apply Hstop. rewrite <- Hc.
  rewrite <- (Nat.add_0_r n) at 1. rewrite <- lookup_drop.
  destruct (drop n p); reflexivity.
Qed.

Lemma trimWSLeft_app (ws q : list ascii) :
  Forall (fun c => IsSpaceByte c = true) ws ->
  (forall c, head q = Some c -> IsSpaceByte c = false) ->
  trimWSLeft (ws ++ q) = q.
Proof.
  intros Hws Hq. unfold trimWSLeft.
  rewrite (skipBytes_all _ _ _ Hws), (skipBytes_stops _ _ Hq), Nat.add_0_r.
  apply drop_app_length.
Qed.

Lemma rev_reverse {A} (q : list A) : rev q = reverse q.
Proof. apply rev_alt. Qed.

Lemma head_rev {A} (q : list A) : head (rev q) = last q.
Proof. rewrite rev_reverse. apply head_reverse. Qed.

Lemma trimWSRight_app (q ws : list ascii) :
  Forall (fun c => IsSpaceByte c = true) ws ->
  (forall c, last q = Some c -> IsSpaceByte c = false) ->
  trimWSRight (q ++ ws) = q.
Proof.
  intros Hws Hq. unfold trimWSRight.
  rewrite rev_app_distr, skipBytes_all by (apply Forall_rev; assumption).
  rewrite skipBytes_stops by (intros c; rewrite head_rev; apply Hq).
  rewrite length_rev, length_app, Nat.add_0_r.
  replace (length q + length ws - length ws) with (length q) by lia.
  apply take_app_length.
Qed.

Lemma trimWSLeft_split (p : list ascii) :
  exists ws,
    p = ws ++ trimWSLeft p
    /\ Forall (fun c => IsSpaceByte c = true) ws
    /\ (forall c, head (trimWSLeft p) = Some c -> IsSpaceByte c = false).
Proof.
  exists (take (skipBytes p IsSpaceByte) p).
  destruct (skipBytes_split p IsSpaceByte) as (_ & Hall & Hstop).
  unfold trimWSLeft. split; [symmetry; apply take_drop|]. split; [assumption|].
  intros c Hc. apply Hstop.
  rewrite <- Hc. rewrite <- (Nat.add_0_r (skipBytes p IsSpaceByte)) at 1.
  rewrite <- lookup_drop. destruct (drop _ p); reflexivity.
Qed.

Lemma trimWSRight_split (p : list ascii) :
  exists ws,
    p = trimWSRight p ++ ws
    /\ Forall (fun c => IsSpaceByte c = true) ws
    /\ (forall c, last (trimWSRight p) = Some c -> IsSpaceByte c = false).
Proof.
  destruct (skipBytes_split (rev p) IsSpaceByte) as (Hle & Hall & Hstop).
  rewrite length_rev in Hle.
  set (n := skipBytes (rev p) IsSpaceByte) in *.
  exists (drop (length p - n) p).
  unfold trimWSRight. fold n.
  split; [symmetry; apply take_drop|]. split.
  - rewrite rev_reverse, take_reverse in Hall.
    apply (proj1 (Forall_reverse _ _)) in Hall. exact Hall.
  - intros c Hc. apply Hstop.
    rewrite <- Hc. rewrite last_lookup, length_take.
    rewrite rev_reverse.
    destruct (decide (n = length p)) as [->|Hn].
    + rewrite Nat.sub_diag. simpl.
      rewrite lookup_ge_None_2 by (rewrite length_reverse; lia).
      destruct p; reflexivity.
    + rewrite reverse_lookup by lia.
      rewrite lookup_take_lt by lia. f_equal. lia.
Qed.

(** X2.  [trimWSLeft(p)] removes exactly the leading whitespace: [p] is a
    run of whitespace bytes followed by the result, the result does not
    begin with a whitespace byte, and it is the only slice of [p] of which
    both hold. *)
Theorem trimWSLeft_removes_leading (p : list ascii) :
  (exists ws,
     p = ws ++ trimWSLeft p
     /\ Forall (fun c => IsSpaceByte c = true) ws
     /\ (forall c, head (trimWSLeft p) = Some c -> IsSpaceByte c = false))
  /\ (forall ws q,
        p = ws ++ q ->
        Forall (fun c => IsSpaceByte c = true) ws ->
        (forall c, head q = Some c -> IsSpaceByte c = false) ->
        trimWSLeft p = q).
Proof.
  split; [apply trimWSLeft_split|].
  intros ws q -> Hws Hq. apply trimWSLeft_app; assumption.
Qed.

(** X3.  [trimWSRight(p)] removes exactly the trailing whitespace: [p] is
    the result followed by a run of whitespace bytes, the result does not
    end with a whitespace byte, and it is the only slice of [p] of which
    both hold. *)
Theorem trimWSRight_removes_trailing (p : list ascii) :
  (exists ws,
     p = trimWSRight p ++ ws
     /\ Forall (fun c => IsSpaceByte c = true) ws
     /\ (forall c, last (trimWSRight p) = Some c -> IsSpaceByte c = false))
  /\ (forall q ws,
        p = q ++ ws ->
        Forall (fun c => IsSpaceByte c = true) ws ->
        (forall c, last q = Some c -> IsSpaceByte c = false) ->
        trimWSRight p = q).
Proof.
  split; [apply trimWSRight_split|].
  intros q ws -> Hws Hq. apply trimWSRight_app; assumption.
Qed.

(** X4.  The two trims commute, and a trimmed slice is left as it is: in
    [trimWSLeft(trimWSRight(p))] the order does not matter, and the result
    neither begins nor ends with a whitespace byte. *)
Theorem trimWS_commutes (p : list ascii) :
  trimWSLeft (trimWSRight p) = trimWSRight (trimWSLeft p)
  /\ trimWSLeft (trimWSLeft (trimWSRight p)) = trimWSLeft (trimWSRight p)
  /\ trimWSRight (trimWSLeft (trimWSRight p)) = trimWSLeft (trimWSRight p)
  /\ (forall c, head (trimWSLeft (trimWSRight p)) = Some c -> IsSpaceByte c = false)
  /\ (forall c, last (trimWSLeft (trimWSRight p)) = Some c -> IsSpaceByte c = false).
Proof.
  destruct (trimWSRight_split p) as (wr & Hp & Hwr & Hlast).
  destruct (trimWSLeft_split (trimWSRight p)) as (wl & Hq & Hwl & Hhead).
  set (q := trimWSRight p) in *. set (core := trimWSLeft q) in *.
  assert (Hcore : forall c, last core = Some c -> IsSpaceByte c = false).
  { intros c Hc. destruct core as [|a core'] eqn:Ecore; [discriminate|].
    apply Hlast. rewrite Hq. rewrite last_app, Hc. reflexivity. }
  assert (Hcomm : trimWSRight (trimWSLeft p) = core).
  { destruct core as [|a core'] eqn:Ecore.
    - rewrite app_nil_r in Hq.
      assert (Hall : Forall (fun c => IsSpaceByte c = true) p).
      { rewrite Hp, Hq. apply Forall_app. split; assumption. }
      rewrite <- (app_nil_r p) at 1.
      rewrite trimWSLeft_app by (try assumption; intros c; discriminate).
      reflexivity.
    - rewrite Hp, Hq, <- app_assoc.
      rewrite trimWSLeft_app; [|assumption|].
      + apply trimWSRight_app; assumption.
      + intros c Hc. apply Hhead. simpl in *. assumption. }
  split; [symmetry; exact Hcomm|].
  split.
  { rewrite <- (app_nil_l core) at 1. apply trimWSLeft_app; [constructor|assumption]. }
  split.
  { rewrite <- (app_nil_r core) at 1. apply trimWSRight_app; [constructor|assumption]. }
  split; assumption.
Qed.

End TrimFacts.

(** * The request line *)

Section StatusLineFacts.
Context {X : Externals}.

Lemma length_ltb_1 {A} (l : list A) : l <> [] -> (length l <? 1) = false.
Proof. destruct l; [congruence|reflexivity]. Qed.





End StatusLineFacts.


(** * Header lines *)

Section FieldFacts.
Context {X : Externals}.

(** The byte classes of package [web], as far as the lines below need
    them: a token byte is not whitespace, and the colon is neither. *)
Hypothesis token_not_space : forall c, IsTokenByte c = true -> IsSpaceByte c = false.
Hypothesis colon_not_token : IsTokenByte ":" = false.
Hypothesis colon_not_space : IsSpaceByte ":" = false.

Lemma space_not_token (c : ascii) : IsSpaceByte c = true -> IsTokenByte c = false.
Proof.
  intros Hc. destruct (IsTokenByte c) eqn:E; [|reflexivity].
  apply token_not_space in E. congruence.
Qed.

Lemma skipBytes_key (key ws rest : list ascii) :
  Forall (fun c => IsTokenByte c = true) key ->
  Forall (fun c => IsSpaceByte c = true) ws ->
  (forall c, head rest = Some c -> IsTokenByte c = false) ->
  skipBytes (key ++ ws ++ rest) IsTokenByte = length key.
Proof.
  intros Hkey Hws Hrest. rewrite skipBytes_all by assumption.
  rewrite skipBytes_stops; [lia|].
  intros c Hc. destruct Hws as [|d ws Hd _]; simpl in Hc.
  - apply Hrest. exact Hc.
  - injection Hc as <-. apply space_not_token. exact Hd.
Qed.

(** X6.  A header line [key: value], with whitespace allowed before the
    colon, after it and after the value, adds [value] as a new last value
    of the canonical name of [key], makes that name the last key and counts
    one more header: provided the line has at most 4096 bytes and fewer
    than 256 headers came before. *)
Theorem headerLine_appends (s : hstate) (p0 key ws1 ws2 value ws3 : list ascii) :
  stripTerminator p0 = fieldLine key ws1 ws2 value ws3 ->
  key <> [] ->
  Forall (fun c => IsTokenByte c = true) key ->
  Forall (fun c => IsSpaceByte c = true) ws1 ->
  Forall (fun c => IsSpaceByte c = true) ws2 ->
  Forall (fun c => IsSpaceByte c = true) ws3 ->
  (forall c, head value = Some c -> IsSpaceByte c = false) ->
  (forall c, last value = Some c -> IsSpaceByte c = false) ->
  length (fieldLine key ws1 ws2 value ws3) <= maxLineSize ->
  headerCount s < maxHeaderCount ->
  headerLine s p0 =
    LNext {| hdr := Append (hdr s) (HeaderNameBytes key) (str value);
             lastKey := HeaderNameBytes key;
             headerCount := headerCount s + 1 |}.
Proof.
  intros Hp Hne Hkey Hws1 Hws2 Hws3 Hhead Hlast Hlen Hcount.
  unfold headerLine. rewrite Hp.
  assert (Hskip : skipBytes (fieldLine key ws1 ws2 value ws3) IsTokenByte = length key).
  { unfold fieldLine. apply skipBytes_key; try assumption.
    intros c [= <-]. exact colon_not_token. }
  assert (Hi : (skipBytes (fieldLine key ws1 ws2 value ws3) IsTokenByte <? 1) = false).
  { rewrite Hskip. apply length_ltb_1. exact Hne. }
  assert (Htake : take (length key) (fieldLine key ws1 ws2 value ws3) = key)
    by apply take_app_length.
  assert (Hdrop : trimWSLeft (drop (length key) (fieldLine key ws1 ws2 value ws3))
                  = ":"%char :: ws2 ++ value ++ ws3).
  { unfold fieldLine. rewrite drop_app_length. apply trimWSLeft_app; [assumption|].
    intros c [= <-]. exact colon_not_space. }
  assert (Hvalue : trimWSRight (trimWSLeft (ws2 ++ value ++ ws3)) = value).
  { destruct value as [|v value'] eqn:Ev.
    - change (ws2 ++ [] ++ ws3) with (ws2 ++ ws3).
      rewrite <- (app_nil_r (ws2 ++ ws3)).
      rewrite trimWSLeft_app; [reflexivity| |intros c; discriminate].
      apply Forall_app. split; assumption.
    - rewrite trimWSLeft_app; [|assumption|intros c Hc; apply Hhead; exact Hc].
      apply trimWSRight_app; assumption. }
  apply Nat.ltb_ge in Hlen.
  assert (Hc : (maxHeaderCount <? headerCount s + 1) = false) by (apply Nat.ltb_ge; lia).
  destruct (fieldLine key ws1 ws2 value ws3) as [|k p] eqn:Hline.
  { unfold fieldLine in Hline. destruct key; [congruence|discriminate]. }
  assert (Hk : IsSpaceByte k = false).
  { apply token_not_space. destruct key as [|k' key']; [congruence|].
    unfold fieldLine in Hline. injection Hline as -> _.
    inversion Hkey; assumption. }
  rewrite Hlen, Hk, Hc, Hskip, (length_ltb_1 _ Hne), Htake, Hdrop.
  cbv beta iota zeta.
  change (negb (Ascii.eqb ":" ":")) with false. cbv beta iota zeta.
  rewrite Hvalue. reflexivity.
Qed.

(** X7.  A header line that stops after its key, with no colon, makes
    [readHeaders] panic: [p[0]] is read of an empty slice.  The line is
    consumed and the header map is as the lines before left it. *)
Theorem readHeaders_panics_without_colon (fuel : nat) (b : Reader) (s : hstate)
    (line rest key ws : list ascii) :
  rdata b = line ++ LF :: rest ->
  LF ∉ line ->
  length (line ++ [LF]) <= rsize b ->
  stripTerminator (line ++ [LF]) = key ++ ws ->
  key <> [] ->
  Forall (fun c => IsTokenByte c = true) key ->
  Forall (fun c => IsSpaceByte c = true) ws ->
  length (key ++ ws) <= maxLineSize ->
  headerCount s < maxHeaderCount ->
  readHeadersLoop (S fuel) b s
  = ({| rsize := rsize b; rdata := rest |}, hdr s, Panic indexOutOfRange).
Proof.
  intros Hdata Hnot Hfit Hp Hne Hkey Hws Hlen Hcount. simpl.
  rewrite (ReadSlice_line b line rest Hdata Hnot).
  apply Nat.leb_le in Hfit. rewrite Hfit.
  unfold headerLine. rewrite Hp.
  assert (Hskip : skipBytes (key ++ ws) IsTokenByte = length key).
  { rewrite <- (app_nil_r ws). apply skipBytes_key; try assumption.
    intros c; discriminate. }
  assert (Hi : (skipBytes (key ++ ws) IsTokenByte <? 1) = false).
  { rewrite Hskip. apply length_ltb_1. exact Hne. }
  assert (Hdrop : trimWSLeft (drop (length key) (key ++ ws)) = []).
  { rewrite drop_app_length. rewrite <- (app_nil_r ws).
    apply trimWSLeft_app; [assumption|intros c; discriminate]. }
  apply Nat.ltb_ge in Hlen.
  assert (Hc : (maxHeaderCount <? headerCount s + 1) = false) by (apply Nat.ltb_ge; lia).
  destruct (key ++ ws) as [|k p] eqn:Hline.
  { destruct key; [congruence|discriminate]. }
  assert (Hk : IsSpaceByte k = false).
  { apply token_not_space. destruct key as [|k' key']; [congruence|].
    injection Hline as -> _. inversion Hkey; assumption. }
  rewrite Hlen, Hk, Hc, Hskip, (length_ltb_1 _ Hne), Hdrop. reflexivity.
Qed.







End FieldFacts.

Lemma Std_token_not_space (c : ascii) :
  Std.IsTokenByte c = true -> Std.IsSpaceByte c = false.
Proof. destruct c as [[] [] [] [] [] [] [] []]; vm_compute; congruence. Qed.

Lemma headerLine_appends_witness :
  headerLine (X := Std.externals) {| hdr := ∅; lastKey := ""; headerCount := 0 |}
    (bytes "content-LENGTH :  12 " ++ CRLF)
  = LNext {| hdr := Append ∅ "Content-Length" "12"; lastKey := "Content-Length";
             headerCount := 0 + 1 |}.
Proof.
  apply (headerLine_appends (X := Std.externals) Std_token_not_space eq_refl eq_refl
           {| hdr := ∅; lastKey := ""; headerCount := 0 |}
           (bytes "content-LENGTH :  12 " ++ CRLF)
           (bytes "content-LENGTH") (bytes " ") (bytes "  ") (bytes "12") (bytes " ")).
  - reflexivity.
  - discriminate.
  - repeat constructor.
  - repeat constructor.
  - repeat constructor.
  - repeat constructor.
  - intros c [= <-]. reflexivity.
  - intros c [= <-]. reflexivity.
  - vm_compute. lia.
  - vm_compute. lia.
Defined.

Lemma readHeaders_panics_without_colon_witness :
  readHeadersLoop (X := Std.externals) 1 (NewReader (bytes "Host" ++ CRLF ++ CRLF))
    {| hdr := ∅; lastKey := ""; headerCount := 0 |}
  = ({| rsize := defaultBufSize; rdata := CRLF |}, ∅, Panic indexOutOfRange).
Proof.
  apply (readHeaders_panics_without_colon (X := Std.externals) Std_token_not_space 0
           (NewReader (bytes "Host" ++ CRLF ++ CRLF))
           {| hdr := ∅; lastKey := ""; headerCount := 0 |}
           (bytes "Host" ++ [CR]) CRLF (bytes "Host") []).
  - reflexivity.
  - vm_compute. intros H. repeat (apply elem_of_cons in H as [H|H]; [discriminate|]).
    apply elem_of_nil in H. exact H.
  - vm_compute. lia.
  - reflexivity.
  - discriminate.
  - repeat constructor.
  - constructor.
  - vm_compute. lia.
  - vm_compute. lia.
Defined.



(** * The request as [prepare] leaves it *)

Section PrepareFacts.
Context {X : Externals}.

(** X10.  What [prepare] decides from a request it has read.  The
    connection is marked for closing exactly when the request is older than
    HTTP/1.1 (whatever its headers say) or its [Connection] header,
    lower-cased, is [close].  The body counter is the declared content
    length; a request without [Content-Length] has content length -1 and a
    body counter of zero, so its body reads as empty. *)
Theorem prepare_decides (w w' : world) (c : conn) :
  prepare (newConn, w) = Ok (None, (c, w')) ->
  exists r,
    req c = Some r
    /\ atLeastHttp11 c
       = ((1 <? ProtocolMajor r)%Z
          || ((ProtocolMajor r =? 1)%Z && (1 <=? ProtocolMinor r)%Z))
    /\ closeAfterResponse c
       = negb (atLeastHttp11 c)
         || match Get (Header r) HeaderConnection with
            | Some s => bool_decide (ToLower s = "close")
            | None => false
            end
    /\ match Get (Header r) HeaderContentLength with
       | Some s => Atoi s = (ContentLength r, false) /\ requestAvail c = ContentLength r
       | None => ContentLength r = (-1)%Z /\ requestAvail c = 0%Z
       end
    /\ chunked c = false.
Proof.
  unfold prepare.
  destruct (readStatusLine (reader w) NewRequest) as [[b r] [e|]] eqn:Hline.
  { cbv beta iota zeta delta [newConn br set_req negb]. discriminate. }
  destruct r as [method url major minor header0 clen].
  cbv beta iota zeta delta
    [newConn br set_req negb Method URL_ ProtocolMajor ProtocolMinor Header ContentLength].
  destruct (readHeaders b header0) as [[b2 h] [[]|e|msg|]]; try discriminate.
  destruct (Get h HeaderContentLength) as [s|] eqn:Hlen;
    [destruct (Atoi s) as [n [|]] eqn:Hatoi; cbv beta iota; [discriminate|]|];
    destruct (Get h HeaderExpect) as [s'|];
    destruct ((1 <? major)%Z || (major =? 1)%Z && (1 <=? minor)%Z) eqn:Hversion;
    destruct (Get h HeaderConnection) as [s''|] eqn:Hconn;
    try destruct (bool_decide (ToLower s'' = "close")) eqn:Hclose;
    lazy beta iota zeta delta
      [atLeastHttp11 br bw chunked closeAfterResponse hijacked netConn req
       requestAvail requestErr respondCalled responseAvail responseErr write100Continue
       set_atLeastHttp11 set_br set_bw set_chunked set_closeAfterResponse set_netConn
       set_req set_requestAvail set_requestErr set_respondCalled set_responseAvail
       set_responseErr set_write100Continue
       Method URL_ ProtocolMajor ProtocolMinor Header ContentLength];
    intros [= <- <-]; eexists; (split; [reflexivity|]);
    cbn [atLeastHttp11 closeAfterResponse requestAvail chunked
         Method URL_ ProtocolMajor ProtocolMinor Header ContentLength];
    rewrite ?Hversion, ?Hlen, ?Hconn, ?Hclose, ?Hatoi; repeat split; reflexivity.
Qed.

Lemma prepare_fails_silently (w w1 : world) (c : conn) (e : error) :
  prepare (newConn, w) = Ok (Some e, (c, w1)) -> net w1 = net w.
Proof.
  unfold prepare.
  destruct (readStatusLine (reader w) NewRequest) as [[b r] [e0|]] eqn:Hline.
  { cbv beta iota zeta delta [newConn br set_req negb]. intros [= _ _ <-]. reflexivity. }
  destruct r as [method url major minor header0 clen].
  cbv beta iota zeta delta
    [newConn br set_req negb Method URL_ ProtocolMajor ProtocolMinor Header ContentLength].
  destruct (readHeaders b header0) as [[b2 h] [[]|e0|msg|]]; try discriminate.
  2: { intros [= _ _ <-]. reflexivity. }
  destruct (Get h HeaderContentLength) as [s|];
    [destruct (Atoi s) as [n [|]]; cbv beta iota; [intros [= _ _ <-]; reflexivity|]|];
    destruct (Get h HeaderExpect) as [s'|];
    destruct ((1 <? major)%Z || (major =? 1)%Z && (1 <=? minor)%Z);
    destruct (Get h HeaderConnection) as [s''|];
    try destruct (bool_decide (ToLower s'' = "close"));
    lazy beta iota zeta delta
      [atLeastHttp11 br bw chunked closeAfterResponse hijacked netConn req
       requestAvail requestErr respondCalled responseAvail responseErr write100Continue
       set_atLeastHttp11 set_br set_bw set_chunked set_closeAfterResponse set_netConn
       set_req set_requestAvail set_requestErr set_respondCalled set_responseAvail
       set_responseErr set_write100Continue
       Method URL_ ProtocolMajor ProtocolMinor Header ContentLength];
    discriminate.
Qed.

(** X11.  A request that [prepare] refuses gets no answer: the worker
    closes the connection without calling the handler and without writing
    a byte, whatever the error (a read error, a malformed request line, a
    bad version or target, a refused header block, a bad content
    length). *)
Theorem refused_request_closes_silently (fuel : nat) (handler : Handler) (w w1 : world)
    (c : conn) (e : error) :
  prepare (newConn, w) = Ok (Some e, (c, w1)) ->
  exists w',
    serveLoop (S fuel) handler w = Ok (Closed w')
    /\ sent (net w') = sent (net w)
    /\ closed (net w') = true.
Proof.
  intros Hprep. exists (closeWorld w1).
  split; [unfold serveLoop; rewrite Hprep; reflexivity|].
  apply prepare_fails_silently in Hprep.
  unfold closeWorld, set_net, netClose. simpl. rewrite Hprep. split; reflexivity.
Qed.

Lemma serveLoop_Closed (fuel : nat) (handler : Handler) (w w' : world) :
  serveLoop fuel handler w = Ok (Closed w') -> closed (net w') = true.
Proof.
  revert w. induction fuel as [|fuel IH]; intros w; [discriminate|].
  unfold serveLoop; fold (serveLoop (X := X)).
  destruct (prepare (newConn, w)) as [[[e|] [c w1]]|e|msg|]; try discriminate.
  { intros [= <-]. reflexivity. }
  destruct (ServeWeb handler (c, w1)) as [[[] [c2 w2]]|e|msg|]; try discriminate.
  destruct (hijacked c2); [discriminate|].
  destruct (finish (c2, w2)) as [[[e|] [c3 w3]]|e|msg|]; try discriminate.
  { intros [= <-]. reflexivity. }
  destruct (closeAfterResponse c3).
  - intros [= <-]. reflexivity.
  - apply IH.
Qed.

(** X12.  The worker always ends: for every input and every handler
    [serveConnection] either closes the connection, which is closed then,
    or is unwound by a panic of the code it runs.  It never returns with
    the connection open and never reports an error. *)
Theorem serveConnection_always_closes (n : Net) (input : list ascii) (handler : Handler) :
  (exists w', serveConnection n input handler = Ok (Closed w') /\ closed (net w') = true)
  \/ (exists msg, serveConnection n input handler = Panic msg).
Proof.
  destruct (serveConnection_closes n input handler) as [[w' H]|[msg H]].
  - left. exists w'. split; [exact H|]. eapply serveLoop_Closed. exact H.
  - right. exists msg. exact H.
Qed.

End PrepareFacts.

Lemma prepare_decides_witness :
  exists r,
    req (mkConn false true None false true false true
           (Some {| Method := "GET";
                    URL_ := Some {| Scheme := ""; Host := ""; Path := "/"; RawQuery := "" |};
                    ProtocolMajor := 1; ProtocolMinor := 0;
                    Header := {["Connection" := ["keep-alive"]]}; ContentLength := (-1)%Z |})
           0 None false 0 None false) = Some r
    /\ false = ((1 <? ProtocolMajor r)%Z
                || ((ProtocolMajor r =? 1)%Z && (1 <=? ProtocolMinor r)%Z))
    /\ true = negb false
              || match Get (Header r) HeaderConnection with
                 | Some s => bool_decide (Std.ToLower s = "close")
                 | None => false
                 end
    /\ match Get (Header r) HeaderContentLength with
       | Some s => Atoi s = (ContentLength r, false) /\ 0%Z = ContentLength r
       | None => ContentLength r = (-1)%Z /\ 0%Z = 0%Z
       end
    /\ false = false.
Proof.
  apply (prepare_decides (X := Std.externals)
           {| net := freshNet;
              reader := NewReader (bytes "GET / HTTP/1.0" ++ CRLF
                                   ++ bytes "Connection: keep-alive" ++ CRLF ++ CRLF) |}
           {| net := freshNet; reader := {| rsize := defaultBufSize; rdata := [] |} |}).
  vm_compute. reflexivity.
Defined.

Lemma refused_request_closes_silently_witness :
  exists w',
    serveLoop (X := Std.externals) 1 (fun _ => [])
      {| net := freshNet; reader := NewReader (bytes "hello" ++ CRLF) |} = Ok (Closed w')
    /\ sent (net w') = []
    /\ closed (net w') = true.
Proof.
  apply (refused_request_closes_silently (X := Std.externals) 0 (fun _ => [])
           {| net := freshNet; reader := NewReader (bytes "hello" ++ CRLF) |}
           {| net := freshNet; reader := {| rsize := defaultBufSize; rdata := [] |} |}
           (set_req (Some NewRequest) newConn)
           (ErrorString "malformed request line")).
  vm_compute. reflexivity.
Defined.

(** * The response on the wire *)

Section StreamFacts.
Context {X : Externals}.

Lemma reliable_accepts (n : Net) (m : nat) : reliable n -> accepts n m.
Proof. intros [Hb Hc]. split; [exact Hc|]. intros k Hk. congruence. Qed.

Lemma reliable_put (w : world) (p : list ascii) : reliable (net (put w p)).
Proof. split; reflexivity. Qed.

Lemma put_nil (w : world) : reliable (net w) -> put w [] = w.
Proof.
  destruct w as [[s b cl] r]. intros [Hb Hc]. simpl in *. subst.
  unfold put, set_net. simpl. rewrite app_nil_r. reflexivity.
Qed.

Lemma put_put (w : world) (p q : list ascii) : put (put w p) q = put w (p ++ q).
Proof. unfold put, set_net. simpl. rewrite app_assoc. reflexivity. Qed.

Lemma netConnWrite_put (p : list ascii) (c : conn) (w : world) :
  netConn c = true -> reliable (net w) ->
  netConnWrite p (c, w) = Ok ((length p, None), (c, put w p)).
Proof.
  intros Hconn Hrel.
  rewrite (netConnWrite_accepts p c w Hconn (reliable_accepts _ _ Hrel)).
  destruct Hrel as [-> _]. reflexivity.
Qed.

Lemma set_responseErr_same (c : conn) (e : option error) :
  responseErr c = e -> set_responseErr e c = c.
Proof. destruct c. simpl. intros ->. reflexivity. Qed.

Lemma identityWriter_Write_put (p : list ascii) (c : conn) (w : world) :
  netConn c = true -> responseErr c = None -> reliable (net w) ->
  identityWriter_Write p (c, w)
  = Ok ((length p, None),
        (set_responseAvail (wrapInt (responseAvail c - Z.of_nat (length p))) c, put w p)).
Proof.
  intros Hconn Herr Hrel. unfold identityWriter_Write. mstep. rewrite Herr.
  rewrite (bind_Ok _ _ _ _ _ (netConnWrite_put p c w Hconn Hrel)). mstep.
  rewrite (set_responseErr_same c None Herr). reflexivity.
Qed.

Lemma chunkedWriter_Write_put (p : list ascii) (c : conn) (w : world) :
  p <> [] ->
  netConn c = true -> responseErr c = None -> reliable (net w) ->
  chunkedWriter_Write p (c, w) = Ok ((0, None), (c, put w (chunkFrame p))).
Proof.
  intros Hp Hconn Herr Hrel. unfold chunkedWriter_Write. mstep. rewrite Herr.
  destruct (length p =? 0) eqn:Hlen.
  { apply Nat.eqb_eq in Hlen. destruct p; [congruence|discriminate]. }
  unfold WriteString. rewrite bytes_app, bytes_str.
  rewrite (bind_Ok _ _ _ _ _ (netConnWrite_put _ c w Hconn Hrel)). mstep.
  rewrite (set_responseErr_same c None Herr).
  rewrite (bind_Ok _ _ _ _ _ (netConnWrite_put p c _ Hconn (reliable_put _ _))). mstep.
  rewrite (set_responseErr_same c None Herr).
  rewrite (bind_Ok _ _ _ _ _ (netConnWrite_put CRLF c _ Hconn (reliable_put _ _))). mstep.
  rewrite (set_responseErr_same c None Herr).
  rewrite !put_put. unfold chunkFrame. rewrite <- !app_assoc. reflexivity.
Qed.

End StreamFacts.

Section FlushFacts.
Context {X : Externals}.

Lemma flows_frame (k : writerKind) (buf : list ascii) (c : conn) (w : world) :
  flows k buf c w -> netConn c = true /\ responseErr c = None /\ reliable (net w).
Proof. intros (H1 & H2 & H3 & _). auto. Qed.

(** [Flush] on the identity writer: what is buffered goes out as it is. *)
Lemma Flush_identity (buf : list ascii) (c : conn) (w : world) :
  flows identityKind buf c w ->
  exists c',
    Flush (c, w) = Ok (None, (c', put w buf))
    /\ frameResponse c' = frameResponse c
    /\ flows identityKind [] c' (put w buf).
Proof.
  intros (Hconn & Herr & Hrel & Hbw & Hlen).
  unfold Flush. mstep. rewrite Hbw. cbn [werr wbuf wkind].
  destruct buf as [|a buf].
  - exists c. rewrite (put_nil w Hrel). cbn [length Nat.eqb]. unfold ret.
    split; [reflexivity|]. split; [reflexivity|].
    unfold flows. auto 6.
  - cbn [length Nat.eqb writerWrite].
    rewrite (bind_Ok _ _ _ _ _ (identityWriter_Write_put (a :: buf) c w Hconn Herr Hrel)).
    cbv beta iota. rewrite Nat.ltb_irrefl. mstep. unfold ret.
    eexists. split; [reflexivity|].
    destruct c. simpl in *. subst. split; [reflexivity|].
    unfold flows. simpl. split; [reflexivity|]. split; [reflexivity|].
    split; [split; reflexivity|]. split; [reflexivity|]. lia.
Qed.

(** [Flush] on the chunked writer: the chunk goes out, and since the
    writer reports no byte written the buffered writer takes it for a
    short write: it keeps the buffer and latches the error. *)
Lemma Flush_chunked (buf : list ascii) (c : conn) (w : world) :
  flows chunkedKind buf c w ->
  buf <> [] ->
  Flush (c, w)
  = Ok (Some ErrShortWrite,
        (set_bw (Some {| wkind := chunkedKind; wbuf := buf; werr := Some ErrShortWrite |}) c,
         put w (chunkFrame buf))).
Proof.
  intros (Hconn & Herr & Hrel & Hbw & Hlen) Hne.
  unfold Flush. mstep. rewrite Hbw. cbn [werr wbuf wkind].
  destruct buf as [|a buf]; [congruence|].
  cbn [length Nat.eqb writerWrite].
  rewrite (bind_Ok _ _ _ _ _ (chunkedWriter_Write_put (a :: buf) c w Hne Hconn Herr Hrel)).
  cbv beta iota. change (0 <? S (length buf)) with true. mstep. reflexivity.
Qed.

Lemma Flush_empty (k : writerKind) (c : conn) (w : world) :
  bw c = Some {| wkind := k; wbuf := []; werr := None |} ->
  Flush (c, w) = Ok (None, (c, w)).
Proof. intros Hbw. unfold Flush. mstep. rewrite Hbw. reflexivity. Qed.



(** The loop of [Write] over the identity writer: every byte is accepted,
    and what has gone out followed by what is buffered is what had gone
    out and was buffered before, followed by [p]. *)
Lemma bwWriteLoop_identity (fuel : nat) (p : list ascii) (nn : nat) (buf : list ascii)
    (c : conn) (w : world) :
  flows identityKind buf c w ->
  2 * length p + (if length buf <? defaultBufSize then 0 else 1) < fuel ->
  exists c' out buf',
    bwWriteLoop fuel p nn (c, w) = Ok ((nn + length p, None), (c', put w out))
    /\ frameResponse c' = frameResponse c
    /\ flows identityKind buf' c' (put w out)
    /\ out ++ buf' = buf ++ p.
Proof.
  revert p nn buf c w. induction fuel as [|fuel IH]; intros p nn buf c w Hflows Hfuel; [lia|].
  pose proof Hflows as (Hconn & Herr & Hrel & Hbw & Hlen).
  simpl. destruct (length p =? 0) eqn:Hp.
  { apply Nat.eqb_eq in Hp. destruct p; [|discriminate]. unfold ret.
    exists c, [], buf. rewrite (put_nil w Hrel), app_nil_r. simpl length.
    rewrite Nat.add_0_r. split; [reflexivity|]. split; [reflexivity|].
    split; [exact Hflows|reflexivity]. }
  apply Nat.eqb_neq in Hp. mstep. rewrite Hbw. cbn [wbuf wkind werr].
  destruct (defaultBufSize - length buf =? 0) eqn:Hfull.
  - apply Nat.eqb_eq in Hfull.
    assert ((length buf <? defaultBufSize) = false) as Hltb by (apply Nat.ltb_ge; lia).
    rewrite Hltb in Hfuel.
    destruct (Flush_identity buf c w Hflows) as (c1 & Hrun & Hf & Hflows1).
    rewrite (bind_Ok _ _ _ _ _ Hrun).
    destruct (IH p nn [] c1 (put w buf) Hflows1) as (c2 & out & buf' & Hrun2 & Hf2 & Hflows2 & Hout).
    { simpl. lia. }
    rewrite put_put in Hrun2, Hflows2.
    exists c2, (buf ++ out), buf'. split; [exact Hrun2|]. split; [congruence|].
    split; [exact Hflows2|]. rewrite <- app_assoc, Hout. reflexivity.
  - apply Nat.eqb_neq in Hfull.
    set (n := min (defaultBufSize - length buf) (length p)).
    assert (1 <= n) by (unfold n; lia).
    set (b1 := {| wkind := identityKind; wbuf := buf ++ take n p; werr := None |}).
    destruct (IH (drop n p) (nn + n) (buf ++ take n p) (set_bw (Some b1) c) w)
      as (c2 & out & buf' & Hrun2 & Hf2 & Hflows2 & Hout).
    { unfold flows. destruct c. simpl in *.
      split; [assumption|]. split; [assumption|]. split; [assumption|].
      split; [reflexivity|]. rewrite length_app, length_take. unfold n. lia. }
    { rewrite length_drop, length_app, length_take.
      destruct (length buf + _ <? defaultBufSize); lia. }
    exists c2, out, buf'.
    rewrite length_drop in Hrun2.
    replace (nn + n + (length p - n)) with (nn + length p) in Hrun2 by (unfold n; lia).
    split; [exact Hrun2|]. split.
    { rewrite Hf2. destruct c; reflexivity. }
    split; [exact Hflows2|].
    rewrite Hout, <- app_assoc, take_drop. reflexivity.
Qed.

Lemma Write_identity (p buf : list ascii) (c : conn) (w : world) :
  flows identityKind buf c w ->
  exists c' out buf',
    Write p (c, w) = Ok ((length p, None), (c', put w out))
    /\ frameResponse c' = frameResponse c
    /\ flows identityKind buf' c' (put w out)
    /\ out ++ buf' = buf ++ p.
Proof.
  intros Hflows. pose proof Hflows as (Hconn & Herr & Hrel & Hbw & Hlen).
  unfold Write. mstep. rewrite Hbw. cbn [werr].
  apply (bwWriteLoop_identity (2 * length p + 2) p 0 buf c w Hflows).
  destruct (length buf <? defaultBufSize); lia.
Qed.

(** The calls on the body of an identity response, in any number and
    order: their bytes reach the network or the buffer in order, none
    lost, none added. *)
Lemma runOps_identity (ops : list op) (buf : list ascii) (c : conn) (w : world) :
  Forall bodyOp ops ->
  flows identityKind buf c w ->
  exists c' out buf',
    runOps ops (c, w) = Ok (tt, (c', put w out))
    /\ frameResponse c' = frameResponse c
    /\ flows identityKind buf' c' (put w out)
    /\ out ++ buf' = buf ++ payload ops.
Proof.
  intros Hops. revert buf c w. induction Hops as [|o ops Ho _ IH]; intros buf c w Hflows.
  - pose proof Hflows as (_ & _ & Hrel & _).
    exists c, [], buf. rewrite (put_nil w Hrel), app_nil_r.
    split; [reflexivity|]. split; [reflexivity|]. split; [exact Hflows|reflexivity].
  - rewrite runOps_cons. destruct o as [n|status header|p| |]; try contradiction;
      cbv beta iota delta [runOp].
    + destruct (Write_identity p buf c w Hflows) as (c1 & out1 & buf1 & Hrun & Hf & Hflows1 & Hout).
      rewrite bind_assoc, (bind_Ok _ _ _ _ _ Hrun), bind_ret.
      destruct (IH buf1 c1 (put w out1) Hflows1) as (c2 & out2 & buf2 & Hrun2 & Hf2 & Hflows2 & Hout2).
      rewrite put_put in Hrun2, Hflows2.
      exists c2, (out1 ++ out2), buf2. split; [exact Hrun2|]. split; [congruence|].
      split; [exact Hflows2|].
      simpl. rewrite <- app_assoc, Hout2, !app_assoc, Hout. reflexivity.
    + destruct (Flush_identity buf c w Hflows) as (c1 & Hrun & Hf & Hflows1).
      rewrite bind_assoc, (bind_Ok _ _ _ _ _ Hrun), bind_ret.
      destruct (IH [] c1 (put w buf) Hflows1) as (c2 & out2 & buf2 & Hrun2 & Hf2 & Hflows2 & Hout2).
      rewrite put_put in Hrun2, Hflows2.
      exists c2, (buf ++ out2), buf2. split; [exact Hrun2|]. split; [congruence|].
      split; [exact Hflows2|].
      simpl. rewrite <- app_assoc, Hout2. reflexivity.
Qed.

End FlushFacts.

Section FinishStream.
Context {X : Externals}.

(** [finish] once [Respond] has been called: the test of the counter,
    then the flush and what follows it. *)
Lemma finish_responded (c : conn) (w : world) :
  respondCalled c = true ->
  finish (c, w)
  = bind Flush
      (fun _ => bind getConn (fun c =>
         bind (if chunked c
               then bind (WriteString ("0" +:+ str CRLF +:+ str CRLF))
                      (fun '(n, e) => modify (set_responseErr e))
               else ret tt)
           (fun _ => bind (modify (fun c => match responseErr c with
                                  | None => set_responseErr (Some ErrResponseBodyClosed) c
                                  | Some _ => c
                                  end))
             (fun _ => bind (modify (set_netConn false))
               (fun _ => bind (modify (set_br false))
                 (fun _ => bind (modify (set_bw None)) (fun _ => ret None)))))))
      (set_closeAfterResponse (closeAfterResponse c || negb (responseAvail c =? 0)%Z) c, w).
Proof.
  intros Hcalled.
  destruct c as [http11 rd wr ch close hij nc rq ravail rerr called savail serr cont].
  mrun_in Hcalled. subst called.
  unfold finish. destruct savail; destruct close; reflexivity.
Qed.

Lemma finish_identity (buf : list ascii) (c : conn) (w : world) :
  flows identityKind buf c w ->
  respondCalled c = true ->
  chunked c = false ->
  exists c',
    finish (c, w) = Ok (None, (c', put w buf))
    /\ closeAfterResponse c' = closeAfterResponse c || negb (responseAvail c =? 0)%Z.
Proof.
  intros Hflows Hcalled Hchunked. rewrite (finish_responded c w Hcalled).
  set (c0 := set_closeAfterResponse _ c).
  assert (Hflows0 : flows identityKind buf c0 w).
  { unfold c0. destruct c. exact Hflows. }
  destruct (Flush_identity buf c0 w Hflows0) as (c1 & Hrun & Hf & Hflows1).
  rewrite (bind_Ok _ _ _ _ _ Hrun).
  destruct Hflows1 as (Hconn1 & Herr1 & _).
  assert (Hch1 : chunked c1 = false).
  { rewrite (frame_field chunked _ _ (fun _ => eq_refl) Hf). unfold c0.
    destruct c. exact Hchunked. }
  assert (Hcl1 : closeAfterResponse c1
                 = closeAfterResponse c || negb (responseAvail c =? 0)%Z).
  { rewrite (frame_field closeAfterResponse _ _ (fun _ => eq_refl) Hf). unfold c0.
    destruct c. reflexivity. }
  destruct c1 as [http11 rd wr ch close hij nc rq ravail rerr called savail serr cont].
  mrun_in Hch1. mrun_in Herr1. mrun_in Hcl1. subst ch serr.
  mrun. eexists. split; [reflexivity|]. exact Hcl1.
Qed.

Lemma finish_chunked (buf : list ascii) (c : conn) (w : world) :
  flows chunkedKind buf c w ->
  respondCalled c = true ->
  chunked c = true ->
  exists c',
    finish (c, w)
    = Ok (None, (c', put w ((if decide (buf = []) then [] else chunkFrame buf) ++ lastChunk)))
    /\ closeAfterResponse c' = closeAfterResponse c || negb (responseAvail c =? 0)%Z.
Proof.
  intros Hflows Hcalled Hchunked. rewrite (finish_responded c w Hcalled).
  set (c0 := set_closeAfterResponse _ c).
  assert (Hflows0 : flows chunkedKind buf c0 w).
  { unfold c0. destruct c. exact Hflows. }
  assert (Hch0 : chunked c0 = true) by (unfold c0; destruct c; exact Hchunked).
  assert (Hcl0 : closeAfterResponse c0
                 = closeAfterResponse c || negb (responseAvail c =? 0)%Z)
    by (unfold c0; destruct c; reflexivity).
  clearbody c0.
  pose proof Hflows0 as (Hconn & Herr & Hrel & Hbw & Hlen).
  assert (Htail : forall (b : option Writer) (w1 : world),
             reliable (net w1) ->
             exists c',
               bind getConn (fun c =>
                 bind (if chunked c
                       then bind (WriteString ("0" +:+ str CRLF +:+ str CRLF))
                              (fun '(n, e) => modify (set_responseErr e))
                       else ret tt)
                   (fun _ => bind (modify (fun c => match responseErr c with
                                          | None => set_responseErr (Some ErrResponseBodyClosed) c
                                          | Some _ => c
                                          end))
                     (fun _ => bind (modify (set_netConn false))
                       (fun _ => bind (modify (set_br false))
                         (fun _ => bind (modify (set_bw None)) (fun _ => ret (@None error)))))))
                 (set_bw b c0, w1)
               = Ok (@None error, (c', put w1 lastChunk))
               /\ closeAfterResponse c' = closeAfterResponse c0).
  { intros b w1 Hrel1.
    destruct c0 as [http11 rd wr ch close hij nc rq ravail rerr called savail serr cont].
    mrun_in Hch0. mrun_in Hconn. mrun_in Herr. subst ch nc serr.
    unfold WriteString. rewrite !bind_getConn. cbv beta iota delta [fst chunked set_bw].
    rewrite bind_assoc.
    erewrite bind_Ok; [|apply netConnWrite_put; [reflexivity|exact Hrel1]].
    mrun. eexists. split; [reflexivity|]. reflexivity. }
  destruct (decide (buf = [])) as [->|Hne].
  - rewrite (bind_Ok _ _ _ _ _ (Flush_empty chunkedKind c0 w Hbw)).
    destruct (Htail (Some {| wkind := chunkedKind; wbuf := []; werr := None |}) w Hrel)
      as (c' & Hrun & Hcl).
    assert (set_bw (Some {| wkind := chunkedKind; wbuf := []; werr := None |}) c0 = c0) as Hsame.
    { destruct c0. simpl in Hbw. subst. reflexivity. }
    rewrite Hsame in Hrun. exists c'. split; [exact Hrun|]. congruence.
  - rewrite (bind_Ok _ _ _ _ _ (Flush_chunked buf c0 w Hflows0 Hne)).
    destruct (Htail (Some {| wkind := chunkedKind; wbuf := buf; werr := Some ErrShortWrite |})
                (put w (chunkFrame buf)) (reliable_put _ _)) as (c' & Hrun & Hcl).
    rewrite put_put in Hrun. exists c'. split; [exact Hrun|]. congruence.
Qed.


End FinishStream.

Section ResponseStream.
Context {X : Externals}.

Lemma Respond_identity (status : Z) (header : StringsMap) (c : conn) (w : world) :
  netConn c = true -> hijacked c = false -> respondCalled c = false ->
  responseErr c = None -> reliable (net w) ->
  chunkedDecided status header c = false ->
  exists c1 out buf,
    Respond status header (c, w)
    = Ok ((true, headerCommitted status header c), (c1, put w out))
    /\ frameResponse c1 = frameResponse (committed status header c)
    /\ flows identityKind buf c1 (put w out)
    /\ out ++ buf = bytes (headerBlock (protoOf c) status (headerCommitted status header c)).
Proof.
  intros Hconn Hhij Hcalled Herr Hrel Hmode.
  rewrite (Respond_accepted status header c w Hhij Hcalled), Hmode.
  fold (protoOf c).
  set (block := bytes (headerBlock (protoOf c) status (headerCommitted status header c))).
  assert (Hflows : flows identityKind [] (committed status header c) w).
  { unfold flows, committed. rewrite Hmode. simpl.
    split; [exact Hconn|]. split; [exact Herr|]. split; [exact Hrel|].
    split; [reflexivity|]. lia. }
  destruct (Write_identity block [] _ w Hflows) as (c1 & out & buf & Hrun & Hf & Hflows1 & Hout).
  rewrite bind_assoc, (bind_Ok _ _ _ _ _ Hrun), !bind_ret.
  exists c1, out, buf. auto.
Qed.

Lemma Respond_chunked (status : Z) (header : StringsMap) (c : conn) (w : world) :
  netConn c = true -> hijacked c = false -> respondCalled c = false ->
  responseErr c = None -> reliable (net w) ->
  chunkedDecided status header c = true ->
  Respond status header (c, w)
  = Ok ((true, headerCommitted status header c),
        (committed status header c,
         put w (bytes (headerBlock (protoOf c) status (headerCommitted status header c)))))
  /\ flows chunkedKind [] (committed status header c)
       (put w (bytes (headerBlock (protoOf c) status (headerCommitted status header c)))).
Proof.
  intros Hconn Hhij Hcalled Herr Hrel Hmode.
  rewrite (Respond_accepted status header c w Hhij Hcalled), Hmode.
  fold (protoOf c).
  set (block := bytes (headerBlock (protoOf c) status (headerCommitted status header c))).
  assert (Hconn' : netConn (committed status header c) = true) by exact Hconn.
  assert (Herr' : responseErr (committed status header c) = None) by exact Herr.
  rewrite bind_assoc, (bind_Ok _ _ _ _ _ (netConnWrite_put block _ w Hconn' Hrel)).
  mstep. rewrite (set_responseErr_same _ None Herr').
  split; [reflexivity|].
  unfold flows. split; [exact Hconn'|]. split; [exact Herr'|]. split; [apply reliable_put|].
  unfold committed. rewrite Hmode. simpl. split; [reflexivity|]. lia.
Qed.

Lemma committed_chunked (status : Z) (header : StringsMap) (c : conn) :
  chunkedDecided status header c = true ->
  closeAfterResponse (committed status header c) = false
  /\ responseAvail (committed status header c) = 0%Z.
Proof.
  intros Hmode. pose proof Hmode as Hiff.
  apply chunkedDecided_iff in Hiff as (Hlen & _ & _ & Hclose).
  unfold committed, responseAvailDecided. simpl.
  rewrite Get_headerChecked, Hlen. auto.
Qed.

(** X13.  An identity response on a reliable network.  When [Respond]
    decides against chunking, the bytes that have reached the network once
    [finish] returns are the header block followed by the bytes the handler
    wrote, in order and unchanged, however the handler cut them into
    writes and wherever it flushed. *)
Theorem identity_response_on_the_wire (status : Z) (header : StringsMap) (ops : list op)
    (c : conn) (w : world) :
  netConn c = true -> hijacked c = false -> respondCalled c = false ->
  responseErr c = None -> reliable (net w) ->
  chunkedDecided status header c = false ->
  Forall bodyOp ops ->
  exists c1 w1 c2 w2,
    runOps (OpRespond status header :: ops) (c, w) = Ok (tt, (c1, w1))
    /\ finish (c1, w1) = Ok (None, (c2, w2))
    /\ sent (net w2)
       = sent (net w)
         ++ bytes (headerBlock (protoOf c) status (headerCommitted status header c))
         ++ payload ops
    /\ reader w2 = reader w.
Proof.
  intros Hconn Hhij Hcalled Herr Hrel Hmode Hops.
  destruct (Respond_identity status header c w Hconn Hhij Hcalled Herr Hrel Hmode)
    as (c1 & out1 & buf1 & Hresp & Hf1 & Hflows1 & Hout1).
  destruct (runOps_identity ops buf1 c1 (put w out1) Hops Hflows1)
    as (c2 & out2 & buf2 & Hrun & Hf2 & Hflows2 & Hout2).
  rewrite put_put in Hrun, Hflows2.
  assert (Hcalled2 : respondCalled c2 = true).
  { rewrite (frame_field respondCalled _ _ (fun _ => eq_refl) Hf2).
    rewrite (frame_field respondCalled _ _ (fun _ => eq_refl) Hf1). reflexivity. }
  assert (Hch2 : chunked c2 = false).
  { rewrite (frame_field chunked _ _ (fun _ => eq_refl) Hf2).
    rewrite (frame_field chunked _ _ (fun _ => eq_refl) Hf1). exact Hmode. }
  destruct (finish_identity buf2 c2 _ Hflows2 Hcalled2 Hch2) as (c3 & Hfin & _).
  rewrite put_put in Hfin.
  exists c2, (put w (out1 ++ out2)), c3, (put w ((out1 ++ out2) ++ buf2)).
  split.
  { rewrite runOps_cons. cbv beta iota delta [runOp].
    rewrite bind_assoc, (bind_Ok _ _ _ _ _ Hresp), bind_ret. exact Hrun. }
  split; [exact Hfin|]. split; [|reflexivity].
  simpl. f_equal. rewrite <- app_assoc, Hout2, app_assoc, Hout1. reflexivity.
Qed.

(** X14.  A chunked response on a reliable network, written without a
    flush and within the buffer of 4096 bytes.  The header block goes out
    when [Respond] is called; [finish] sends the whole body as one chunk
    (no chunk at all when the body is empty) and then the last chunk, and
    leaves the connection open for the next request. *)
Theorem chunked_response_on_the_wire (status : Z) (header : StringsMap)
    (chunks : list (list ascii)) (c : conn) (w : world) :
  netConn c = true -> hijacked c = false -> respondCalled c = false ->
  responseErr c = None -> reliable (net w) ->
  chunkedDecided status header c = true ->
  length (concat chunks) <= defaultBufSize ->
  exists c1 w1 c2 w2,
    runOps (OpRespond status header :: map OpWrite chunks) (c, w) = Ok (tt, (c1, w1))
    /\ sent (net w1)
       = sent (net w)
         ++ bytes (headerBlock (protoOf c) status (headerCommitted status header c))
    /\ finish (c1, w1) = Ok (None, (c2, w2))
    /\ sent (net w2)
       = sent (net w1)
         ++ (if decide (concat chunks = []) then [] else chunkFrame (concat chunks))
         ++ lastChunk
    /\ reader w2 = reader w
    /\ closeAfterResponse c2 = false.
Proof.
  intros Hconn Hhij Hcalled Herr Hrel Hmode Hfit.
  destruct (Respond_chunked status header c w Hconn Hhij Hcalled Herr Hrel Hmode)
    as (Hresp & Hflows1).
  set (block := bytes (headerBlock (protoOf c) status (headerCommitted status header c))) in *.
  set (c1 := committed status header c) in *.
  pose proof Hflows1 as (Hconn1 & Herr1 & Hrel1 & Hbw1 & _).
  pose proof (runOps_writes_fit chunks c1 (put w block) chunkedKind [] Hbw1 Hfit) as Hrun.
  set (c2 := set_bw _ c1) in Hrun.
  destruct (committed_chunked status header c Hmode) as [Hclose Havail].
  fold c1 in Hclose, Havail.
  assert (Hflows2 : flows chunkedKind (concat chunks) c2 (put w block)).
  { unfold c2, flows. split; [exact Hconn1|]. split; [exact Herr1|]. split; [exact Hrel1|].
    split; [reflexivity|exact Hfit]. }
  assert (Hcalled2 : respondCalled c2 = true) by reflexivity.
  assert (Hch2 : chunked c2 = true) by exact Hmode.
  destruct (finish_chunked (concat chunks) c2 _ Hflows2 Hcalled2 Hch2) as (c3 & Hfin & Hcl3).
  exists c2, (put w block), c3, (put (put w block) ((if decide (concat chunks = []) then []
                                                     else chunkFrame (concat chunks))
                                                    ++ lastChunk)).
  split.
  { rewrite runOps_cons. cbv beta iota delta [runOp].
    rewrite bind_assoc, (bind_Ok _ _ _ _ _ Hresp), bind_ret. exact Hrun. }
  split; [reflexivity|]. split; [exact Hfin|]. split; [reflexivity|]. split; [reflexivity|].
  rewrite Hcl3. change (closeAfterResponse c2) with (closeAfterResponse c1).
  change (responseAvail c2) with (responseAvail c1). rewrite Hclose, Havail. reflexivity.
Qed.

End ResponseStream.

Section ResponseStream2.
Context {X : Externals}.







End ResponseStream2.

Lemma identity_response_on_the_wire_witness :
  exists c1 w1 c2 w2,
    runOps (X := Std.externals)
      [OpRespond StatusOK {[HeaderContentLength := ["5"]]};
       OpWrite (bytes "he"); OpFlush; OpWrite (bytes "llo")] (openConn, quietWorld)
    = Ok (tt, (c1, w1))
    /\ finish (X := Std.externals) (c1, w1) = Ok (None, (c2, w2))
    /\ sent (net w2)
       = sent (net quietWorld)
         ++ bytes (headerBlock (X := Std.externals) (protoOf openConn) StatusOK
                     (headerCommitted StatusOK {[HeaderContentLength := ["5"]]} openConn))
         ++ payload [OpWrite (bytes "he"); OpFlush; OpWrite (bytes "llo")]
    /\ reader w2 = reader quietWorld.
Proof.
  apply (identity_response_on_the_wire (X := Std.externals) StatusOK
           {[HeaderContentLength := ["5"]]}
           [OpWrite (bytes "he"); OpFlush; OpWrite (bytes "llo")] openConn quietWorld);
    try reflexivity.
  - split; reflexivity.
  - repeat constructor.
Defined.

Lemma chunked_response_on_the_wire_witness :
  exists c1 w1 c2 w2,
    runOps (X := Std.externals)
      (OpRespond StatusOK ∅ :: map OpWrite [bytes "he"; bytes "llo"]) (openConn, quietWorld)
    = Ok (tt, (c1, w1))
    /\ sent (net w1)
       = sent (net quietWorld)
         ++ bytes (headerBlock (X := Std.externals) (protoOf openConn) StatusOK
                     (headerCommitted StatusOK ∅ openConn))
    /\ finish (X := Std.externals) (c1, w1) = Ok (None, (c2, w2))
    /\ sent (net w2)
       = sent (net w1)
         ++ (if decide (concat [bytes "he"; bytes "llo"] = []) then []
             else chunkFrame (concat [bytes "he"; bytes "llo"]))
         ++ lastChunk
    /\ reader w2 = reader quietWorld
    /\ closeAfterResponse c2 = false.
Proof.
  apply (chunked_response_on_the_wire (X := Std.externals) StatusOK ∅
           [bytes "he"; bytes "llo"] openConn quietWorld);
    try reflexivity.
  - split; reflexivity.
  - vm_compute. lia.
Defined.



(** A chunked response written in two writes, and the same with a flush
    between the two, byte for byte. *)
Example responses_on_the_wire :
  (exists c w,
     afterCycle (X := Std.externals) getRequest
       [OpRespond StatusOK ∅; OpWrite (bytes "he"); OpWrite (bytes "llo")] = Some (c, w)
     /\ sent (net w)
        = bytes "HTTP/1.1 200 OK" ++ CRLF ++ bytes "Transfer-Encoding: chunked" ++ CRLF ++ CRLF
          ++ bytes "5" ++ CRLF ++ bytes "hello" ++ CRLF ++ bytes "0" ++ CRLF ++ CRLF)
  /\ (exists c w,
     afterCycle (X := Std.externals) getRequest
       [OpRespond StatusOK ∅; OpWrite (bytes "he"); OpFlush; OpWrite (bytes "llo")]
     = Some (c, w)
     /\ sent (net w)
        = bytes "HTTP/1.1 200 OK" ++ CRLF ++ bytes "Transfer-Encoding: chunked" ++ CRLF ++ CRLF
          ++ bytes "2" ++ CRLF ++ bytes "he" ++ CRLF ++ bytes "0" ++ CRLF ++ CRLF).
Proof.
  split; eexists _, _; (split; [vm_compute; reflexivity|]); vm_compute; reflexivity.
Qed.

(** * Reading the request body *)

Section BodyReads.
Context {X : Externals}.

Lemma wrapInt_id (z : Z) : (minInt <= z <= maxInt)%Z -> wrapInt z = z.
Proof.
  unfold wrapInt, minInt, maxInt, IntSize. intros Hz.
  change (2 ^ (Z.of_nat 32 - 1))%Z with 2147483648%Z in *.
  change (2 ^ Z.of_nat 32)%Z with 4294967296%Z.
  rewrite Z.mod_small by lia. lia.
Qed.

Lemma ReaderRead_splits (b : Reader) (m : nat) :
  rdata b = fst (snd (ReaderRead b m)) ++ rdata (fst (ReaderRead b m))
  /\ length (fst (snd (ReaderRead b m))) <= m.
Proof.
  unfold ReaderRead. destruct (rdata b) as [|a l] eqn:E; simpl.
  - rewrite E. split; [reflexivity|lia].
  - split; [symmetry; apply (take_drop _ (a :: l))|].
    rewrite length_take. lia.
Qed.

(** One read of the request body: the bytes it returns are the next bytes
    of the input, at most as many as were asked for and as the counter
    allows, and the counter goes down by their number. *)
Lemma requestReader_Read_consumes (n : nat) (c : conn) (w : world) :
  netConn c = true ->
  br c = true ->
  (minInt <= requestAvail c <= maxInt)%Z ->
  exists q e c' w',
    requestReader_Read n (c, w) = Ok ((q, e), (c', w'))
    /\ rdata (reader w) = q ++ rdata (reader w')
    /\ requestAvail c' = (requestAvail c - Z.of_nat (length q))%Z
    /\ (Z.of_nat (length q) <= Z.max 0 (requestAvail c))%Z
    /\ length q <= n.
Proof.
  intros Hconn Hbr Hrange.
  destruct c as [http11 rd wr ch close hij nc rq ravail rerr called savail serr cont].
  mrun_in Hconn. mrun_in Hbr. mrun_in Hrange. subst nc rd.
  unfold requestReader_Read, WriteString, netConnWrite, brRead.
  assert (Hdone : forall (c' : conn) (w' : world) (e : option error),
             requestAvail c' = ravail -> reader w' = reader w ->
             exists q e0 c0 w0,
               Ok (([] : list ascii, e), (c', w')) = Ok ((q, e0), (c0, w0))
               /\ rdata (reader w) = q ++ rdata (reader w0)
               /\ requestAvail c0 = (ravail - Z.of_nat (length q))%Z
               /\ (Z.of_nat (length q) <= Z.max 0 ravail)%Z
               /\ length q <= n).
  { intros c' w' e Hav Hr. exists [], e, c', w'. split; [reflexivity|].
    rewrite Hr. simpl. repeat split; try lia. }
  assert (Hm : forall m, m = (if (ravail <? Z.of_nat n)%Z then Z.to_nat ravail else n) ->
                (ravail <=? 0)%Z = false -> m <= n /\ (Z.of_nat m <= ravail)%Z).
  { intros m -> Hpos. apply Z.leb_gt in Hpos.
    destruct (ravail <? Z.of_nat n)%Z eqn:E.
    - apply Z.ltb_lt in E. lia.
    - apply Z.ltb_ge in E. lia. }
  destruct rerr as [e|]; destruct cont; mrun.
  - apply Hdone; reflexivity.
  - apply Hdone; reflexivity.
  - destruct (netWrite (net w) _) as [n' [k e]]. mrun.
    destruct (ravail <=? 0)%Z eqn:Hpos; mrun.
    + apply Hdone; reflexivity.
    + change (reader (set_net w n')) with (reader w).
      destruct (Hm _ eq_refl eq_refl) as [Hmn Hma].
      pose proof (ReaderRead_splits (reader w)
                    (if (ravail <? Z.of_nat n)%Z then Z.to_nat ravail else n))
        as [Hsplit Hlen].
      destruct (ReaderRead (reader w) _) as [b [q e']]. mrun. simpl in Hsplit, Hlen.
      exists q, e'. eexists _, _. split; [reflexivity|].
      simpl. split; [exact Hsplit|].
      split; [apply wrapInt_id; unfold minInt, IntSize in *; simpl in *; lia|].
      split; lia.
  - destruct (ravail <=? 0)%Z eqn:Hpos; mrun.
    + apply Hdone; reflexivity.
    + destruct (Hm _ eq_refl eq_refl) as [Hmn Hma].
      pose proof (ReaderRead_splits (reader w)
                    (if (ravail <? Z.of_nat n)%Z then Z.to_nat ravail else n))
        as [Hsplit Hlen].
      destruct (ReaderRead (reader w) _) as [b [q e']]. mrun. simpl in Hsplit, Hlen.
      exists q, e'. eexists _, _. split; [reflexivity|].
      simpl. split; [exact Hsplit|].
      split; [apply wrapInt_id; unfold minInt, IntSize in *; simpl in *; lia|].
      split; lia.
Qed.

Lemma runOp_consumes (o : op) (c c' : conn) (w w' : world) :
  attached c ->
  (minInt <= requestAvail c <= maxInt)%Z ->
  runOp o (c, w) = Ok (tt, (c', w')) ->
  exists q,
    rdata (reader w) = q ++ rdata (reader w')
    /\ requestAvail c' = (requestAvail c - Z.of_nat (length q))%Z
    /\ (Z.of_nat (length q) <= Z.max 0 (requestAvail c))%Z.
Proof.
  intros (Hconn & Hbr & Hbuf) Hrange Hrun.
  assert (Hsame : requestAvail c' = requestAvail c -> reader w' = reader w ->
                  exists q,
                    rdata (reader w) = q ++ rdata (reader w')
                    /\ requestAvail c' = (requestAvail c - Z.of_nat (length q))%Z
                    /\ (Z.of_nat (length q) <= Z.max 0 (requestAvail c))%Z).
  { intros Hav Hr. exists []. rewrite Hr, Hav. simpl. repeat split; lia. }
  destruct o as [n|status header|p| |]; cbv beta iota delta [runOp] in Hrun.
  - destruct (requestReader_Read_consumes n c w Hconn Hbr Hrange)
      as (q & e & c1 & w1 & Hread & Hsplit & Hav & Hle & _).
    rewrite (bind_Ok _ _ _ _ _ Hread) in Hrun. injection Hrun as <- <-.
    exists q. auto.
  - destruct (hijacked c) eqn:Hhij; [|destruct (respondCalled c) eqn:Hcalled].
    + rewrite (bind_Ok _ _ _ _ _ (Respond_rejected status header c w (or_introl Hhij))) in Hrun.
      injection Hrun as <- <-. apply Hsame; reflexivity.
    + rewrite (bind_Ok _ _ _ _ _ (Respond_rejected status header c w (or_intror Hcalled)))
        in Hrun.
      injection Hrun as <- <-. apply Hsame; reflexivity.
    + destruct (Respond_returns status header c w Hhij Hcalled Hconn)
        as (c1 & w1 & Hresp & Hf & Hr & _).
      rewrite (bind_Ok _ _ _ _ _ Hresp) in Hrun. injection Hrun as <- <-.
      apply Hsame; [|exact Hr].
      rewrite (frame_field requestAvail _ _ (fun _ => eq_refl) Hf). reflexivity.
  - destruct (bw c) as [b|] eqn:Hbw.
    2: { rewrite (bind_Panic _ _ _ _ (Write_no_writer p c w Hbw)) in Hrun. discriminate. }
    destruct (Write_writes p c w b Hconn Hbw Hbuf) as (r & c1 & w1 & Hw & Hf & Hr & _).
    rewrite (bind_Ok _ _ _ _ _ Hw) in Hrun. injection Hrun as <- <-.
    apply Hsame; [|exact Hr].
    rewrite (frame_field requestAvail _ _ (fun _ => eq_refl) Hf). reflexivity.
  - destruct (bw c) as [b|] eqn:Hbw.
    2: { rewrite (bind_Panic _ _ _ _ (Flush_no_writer c w Hbw)) in Hrun. discriminate. }
    destruct (Flush_writes c w b Hconn Hbw) as (r & c1 & w1 & Hw & Hf & Hr & _).
    rewrite (bind_Ok _ _ _ _ _ Hw) in Hrun. injection Hrun as <- <-.
    apply Hsame; [|exact Hr].
    rewrite (frame_field requestAvail _ _ (fun _ => eq_refl) Hf). reflexivity.
  - unfold Hijack in Hrun. rewrite bind_ret in Hrun. injection Hrun as <- <-.
    apply Hsame; reflexivity.
Qed.

(** X17.  A handler never reads past the body of its request.  Whatever
    calls it makes, the bytes it has taken from the input are a prefix of
    what was there, the counter of the body has gone down by exactly their
    number, and they are no more than the counter allowed at the start:
    none when the declared length is zero, negative or absent.  What
    follows the body (the next request on the connection) is left for
    the next turn of the loop. *)
Theorem body_reads_stay_within_length (ops : list op) (c c' : conn) (w w' : world) :
  attached c ->
  (minInt <= requestAvail c <= maxInt)%Z ->
  runOps ops (c, w) = Ok (tt, (c', w')) ->
  exists consumed,
    rdata (reader w) = consumed ++ rdata (reader w')
    /\ requestAvail c' = (requestAvail c - Z.of_nat (length consumed))%Z
    /\ (Z.of_nat (length consumed) <= Z.max 0 (requestAvail c))%Z.
Proof.
  revert c w. induction ops as [|o ops IH]; intros c w Hatt Hrange Hrun.
  - injection Hrun as <- <-. exists []. simpl. repeat split; lia.
  - rewrite runOps_cons in Hrun.
    destruct (runOp o (c, w)) as [[[] [c1 w1]]|e|msg|] eqn:Hop;
      try (unfold bind in Hrun; rewrite Hop in Hrun; discriminate).
    rewrite (bind_Ok _ _ _ _ _ Hop) in Hrun.
    destruct (runOp_consumes o c c1 w w1 Hatt Hrange Hop) as (q1 & Hsplit1 & Hav1 & Hle1).
    destruct (runOp_kept o c c1 w w1 Hatt Hop) as (Hatt1 & _).
    assert (Hrange1 : (minInt <= requestAvail c1 <= maxInt)%Z).
    { rewrite Hav1. unfold minInt, IntSize in *. simpl in *. lia. }
    destruct (IH c1 w1 Hatt1 Hrange1 Hrun) as (q2 & Hsplit2 & Hav2 & Hle2).
    exists (q1 ++ q2). rewrite length_app, <- app_assoc, <- Hsplit2.
    split; [exact Hsplit1|]. split; lia.
Qed.

End BodyReads.

Lemma body_reads_stay_within_length_witness :
  exists consumed,
    bytes "helloGET / HTTP/1.1" = consumed ++ bytes "GET / HTTP/1.1"
    /\ 0%Z = (5 - Z.of_nat (length consumed))%Z
    /\ (Z.of_nat (length consumed) <= Z.max 0 5)%Z.
Proof.
  apply (body_reads_stay_within_length (X := Std.externals) [OpRead 3; OpRead 10; OpRead 10]
           (set_requestAvail 5 newConn)
           (set_requestErr (Some EOF) (set_requestAvail 0 newConn))
           {| net := freshNet;
              reader := {| rsize := defaultBufSize; rdata := bytes "helloGET / HTTP/1.1" |} |}
           {| net := freshNet;
              reader := {| rsize := defaultBufSize; rdata := bytes "GET / HTTP/1.1" |} |}).
  - unfold attached. simpl. auto.
  - vm_compute. split; discriminate.
  - vm_compute. reflexivity.
Defined.

(** * The commitment of the response *)

Section RespondOnce.
Context {X : Externals}.

Lemma runOp_committed (o : op) (e : error) (c c' : conn) (w w' : world) :
  attached c ->
  respondCalled c = true ->
  requestErr c = Some e ->
  runOp o (c, w) = Ok (tt, (c', w')) ->
  respondCalled c' = true /\ requestErr c' = Some e /\ reader w' = reader w.
Proof.
  intros (Hconn & Hbr & Hbuf) Hcalled Herr Hrun.
  destruct o as [n|status header|p| |]; cbv beta iota delta [runOp] in Hrun.
  - assert (Hread : requestReader_Read n (c, w) = Ok (([], Some e), (c, w))).
    { unfold requestReader_Read. rewrite bind_getConn. cbv beta iota delta [fst].
      rewrite Herr. reflexivity. }
    rewrite (bind_Ok _ _ _ _ _ Hread) in Hrun. injection Hrun as <- <-. auto.
  - rewrite (bind_Ok _ _ _ _ _ (Respond_rejected status header c w (or_intror Hcalled)))
      in Hrun.
    injection Hrun as <- <-. auto.
  - destruct (bw c) as [b|] eqn:Hbw.
    2: { rewrite (bind_Panic _ _ _ _ (Write_no_writer p c w Hbw)) in Hrun. discriminate. }
    destruct (Write_writes p c w b Hconn Hbw Hbuf) as (r & c1 & w1 & Hw & Hf & Hr & _).
    rewrite (bind_Ok _ _ _ _ _ Hw) in Hrun. injection Hrun as <- <-.
    rewrite (frame_field respondCalled _ _ (fun _ => eq_refl) Hf).
    rewrite (frame_field requestErr _ _ (fun _ => eq_refl) Hf). auto.
  - destruct (bw c) as [b|] eqn:Hbw.
    2: { rewrite (bind_Panic _ _ _ _ (Flush_no_writer c w Hbw)) in Hrun. discriminate. }
    destruct (Flush_writes c w b Hconn Hbw) as (r & c1 & w1 & Hw & Hf & Hr & _).
    rewrite (bind_Ok _ _ _ _ _ Hw) in Hrun. injection Hrun as <- <-.
    rewrite (frame_field respondCalled _ _ (fun _ => eq_refl) Hf).
    rewrite (frame_field requestErr _ _ (fun _ => eq_refl) Hf). auto.
  - unfold Hijack in Hrun. rewrite bind_ret in Hrun. injection Hrun as <- <-. auto.
Qed.

Lemma runOps_committed (ops : list op) (e : error) (c c' : conn) (w w' : world) :
  attached c ->
  respondCalled c = true ->
  requestErr c = Some e ->
  runOps ops (c, w) = Ok (tt, (c', w')) ->
  respondCalled c' = true /\ requestErr c' = Some e /\ reader w' = reader w.
Proof.
  revert c w. induction ops as [|o ops IH]; intros c w Hatt Hcalled Herr Hrun.
  - injection Hrun as <- <-. auto.
  - rewrite runOps_cons in Hrun.
    destruct (runOp o (c, w)) as [[[] [c1 w1]]|e1|msg|] eqn:Hop;
      try (unfold bind in Hrun; rewrite Hop in Hrun; discriminate).
    rewrite (bind_Ok _ _ _ _ _ Hop) in Hrun.
    destruct (runOp_committed o e c c1 w w1 Hatt Hcalled Herr Hop) as (Hcalled1 & Herr1 & Hr1).
    destruct (runOp_kept o c c1 w w1 Hatt Hop) as (Hatt1 & _).
    destruct (IH c1 w1 Hatt1 Hcalled1 Herr1 Hrun) as (Hcalled2 & Herr2 & Hr2).
    split; [exact Hcalled2|]. split; [exact Herr2|]. congruence.
Qed.

(** X18.  [Respond] commits the response once.  After the call that is
    accepted, whatever the handler does next, every further [Respond] is
    refused (no body is returned) and changes neither the connection nor
    what is on the network, and every read of the request body fails with
    the error (response started) without taking a byte from the input. *)
Theorem Respond_commits_once (status : Z) (header : StringsMap) (c : conn) (w : world) :
  attached c ->
  hijacked c = false ->
  respondCalled c = false ->
  exists header1 c1 w1,
    Respond status header (c, w) = Ok ((true, header1), (c1, w1))
    /\ forall (ops : list op) (c2 : conn) (w2 : world),
         runOps ops (c1, w1) = Ok (tt, (c2, w2)) ->
         reader w2 = reader w
         /\ (forall status' header',
               Respond status' header' (c2, w2) = Ok ((false, header'), (c2, w2)))
         /\ (forall n,
               requestReader_Read n (c2, w2) = Ok (([], Some ErrResponseStarted), (c2, w2))).
Proof.
  intros Hatt Hhij Hcalled. pose proof Hatt as (Hconn & Hbr & Hbuf).
  destruct (Respond_returns status header c w Hhij Hcalled Hconn)
    as (c1 & w1 & Hresp & Hf & Hr & Hc1 & b1 & Hb1 & Hk1 & Hl1).
  exists (headerCommitted status header c), c1, w1. split; [exact Hresp|].
  intros ops c2 w2 Hrun.
  assert (Hatt1 : attached c1).
  { unfold attached. rewrite Hb1. split; [exact Hc1|]. split; [|exact Hl1].
    rewrite (frame_field br _ _ (fun _ => eq_refl) Hf). exact Hbr. }
  assert (Hcalled1 : respondCalled c1 = true).
  { rewrite (frame_field respondCalled _ _ (fun _ => eq_refl) Hf). reflexivity. }
  assert (Herr1 : requestErr c1 = Some ErrResponseStarted).
  { rewrite (frame_field requestErr _ _ (fun _ => eq_refl) Hf). reflexivity. }
  destruct (runOps_committed ops _ c1 c2 w1 w2 Hatt1 Hcalled1 Herr1 Hrun)
    as (Hcalled2 & Herr2 & Hr2).
  split; [congruence|]. split.
  - intros status' header'. apply Respond_rejected. right. exact Hcalled2.
  - intros n. unfold requestReader_Read. rewrite bind_getConn. cbv beta iota delta [fst].
    rewrite Herr2. reflexivity.
Qed.

(** X19.  The header [Connection: close].  An accepted [Respond] on a
    connection that is marked for closing, or whose request body has not
    been read to its declared end, marks the connection for closing, sets
    the header [Connection] to [close] and does not chunk the response.
    On any other connection it leaves the mark and that header as they
    were. *)
Theorem Respond_announces_close (status : Z) (header : StringsMap) (c : conn) (w : world) :
  netConn c = true ->
  hijacked c = false ->
  respondCalled c = false ->
  exists header1 c1 w1,
    Respond status header (c, w) = Ok ((true, header1), (c1, w1))
    /\ (closeAfterResponse c = true \/ (0 < requestAvail c)%Z ->
        closeAfterResponse c1 = true
        /\ header1 !! HeaderConnection = Some ["close"]
        /\ chunked c1 = false)
    /\ (closeAfterResponse c = false -> (requestAvail c <= 0)%Z ->
        closeAfterResponse c1 = false
        /\ header1 !! HeaderConnection = header !! HeaderConnection).
Proof.
  intros Hconn Hhij Hcalled.
  destruct (Respond_returns status header c w Hhij Hcalled Hconn)
    as (c1 & w1 & Hresp & Hf & _).
  exists (headerCommitted status header c), c1, w1. split; [exact Hresp|].
  rewrite (frame_field closeAfterResponse _ _ (fun _ => eq_refl) Hf).
  rewrite (frame_field chunked _ _ (fun _ => eq_refl) Hf).
  unfold committed, headerCommitted, chunkedDecided, headerChecked. simpl.
  split.
  - intros Hclose.
    assert (closeDecided c = true) as ->.
    { unfold closeDecided. destruct Hclose as [-> | Hpos]; [reflexivity|].
      apply Z.ltb_lt in Hpos. rewrite Hpos. apply orb_true_r. }
    rewrite andb_false_r. simpl. split; [reflexivity|]. split; [|reflexivity].
    unfold Set_. apply lookup_insert_eq.
  - intros Hopen Hread.
    assert (closeDecided c = false) as Hcd.
    { unfold closeDecided. rewrite Hopen. simpl. apply Z.ltb_ge. exact Hread. }
    rewrite Hcd. split; [reflexivity|].
    assert (Hdel : (if (status =? StatusNotModified)%Z
                    then delete HeaderTransferEncoding (delete HeaderContentType header)
                    else header) !! HeaderConnection = header !! HeaderConnection).
    { destruct (status =? StatusNotModified)%Z; [|reflexivity].
      rewrite !lookup_delete_ne by discriminate. reflexivity. }
    match goal with
    | |- (if ?b then _ else _) !! _ = _ => destruct b
    end; [|exact Hdel].
    unfold Set_. rewrite lookup_insert_ne by discriminate. exact Hdel.
Qed.

(** X20.  A response with status 304 carries neither [Content-Type] nor
    [Transfer-Encoding], whatever header the handler gave, and is never
    chunked. *)
Theorem Respond_not_modified (header : StringsMap) (c : conn) (w : world) :
  netConn c = true ->
  hijacked c = false ->
  respondCalled c = false ->
  exists header1 c1 w1,
    Respond StatusNotModified header (c, w) = Ok ((true, header1), (c1, w1))
    /\ header1 !! HeaderContentType = None
    /\ header1 !! HeaderTransferEncoding = None
    /\ chunked c1 = false.
Proof.
  intros Hconn Hhij Hcalled.
  destruct (Respond_returns StatusNotModified header c w Hhij Hcalled Hconn)
    as (c1 & w1 & Hresp & Hf & _).
  exists (headerCommitted StatusNotModified header c), c1, w1. split; [exact Hresp|].
  rewrite (frame_field chunked _ _ (fun _ => eq_refl) Hf).
  unfold committed, headerCommitted, chunkedDecided, headerChecked. simpl.
  destruct (closeDecided c); unfold Set_;
    rewrite ?lookup_insert_ne by discriminate;
    rewrite ?lookup_delete_eq;
    rewrite ?lookup_delete_ne by discriminate;
    rewrite ?lookup_delete_eq; auto.
Qed.

End RespondOnce.

Lemma Respond_commits_once_witness :
  exists header1 c1 w1,
    Respond (X := Std.externals) StatusOK ∅ (openConn, quietWorld)
    = Ok ((true, header1), (c1, w1))
    /\ forall (ops : list op) (c2 : conn) (w2 : world),
         runOps (X := Std.externals) ops (c1, w1) = Ok (tt, (c2, w2)) ->
         reader w2 = reader quietWorld
         /\ (forall status' header',
               Respond (X := Std.externals) status' header' (c2, w2)
               = Ok ((false, header'), (c2, w2)))
         /\ (forall n,
               requestReader_Read n (c2, w2) = Ok (([], Some ErrResponseStarted), (c2, w2))).
Proof.
  apply (Respond_commits_once (X := Std.externals) StatusOK ∅ openConn quietWorld).
  - unfold attached. simpl. auto.
  - reflexivity.
  - reflexivity.
Defined.

Lemma Respond_announces_close_witness :
  exists header1 c1 w1,
    Respond (X := Std.externals) StatusOK ∅ (set_requestAvail 5 openConn, quietWorld)
    = Ok ((true, header1), (c1, w1))
    /\ (closeAfterResponse (set_requestAvail 5 openConn) = true
        \/ (0 < requestAvail (set_requestAvail 5 openConn))%Z ->
        closeAfterResponse c1 = true
        /\ header1 !! HeaderConnection = Some ["close"]
        /\ chunked c1 = false)
    /\ (closeAfterResponse (set_requestAvail 5 openConn) = false ->
        (requestAvail (set_requestAvail 5 openConn) <= 0)%Z ->
        closeAfterResponse c1 = false
        /\ header1 !! HeaderConnection = (∅ : StringsMap) !! HeaderConnection).
Proof.
  apply (Respond_announces_close (X := Std.externals) StatusOK ∅
           (set_requestAvail 5 openConn) quietWorld); reflexivity.
Defined.

Lemma Respond_not_modified_witness :
  exists header1 c1 w1,
    Respond (X := Std.externals) StatusNotModified
      {[HeaderContentType := ["text/html"]; HeaderTransferEncoding := ["chunked"]]}
      (openConn, quietWorld)
    = Ok ((true, header1), (c1, w1))
    /\ header1 !! HeaderContentType = None
    /\ header1 !! HeaderTransferEncoding = None
    /\ chunked c1 = false.
Proof.
  apply (Respond_not_modified (X := Std.externals)
           {[HeaderContentType := ["text/html"]; HeaderTransferEncoding := ["chunked"]]}
           openConn quietWorld); reflexivity.
Defined.

(** * The pattern compiler *)

Section PatternFacts.
Context {X : Externals}.

Lemma findParameter_skip (off : nat) (pre l : list ascii) :
  "<"%char ∉ pre -> findParameter off (pre ++ l) = findParameter (off + length pre) l.
Proof.
  revert off. induction pre as [|c pre IH]; intros off Hnot.
  - simpl. rewrite Nat.add_0_r. reflexivity.
  - apply not_elem_of_cons in Hnot as [Hc Hpre].
    change ((c :: pre) ++ l) with (c :: (pre ++ l)). cbn [findParameter].
    assert (matchParameterHere (c :: pre ++ l) = None) as ->.
    { unfold matchParameterHere.
      destruct c as [[] [] [] [] [] [] [] []]; try reflexivity. congruence. }
    rewrite (IH (S off) Hpre). simpl. f_equal. lia.
Qed.

Lemma findParameter_none (l : list ascii) (off : nat) :
  "<"%char ∉ l -> findParameter off l = None.
Proof.
  intros Hnot. rewrite <- (app_nil_r l), (findParameter_skip off l [] Hnot). reflexivity.
Qed.

Lemma matchParameterHere_placeholder (name : list ascii) (expr : option (list ascii))
    (post : list ascii) :
  Forall (fun c => isMethodByte c = true) name ->
  (forall re, expr = Some re -> ">"%char ∉ re) ->
  matchParameterHere (placeholder name expr ++ post)
  = Some (length name, (fun re => S (length re)) <$> expr).
Proof.
  intros Hname Hexpr. unfold placeholder, matchParameterHere.
  change (("<"%char :: name ++ ?a ++ [">"%char]) ++ post)
    with ("<"%char :: (name ++ a ++ [">"%char]) ++ post).
  cbv beta iota.
  destruct expr as [re|]; rewrite <- !app_assoc.
  - change ((":"%char :: re) ++ [">"%char] ++ post) with (":"%char :: re ++ ">"%char :: post).
    rewrite skipBytes_prefix by (try assumption; reflexivity).
    rewrite drop_app_length. cbv beta iota.
    rewrite skipBytes_prefix; [|rewrite Forall_forall; intros c Hc|reflexivity].
    + rewrite drop_app_length. reflexivity.
    + unfold notByte. destruct (Ascii.eqb_spec c ">"); [|reflexivity].
      subst c. exfalso. exact (Hexpr re eq_refl Hc).
  - change ([] ++ [">"%char] ++ post) with (">"%char :: post).
    rewrite skipBytes_prefix by (try assumption; reflexivity).
    rewrite drop_app_length. reflexivity.
Qed.

Lemma slice_mid (a b c : list ascii) (i j : nat) :
  i = length a -> j = length a + length b -> slice i j (a ++ b ++ c) = b.
Proof.
  intros -> ->. unfold slice.
  replace (length a + length b - length a) with (length b) by lia.
  rewrite drop_app_length. apply take_app_length.
Qed.

Lemma findParameter_placeholder (pre name : list ascii) (expr : option (list ascii))
    (post : list ascii) :
  "<"%char ∉ pre ->
  Forall (fun c => isMethodByte c = true) name ->
  (forall re, expr = Some re -> ">"%char ∉ re) ->
  findParameter 0 (pre ++ placeholder name expr ++ post)
  = Some {| a0 := length pre;
            a1 := length pre + length (placeholder name expr);
            a2 := length pre + 1;
            a3 := length pre + 1 + length name;
            a45 := (fun re => (length pre + 1 + length name,
                               length pre + 1 + length name + S (length re))) <$> expr |}.
Proof.
  intros Hpre Hname Hexpr. rewrite (findParameter_skip 0 pre _ Hpre). simpl "+".
  pose proof (matchParameterHere_placeholder name expr post Hname Hexpr) as Hmatch.
  assert (Hcons : exists c l, placeholder name expr ++ post = c :: l)
    by (unfold placeholder; eexists _, _; reflexivity).
  destruct Hcons as (c & l & Hcons). rewrite Hcons in *.
  cbn [findParameter]. rewrite Hmatch.
  unfold placeholder. destruct expr as [re|]; simpl; rewrite !length_app; simpl;
    rewrite ?length_app; simpl; f_equal; f_equal; try lia.
Qed.

(** X21.  How a pattern with one placeholder compiles.  The text before
    and after the placeholder is quoted; the placeholder becomes its
    expression, [[^sep]+] when it gives none, in a capture group when it is
    named; the expression is anchored at both ends, with [?] before the
    end when a trailing slash is optional.  The names are the name of the
    placeholder, or none when it has no name. *)
Theorem compileSource_one_placeholder (pre name : list ascii) (expr : option (list ascii))
    (post : list ascii) (addSlash : bool) (sep : string) :
  "<"%char ∉ pre ->
  "<"%char ∉ post ->
  Forall (fun c => isMethodByte c = true) name ->
  (forall re, expr = Some re -> ">"%char ∉ re) ->
  compileSource (str (pre ++ placeholder name expr ++ post)) addSlash sep
  = Ok ("^" +:+ QuoteMeta (str pre)
        +:+ (if decide (name = []) then "" else "(")
        +:+ match expr with
            | Some re => str re
            | None => "[^" +:+ sep +:+ "]+"
            end
        +:+ (if decide (name = []) then "" else ")")
        +:+ QuoteMeta (str post)
        +:+ (if addSlash then "?" else "") +:+ "$",
        if decide (name = []) then [] else [str name]).
Proof.
  intros Hpre Hpost Hname Hexpr. unfold compileSource.
  rewrite bytes_str.
  set (pattern := pre ++ placeholder name expr ++ post).
  assert (Hlen : String.length (str pattern) = S (S (length pre + length name
                   + length (match expr with Some re => ":"%char :: re | None => [] end)
                   + length post))).
  { rewrite <- length_bytes, bytes_str. unfold pattern, placeholder.
    rewrite !length_app. simpl. rewrite !length_app. simpl. lia. }
  rewrite Hlen. cbn [compileLoop].
  pose proof (findParameter_placeholder pre name expr post Hpre Hname Hexpr) as Hfind.
  fold pattern in Hfind. rewrite Hfind. cbn [a0 a1 a2 a3 a45 buf cnames ci].
  assert (Hslice0 : slice 0 (length pre) pattern = pre).
  { unfold slice, pattern. rewrite Nat.sub_0_r. simpl drop. apply take_app_length. }
  assert (Hslice1 : slice (length pre + 1) (length pre + 1 + length name) pattern = name).
  { unfold pattern, placeholder.
    replace (pre ++ ("<"%char :: name ++ match expr with
                                          | Some re => ":"%char :: re
                                          | None => []
                                          end ++ [">"%char]) ++ post)
      with ((pre ++ ["<"%char]) ++ name
            ++ (match expr with Some re => ":"%char :: re | None => [] end
                ++ [">"%char]) ++ post)
      by (repeat (progress (simpl; rewrite <- ?app_assoc)); reflexivity).
    apply slice_mid; rewrite length_app; simpl; lia. }
  assert (Hdrop : drop (length pre + length (placeholder name expr)) pattern = post).
  { unfold pattern. rewrite app_assoc, <- length_app. apply drop_app_length. }
  rewrite Hslice0, Hslice1, Hdrop.
  assert (Hexprslice : forall re, expr = Some re ->
             slice (length pre + 1 + length name + 1)
               (length pre + 1 + length name + S (length re)) pattern = re).
  { intros re ->. unfold pattern, placeholder.
    replace (pre ++ ("<"%char :: name ++ (":"%char :: re) ++ [">"%char]) ++ post)
      with ((pre ++ "<"%char :: name ++ [":"%char]) ++ re ++ ">"%char :: post)
      by (repeat (progress (simpl; rewrite <- ?app_assoc)); reflexivity).
    apply slice_mid; rewrite length_app; simpl; rewrite length_app; simpl; lia. }
  assert (Hnone : findParameter 0 post = None) by (apply findParameter_none; exact Hpost).
  assert (Hnamed : bool_decide (str name = "") = bool_decide (name = [])).
  { apply bool_decide_ext. split; [|intros ->; reflexivity].
    intros H. apply (f_equal bytes) in H. rewrite bytes_str in H. exact H. }
  rewrite Hnamed.
  destruct (decide (name = [])) as [Hn|Hn].
  - rewrite (bool_decide_eq_true_2 _ Hn). cbn [negb andb].
    cbn [compileLoop]. rewrite Hnone. cbn [buf cnames ci take].
    destruct expr as [re|]; cbn [fmap option_fmap option_map];
      rewrite ?(Hexprslice _ eq_refl);
      destruct addSlash; simpl take;
      rewrite ?append_assoc; reflexivity.
  - rewrite (bool_decide_eq_false_2 _ Hn). cbn [negb andb].
    change (length (replicate 8 "") <=? 0) with false. cbv iota.
    cbn [compileLoop]. rewrite Hnone. cbn [buf cnames ci].
    destruct expr as [re|]; cbn [fmap option_fmap option_map];
      rewrite ?(Hexprslice _ eq_refl);
      destruct addSlash; simpl take;
      rewrite ?append_assoc; reflexivity.
Qed.

(** X22.  A pattern without [<] compiles to itself, quoted and anchored,
    and has no names. *)
Theorem compileSource_literal (pattern : string) (addSlash : bool) (sep : string) :
  "<"%char ∉ bytes pattern ->
  compileSource pattern addSlash sep
  = Ok ("^" +:+ QuoteMeta pattern +:+ (if addSlash then "?" else "") +:+ "$", []).
Proof.
  intros Hnot. unfold compileSource. cbn [compileLoop].
  rewrite (findParameter_none _ 0 Hnot), str_bytes. cbn [buf cnames ci take].
  destruct addSlash; rewrite ?append_assoc; reflexivity.
Qed.

Lemma compileSource_Ok_names (pattern : string) (addSlash : bool) (sep source : string)
    (names : list string) :
  compileSource pattern addSlash sep = Ok (source, names) ->
  names = namedPlaceholders pattern /\ length names <= 8.
Proof.
  intros Hrun.
  destruct (le_lt_dec (length (namedPlaceholders pattern)) 8) as [Hle|Hgt].
  - destruct (compileSource_names pattern addSlash sep Hle) as (source' & Hrun').
    rewrite Hrun' in Hrun. injection Hrun as _ <-. auto.
  - exfalso. unfold compileSource in Hrun.
    destruct (compileLoop_names (S (String.length pattern)) sep (bytes pattern)
                {| buf := "^"; cnames := replicate 8 ""; ci := 0 |})
      as [Hp _]; [rewrite length_bytes; lia|reflexivity|simpl; lia|].
    rewrite Hp in Hrun by exact Hgt. discriminate.
Qed.

(** X23.  With at most eight named placeholders the pattern compiler
    does not fail on the names: it returns them in the order of the
    pattern, with the expression the library compiles from the source it
    built, and it panics only if the library refuses that source. *)
Theorem compilePattern_names (pattern : string) (addSlash : bool) (sep : string) :
  length (namedPlaceholders pattern) <= 8 ->
  exists source,
    compileSource pattern addSlash sep = Ok (source, namedPlaceholders pattern)
    /\ compilePattern pattern addSlash sep
       = match MustCompile source with
         | Some re => Ok (re, namedPlaceholders pattern)
         | None => Panic ("regexp: " +:+ source)
         end.
Proof.
  intros Hle. destruct (compileSource_names pattern addSlash sep Hle) as (source & Hrun).
  exists source. split; [exact Hrun|]. unfold compilePattern. rewrite Hrun. reflexivity.
Qed.

End PatternFacts.

Lemma compileSource_one_placeholder_witness :
  compileSource (X := Std.externals) "/user/<id:[0-9]+>/a.b" false "/"
  = Ok ("^/user/([0-9]+)/a\.b$", ["id"]).
Proof.
  refine (compileSource_one_placeholder (X := Std.externals) (bytes "/user/") (bytes "id")
            (Some (bytes "[0-9]+")) (bytes "/a.b") false "/" _ _ _ _).
  - apply (bool_decide_unpack _). vm_compute. exact I.
  - apply (bool_decide_unpack _). vm_compute. exact I.
  - repeat constructor.
  - intros re [= <-]. apply (bool_decide_unpack _). vm_compute. exact I.
Defined.

Lemma compileSource_literal_witness :
  compileSource (X := Std.externals) "/static/site.css" false "/"
  = Ok ("^/static/site\.css$", []).
Proof.
  refine (compileSource_literal (X := Std.externals) "/static/site.css" false "/" _).
  apply (bool_decide_unpack _). vm_compute. exact I.
Defined.

Lemma compilePattern_names_witness :
  exists source,
    compileSource (X := Std.externals) "/<year>/<month:[0-9]+>/<>" false "/"
    = Ok (source, namedPlaceholders "/<year>/<month:[0-9]+>/<>")
    /\ compilePattern (X := Std.externals) "/<year>/<month:[0-9]+>/<>" false "/"
       = match MustCompile (Externals := Std.externals) source with
         | Some re => Ok (re, namedPlaceholders "/<year>/<month:[0-9]+>/<>")
         | None => Panic ("regexp: " +:+ source)
         end.
Proof.
  apply (compilePattern_names (X := Std.externals) "/<year>/<month:[0-9]+>/<>" false "/").
  vm_compute. lia.
Defined.

(** The names of a pattern with a named, a named and restricted, and an
    unnamed placeholder. *)
Example namedPlaceholders_mixed :
  namedPlaceholders "/<year>/<month:[0-9]+>/<>" = ["year"; "month"].
Proof. vm_compute. reflexivity. Qed.

(** * Registration and dispatch *)

Section RegisterFacts.
Context {X : Externals}.

Lemma find_app_matched (l l' : list route) (path method : string) :
  ~ noneMatches l path -> find (l ++ l') path method = find l path method.
Proof.
  induction l as [|r l IH]; intros Hsome.
  - exfalso. apply Hsome. constructor.
  - simpl. destruct (length (regexp r path) =? 0) eqn:Hr; [|reflexivity].
    apply IH. intros Hnone. apply Hsome. constructor; [|exact Hnone].
    apply Nat.eqb_eq in Hr. destruct (regexp r path); [reflexivity|discriminate].
Qed.

Lemma Register_Ok (router router' : Router) (pattern : string) (handlers : list arg) :
  Register router pattern handlers = Ok router' ->
  exists source re names m,
    compileSource pattern (bool_decide (last (bytes pattern) = Some "/"%char)) "/"
    = Ok (source, names)
    /\ MustCompile source = Some re
    /\ registerHandlers pattern handlers ∅ = Ok m
    /\ router' = {| routes := routes router
                              ++ [{| addSlash := bool_decide (last (bytes pattern)
                                                              = Some "/"%char);
                                     regexp := re; names := names; handlers := m |}] |}.
Proof.
  unfold Register.
  destruct (bytes pattern) as [|c l] eqn:Hp; [discriminate|].
  destruct (Ascii.eqb_spec c "/") as [->|Hc].
  2: { destruct c as [[] [] [] [] [] [] [] []]; try discriminate. congruence. }
  destruct (negb (length handlers mod 2 =? 0) || (length handlers =? 0)); [discriminate|].
  unfold compilePattern.
  destruct (compileSource pattern _ "/") as [[source names]|e|msg|] eqn:Hsrc; try discriminate.
  destruct (MustCompile source) as [re|] eqn:Hre; [|discriminate].
  destruct (registerHandlers pattern handlers ∅) as [m|e|msg|] eqn:Hm; try discriminate.
  intros [= <-]. exists source, re, names, m.
  split; [reflexivity|]. split; [exact Hre|]. split; reflexivity.
Qed.

(** X24.  A registration that returns adds one route, after the routes
    registered before.  Its names are the named placeholders of the
    pattern, in order and at most eight; it redirects to the trailing
    slash exactly when the pattern ends with a slash; its expression is
    what the library compiled from the source of the pattern. *)
Theorem Register_appends (router router' : Router) (pattern : string) (args : list arg) :
  Register router pattern args = Ok router' ->
  exists r,
    routes router' = routes router ++ [r]
    /\ addSlash r = bool_decide (last (bytes pattern) = Some "/"%char)
    /\ names r = namedPlaceholders pattern
    /\ length (names r) <= 8
    /\ registerHandlers pattern args ∅ = Ok (handlers r)
    /\ exists source,
         compileSource pattern (addSlash r) "/" = Ok (source, names r)
         /\ MustCompile source = Some (regexp r).
Proof.
  intros Hreg.
  destruct (Register_Ok _ _ _ _ Hreg) as (source & re & names & m & Hsrc & Hre & Hm & ->).
  destruct (compileSource_Ok_names _ _ _ _ _ Hsrc) as [Hnames Hlen].
  eexists. split; [reflexivity|]. simpl.
  split; [reflexivity|]. split; [exact Hnames|]. split; [exact Hlen|].
  split; [exact Hm|]. exists source. auto.
Qed.

(** X25.  Routes registered earlier take precedence.  After a
    registration that returns, a path that a route registered before
    matches is dispatched as it was before; a path that none of them
    matches is dispatched by the new route alone. *)
Theorem Register_keeps_precedence (router router' : Router) (pattern : string)
    (handlers : list arg) (path method : string) :
  Register router pattern handlers = Ok router' ->
  (~ noneMatches (routes router) path ->
   find (routes router') path method = find (routes router) path method)
  /\ (noneMatches (routes router) path ->
      exists r, routes router' = routes router ++ [r]
                /\ find (routes router') path method = find [r] path method).
Proof.
  intros Hreg.
  destruct (Register_Ok _ _ _ _ Hreg) as (source & re & names & m & _ & _ & _ & ->).
  cbn [routes]. split.
  - apply find_app_matched.
  - intros Hnone. eexists. split; [reflexivity|]. apply find_skip. exact Hnone.
Qed.

(** X26.  A submatch that cannot be unescaped ends the search with 404:
    when the first route that matches the path is not answered by the
    redirect to the trailing slash and one of its submatches is not
    validly percent-encoded, the result is the error 404, whatever the
    method, the handlers of the route and the routes after it. *)
Theorem find_bad_escape (pre post : list route) (r : route) (path method : string) :
  noneMatches pre path ->
  regexp r path <> [] ->
  (addSlash r = true -> last (bytes path) = Some "/"%char) ->
  unescapeValues (drop 1 (regexp r path)) = None ->
  find (pre ++ r :: post) path method = Ok (routerError StatusNotFound, [], []).
Proof.
  intros Hpre Hmatch Hslash Hbad. rewrite (find_skip _ _ _ _ Hpre).
  cbn [find]. rewrite (length_nonzero _ Hmatch).
  destruct (addSlash r).
  - rewrite (Hslash eq_refl). cbn. rewrite Hbad. reflexivity.
  - rewrite Hbad. reflexivity.
Qed.

Lemma setParams_spec (names values : list string) (m : gmap string string) :
  length names <= length values ->
  exists m',
    setParams names values m = Ok m'
    /\ (forall k, k ∉ names -> m' !! k = m !! k)
    /\ (forall i n v,
          names !! i = Some n -> values !! i = Some v ->
          (forall j, i < j -> names !! j <> Some n) ->
          m' !! n = Some v).
Proof.
  revert values m. induction names as [|n0 names IH]; intros values m Hlen.
  - exists m. split; [reflexivity|]. split; [reflexivity|]. intros i n v Hn. discriminate.
  - destruct values as [|v0 values]; [simpl in Hlen; lia|].
    simpl in Hlen. destruct (IH values (<[n0 := v0]> m)) as (m' & Hrun & Hother & Hbound);
      [lia|].
    exists m'. split; [exact Hrun|]. split.
    + intros k Hk. apply not_elem_of_cons in Hk as [Hk0 Hk].
      rewrite (Hother k Hk). apply lookup_insert_ne. congruence.
    + intros [|i] n v Hn Hv Hlast.
      * injection Hn as ->. injection Hv as ->.
        rewrite Hother; [apply lookup_insert_eq|].
        intros Hin. apply list_elem_of_lookup_1 in Hin as [j Hj].
        apply (Hlast (S j)); [lia|exact Hj].
      * apply (Hbound i n v Hn Hv). intros j Hj. apply (Hlast (S j)). lia.
Qed.

(** X27.  The parameters of the route.  When there are at least as many
    submatches as names, serving a request binds each name to the submatch
    at its position, the later one when a name occurs twice, and leaves
    the other parameters of the request as they were; with fewer
    submatches than names it panics with an index out of range. *)
Theorem setParams_binds (names values : list string) (m : gmap string string) :
  (length names <= length values ->
   exists m',
     setParams names values m = Ok m'
     /\ (forall k, k ∉ names -> m' !! k = m !! k)
     /\ (forall i n v,
           names !! i = Some n -> values !! i = Some v ->
           (forall j, i < j -> names !! j <> Some n) ->
           m' !! n = Some v))
  /\ (length values < length names -> setParams names values m = Panic indexOutOfRange).
Proof.
  split; [apply setParams_spec|].
  revert values m. induction names as [|n0 names IH]; intros values m Hlen.
  - simpl in Hlen. lia.
  - destruct values as [|v0 values]; [reflexivity|].
    simpl in Hlen. simpl. apply IH. lia.
Qed.

End RegisterFacts.

Lemma Register_appends_witness :
  exists r,
    routes {| routes := [filesRoute; aboutRoute] |} = routes {| routes := [filesRoute] |} ++ [r]
    /\ addSlash r = bool_decide (last (bytes "/about") = Some "/"%char)
    /\ names r = namedPlaceholders "/about"
    /\ length (names r) <= 8
    /\ registerHandlers "/about" [ArgString "GET"; ArgFunc "about"] ∅ = Ok (handlers r)
    /\ exists source,
         compileSource (X := literalExternals) "/about" (addSlash r) "/" = Ok (source, names r)
         /\ MustCompile (Externals := literalExternals) source = Some (regexp r).
Proof.
  apply (Register_appends (X := literalExternals) {| routes := [filesRoute] |}
           {| routes := [filesRoute; aboutRoute] |} "/about"
           [ArgString "GET"; ArgFunc "about"]).
  vm_compute. reflexivity.
Defined.

Lemma Register_keeps_precedence_witness :
  (~ noneMatches [filesRoute] "/files" ->
   find (X := literalExternals) (routes {| routes := [filesRoute; aboutRoute] |}) "/files" "GET"
   = find (X := literalExternals) [filesRoute] "/files" "GET")
  /\ (noneMatches [filesRoute] "/files" ->
      exists r, routes {| routes := [filesRoute; aboutRoute] |} = [filesRoute] ++ [r]
                /\ find (X := literalExternals) (routes {| routes := [filesRoute; aboutRoute] |})
                     "/files" "GET"
                   = find (X := literalExternals) [r] "/files" "GET").
Proof.
  apply (Register_keeps_precedence (X := literalExternals) {| routes := [filesRoute] |}
           {| routes := [filesRoute; aboutRoute] |} "/about"
           [ArgString "GET"; ArgFunc "about"] "/files" "GET").
  vm_compute. reflexivity.
Defined.

Lemma find_bad_escape_witness :
  find (X := Std.externals)
    [filesRoute;
     {| addSlash := false; regexp := Std.oneSegment "/user/"; names := ["id"];
        handlers := {["GET" := AppHandler "user"]} |};
     {| addSlash := false; regexp := Std.literal "/user/%zz"; names := [];
        handlers := {["GET" := AppHandler "odd"]} |}]
    "/user/%zz" "GET"
  = Ok (routerError StatusNotFound, [], []).
Proof.
  apply (find_bad_escape (X := Std.externals) [filesRoute]
           [{| addSlash := false; regexp := Std.literal "/user/%zz"; names := [];
               handlers := {["GET" := AppHandler "odd"]} |}]
           {| addSlash := false; regexp := Std.oneSegment "/user/"; names := ["id"];
              handlers := {["GET" := AppHandler "user"]} |}
           "/user/%zz" "GET").
  - repeat constructor.
  - vm_compute. discriminate.
  - discriminate.
  - vm_compute. reflexivity.
Defined.

(** Registration and dispatch, run: the two registrations build the
    router above, and it dispatches by path and method. *)
Example Register_and_find :
  match Register (X := literalExternals) NewRouter "/files/"
          [ArgString "GET"; ArgHandler "files"] with
  | Ok router =>
      Register (X := literalExternals) router "/about" [ArgString "GET"; ArgFunc "about"]
  | other => other
  end = Ok {| routes := [filesRoute; aboutRoute] |}
  /\ find (X := literalExternals) [filesRoute; aboutRoute] "/about" "HEAD"
     = Ok (HandlerFunc (Func.app "about"), [], [])
  /\ find (X := literalExternals) [filesRoute; aboutRoute] "/files" "GET"
     = Ok (HandlerFunc Func.addSlash, [], [])
  /\ find (X := literalExternals) [filesRoute; aboutRoute] "/files/" "POST"
     = Ok (routerError StatusMethodNotAllowed, [], []).
Proof. vm_compute. repeat split; reflexivity. Qed.

(** * The host router *)

Section HostFacts.
Context {X : Externals}.

Lemma hostFind_skip (pre rest : list hostRoute) (dflt : WebHandler) (host : string) :
  noHostMatches pre host -> hostFind (pre ++ rest) dflt host = hostFind rest dflt host.
Proof.
  induction 1 as [|r pre Hr Hpre IH]; [reflexivity|].
  simpl. rewrite Hr. simpl. exact IH.
Qed.

(** X28.  The host router dispatches on the host alone.  The first route
    whose expression matches the host gives the handler, with the names of
    the route and the submatches as the expression returned them (they are
    not unescaped, and no method is looked at); when no route matches, the
    default handler is used with no parameters, and that is all a new
    router does, with [NotFoundHandler] when it was given no default
    handler.  The host is lower-cased before it is
    matched, so two requests whose hosts differ in case only are
    dispatched alike. *)
Theorem HostRouter_dispatch (pre post : list hostRoute) (r : hostRoute) (dflt : WebHandler)
    (host : string) :
  (noHostMatches pre host -> hregexp r host <> [] ->
   HostRouter_find {| defaultHandler := dflt; hroutes := pre ++ r :: post |} host
   = (hhandler r, hnames r, drop 1 (hregexp r host)))
  /\ (noHostMatches pre host ->
      HostRouter_find {| defaultHandler := dflt; hroutes := pre |} host = (dflt, [], []))
  /\ (forall d : option WebHandler,
        HostRouter_find (NewHostRouter d) host = (default NotFoundHandler d, [], []))
  /\ (forall (router : HostRouter) (u u' : URL) (params : gmap string string),
        ToLower (Host u) = ToLower (Host u') ->
        Path u = Path u' -> RawQuery u = RawQuery u' ->
        HostRouter_ServeWeb router u params = HostRouter_ServeWeb router u' params).
Proof.
  split; [|split; [|split]].
  - intros Hpre Hmatch. unfold HostRouter_find. cbn [hroutes defaultHandler].
    rewrite (hostFind_skip _ _ _ _ Hpre). cbn [hostFind].
    rewrite (length_nonzero _ Hmatch). reflexivity.
  - intros Hpre. unfold HostRouter_find. cbn [hroutes defaultHandler].
    rewrite <- (app_nil_r pre), (hostFind_skip _ _ _ _ Hpre). reflexivity.
  - intros [d|]; reflexivity.
  - intros router u u' params Hhost Hpath Hquery. unfold HostRouter_ServeWeb.
    rewrite Hhost.
    destruct (HostRouter_find router (ToLower (Host u'))) as [[handler names] values].
    destruct (setParams names values params) as [m|e|msg|]; try reflexivity.
    unfold handler_ServeWeb, addSlashTarget. rewrite Hpath, Hquery. reflexivity.
Qed.

(** X29.  A host route registered later never takes a host from a route
    registered earlier: after a registration that returns, the router
    holds the routes it held followed by the new one, whose names are the
    named placeholders of the pattern, and every host that a route
    registered before matches is dispatched as before. *)
Theorem HostRouter_Register_appends (router router' : HostRouter) (hostPattern : string)
    (handler : WebHandler) (host : string) :
  HostRouter_Register router hostPattern handler = Ok router' ->
  defaultHandler router' = defaultHandler router
  /\ (exists r, hroutes router' = hroutes router ++ [r]
                /\ hhandler r = handler
                /\ hnames r = namedPlaceholders hostPattern)
  /\ (~ noHostMatches (hroutes router) host ->
      HostRouter_find router' host = HostRouter_find router host).
Proof.
  unfold HostRouter_Register, HostRouter_compile, compilePattern.
  destruct (compileSource hostPattern false ".") as [[source names]|e|msg|] eqn:Hsrc;
    try discriminate.
  destruct (MustCompile source) as [re|]; [|discriminate].
  intros [= <-]. cbn [defaultHandler hroutes].
  destruct (compileSource_Ok_names _ _ _ _ _ Hsrc) as [Hnames _].
  split; [reflexivity|]. split.
  - eexists. split; [reflexivity|]. split; [reflexivity|exact Hnames].
  - intros Hsome. unfold HostRouter_find. cbn [hroutes defaultHandler].
    induction (hroutes router) as [|r l IH].
    + exfalso. apply Hsome. constructor.
    + simpl. destruct (length (hregexp r host) =? 0) eqn:Hr; [|reflexivity].
      apply IH. intros Hnone. apply Hsome. constructor; [|exact Hnone].
      apply Nat.eqb_eq in Hr. destruct (hregexp r host); [reflexivity|discriminate].
Qed.

End HostFacts.

Lemma HostRouter_Register_appends_witness :
  defaultHandler {| defaultHandler := NotFoundHandler;
                    hroutes := [{| hregexp := Std.literal "localhost"; hnames := [];
                                   hhandler := AppHandler "site" |}] |}
  = defaultHandler (NewHostRouter None)
  /\ (exists r,
        hroutes {| defaultHandler := NotFoundHandler;
                   hroutes := [{| hregexp := Std.literal "localhost"; hnames := [];
                                  hhandler := AppHandler "site" |}] |}
        = hroutes (NewHostRouter None) ++ [r]
        /\ hhandler r = AppHandler "site"
        /\ hnames r = namedPlaceholders "localhost")
  /\ (~ noHostMatches (hroutes (NewHostRouter None)) "localhost" ->
      HostRouter_find
        {| defaultHandler := NotFoundHandler;
           hroutes := [{| hregexp := Std.literal "localhost"; hnames := [];
                          hhandler := AppHandler "site" |}] |} "localhost"
      = HostRouter_find (NewHostRouter None) "localhost").
Proof.
  apply (HostRouter_Register_appends (X := literalExternals) (NewHostRouter None)
           {| defaultHandler := NotFoundHandler;
              hroutes := [{| hregexp := Std.literal "localhost"; hnames := [];
                             hhandler := AppHandler "site" |}] |}
           "localhost" (AppHandler "site") "localhost").
  vm_compute. reflexivity.
Defined.

(** A host is matched in lower case. *)
Example HostRouter_lower_case :
  HostRouter_ServeWeb (X := literalExternals)
    {| defaultHandler := NotFoundHandler;
       hroutes := [{| hregexp := Std.literal "localhost"; hnames := [];
                      hhandler := AppHandler "site" |}] |}
    {| Scheme := "http"; Host := "LocalHost"; Path := "/"; RawQuery := "" |} ∅
  = Ok (CallHandler (AppHandler "site") ∅)
  /\ HostRouter_ServeWeb (X := literalExternals)
       {| defaultHandler := NotFoundHandler;
          hroutes := [{| hregexp := Std.literal "localhost"; hnames := [];
                         hhandler := AppHandler "site" |}] |}
       {| Scheme := "http"; Host := "example.com"; Path := "/"; RawQuery := "" |} ∅
     = Ok (CallError StatusNotFound).
Proof. vm_compute. split; reflexivity. Qed.

(** * The error response *)

Section ErrorFacts.
Context {X : Externals}.
Variable StatusTextOf : Z -> string.

(** X30.  The error response of the router and of [req.Error].  On a
    connection on which no response has been committed, [req.Error]
    commits the status with the content type [text/plain; charset=utf-8]
    (whatever content type its arguments give) and writes the reason
    phrase as the body: once [finish] has run the network holds the header
    block and the phrase, as one chunk followed by the last chunk when the
    response is chunked, as it is otherwise.  On a connection whose
    response is committed already, or that has been taken over, it panics:
    the body [Respond] returns is [nil]. *)
Theorem Error_on_the_wire (status : Z) (kvs : list string) (c : conn) (w : world) :
  (netConn c = true -> hijacked c = false -> respondCalled c = false ->
   responseErr c = None -> reliable (net w) ->
   String.length (StatusTextOf status) <= defaultBufSize ->
   exists c1 w1 c2 w2,
     Request_Error StatusTextOf status kvs (c, w) = Ok (tt, (c1, w1))
     /\ finish (c1, w1) = Ok (None, (c2, w2))
     /\ sent (net w2)
        = sent (net w)
          ++ bytes (headerBlock (protoOf c) status
                      (headerCommitted status
                         (Set_ (NewStringsMap kvs) HeaderContentType
                            "text/plain; charset=utf-8") c))
          ++ (if chunkedDecided status
                   (Set_ (NewStringsMap kvs) HeaderContentType "text/plain; charset=utf-8") c
              then (if decide (bytes (StatusTextOf status) = []) then []
                    else chunkFrame (bytes (StatusTextOf status))) ++ lastChunk
              else bytes (StatusTextOf status))
     /\ (status <> StatusNotModified ->
         headerCommitted status
           (Set_ (NewStringsMap kvs) HeaderContentType "text/plain; charset=utf-8") c
         !! HeaderContentType = Some ["text/plain; charset=utf-8"]))
  /\ (hijacked c = true \/ respondCalled c = true ->
      Request_Error StatusTextOf status kvs (c, w) = Panic nilDereference
      /\ routerError_ServeWeb StatusTextOf status (c, w) = Panic nilDereference).
Proof.
  split.
  - intros Hconn Hhij Hcalled Herr Hrel Hfit.
    set (header := Set_ (NewStringsMap kvs) HeaderContentType "text/plain; charset=utf-8").
    set (text := bytes (StatusTextOf status)).
    assert (Htext : length text <= defaultBufSize)
      by (unfold text; rewrite length_bytes; exact Hfit).
    assert (Htype : status <> StatusNotModified ->
                    headerCommitted status header c !! HeaderContentType
                    = Some ["text/plain; charset=utf-8"]).
    { intros Hstatus. apply Z.eqb_neq in Hstatus.
      unfold headerCommitted, headerChecked. rewrite Hstatus.
      destruct (chunkedDecided status header c); destruct (closeDecided c);
        unfold Set_; rewrite ?lookup_insert_ne by discriminate;
        apply lookup_insert_eq. }
    unfold Request_Error, defaultErrorHandler. fold header. fold text.
    destruct (chunkedDecided status header c) eqn:Hmode.
    + destruct (Respond_chunked status header c w Hconn Hhij Hcalled Herr Hrel Hmode)
        as (Hresp & Hflows1).
      set (block := bytes (headerBlock (protoOf c) status (headerCommitted status header c)))
        in *.
      set (c1 := committed status header c) in *.
      pose proof Hflows1 as (Hconn1 & Herr1 & Hrel1 & Hbw1 & _).
      pose proof (Write_fits text c1 (put w block) chunkedKind [] Hbw1 Htext) as Hwrite.
      set (c2 := set_bw _ c1) in Hwrite.
      assert (Hflows2 : flows chunkedKind text c2 (put w block)).
      { unfold c2, flows. split; [exact Hconn1|]. split; [exact Herr1|].
        split; [exact Hrel1|]. split; [reflexivity|exact Htext]. }
      destruct (finish_chunked text c2 _ Hflows2 eq_refl Hmode) as (c3 & Hfin & _).
      rewrite put_put in Hfin.
      eexists c2, _, c3, _. split.
      { rewrite (bind_Ok _ _ _ _ _ Hresp). cbv beta iota.
        rewrite (bind_Ok _ _ _ _ _ Hwrite). reflexivity. }
      split; [exact Hfin|]. split; [reflexivity|exact Htype].
    + destruct (Respond_identity status header c w Hconn Hhij Hcalled Herr Hrel Hmode)
        as (c1 & out1 & buf1 & Hresp & Hf1 & Hflows1 & Hout1).
      destruct (Write_identity text buf1 c1 _ Hflows1)
        as (c2 & out2 & buf2 & Hwrite & Hf2 & Hflows2 & Hout2).
      rewrite put_put in Hwrite, Hflows2.
      assert (Hcalled2 : respondCalled c2 = true).
      { rewrite (frame_field respondCalled _ _ (fun _ => eq_refl) Hf2).
        rewrite (frame_field respondCalled _ _ (fun _ => eq_refl) Hf1). reflexivity. }
      assert (Hch2 : chunked c2 = false).
      { rewrite (frame_field chunked _ _ (fun _ => eq_refl) Hf2).
        rewrite (frame_field chunked _ _ (fun _ => eq_refl) Hf1). exact Hmode. }
      destruct (finish_identity buf2 c2 _ Hflows2 Hcalled2 Hch2) as (c3 & Hfin & _).
      rewrite put_put in Hfin.
      eexists c2, _, c3, _. split.
      { rewrite (bind_Ok _ _ _ _ _ Hresp). cbv beta iota.
        rewrite (bind_Ok _ _ _ _ _ Hwrite). reflexivity. }
      split; [exact Hfin|]. split; [|exact Htype].
      simpl. f_equal. rewrite <- app_assoc, Hout2, app_assoc, Hout1. reflexivity.
  - intros Hrefused.
    assert (H : forall header, defaultErrorHandler StatusTextOf status header (c, w)
                               = Panic nilDereference).
    { intros header. unfold defaultErrorHandler.
      rewrite (bind_Ok _ _ _ _ _ (Respond_rejected status _ c w Hrefused)). reflexivity. }
    split; apply H.
Qed.

End ErrorFacts.

(** The 404 of the router on a connection of HTTP/1.1 that stays
    open. *)
Example Error_404_on_the_wire :
  exists c w,
    bind (routerError_ServeWeb (X := Std.externals) (fun _ => "Not Found") StatusNotFound)
      (fun _ => finish (X := Std.externals)) (openConn, quietWorld) = Ok (None, (c, w))
    /\ sent (net w)
       = bytes "HTTP/1.1 404 Not Found" ++ CRLF
         ++ bytes "Content-Type: text/plain; charset=utf-8" ++ CRLF
         ++ bytes "Transfer-Encoding: chunked" ++ CRLF ++ CRLF
         ++ bytes "9" ++ CRLF ++ bytes "Not Found" ++ CRLF
         ++ bytes "0" ++ CRLF ++ CRLF.
Proof. eexists _, _. split; vm_compute; reflexivity. Qed.
